(** * MediumArticleWriter: the generation / validation / regeneration workflow

    A shallow embedding of the workflow controller (agents/graph.py), the
    eight validator stages (validators/*.py), the equation handler
    (utils/latex_handler.py), the persistence operations the workflow uses
    (database/operations.py) and the time-travel route (api/routes.py),
    followed by the properties established about them.

    Modelling conventions.
    - Python [str] values are Rocq strings whose characters are the code
      points below 256 (ASCII and Latin-1); texts with other characters are
      outside the model.
    - A Python float is given by its exact value, a rational ([Q]).
      Comparisons are exact, as they are on floats; additions and divisions
      round to the nearest binary64 value ([Float64]).
    - The mutable state dictionary that every node receives and returns is a
      record passed explicitly; the external collaborators (language model,
      renderer, database) live in an explicit world value that each node
      threads through. *)

From Stdlib Require Import QArith Qabs Lia Ascii String DecimalString.
From stdpp Require Import base option list strings gmap.

Local Close Scope Q_scope.
Local Open Scope nat_scope.
Local Open Scope stdpp_scope.

(** ** Python string helpers *)

Module Py.

Definition newline : ascii := ascii_of_nat 10.
Definition dollar : ascii := ascii_of_nat 36.
Definition backslash : ascii := ascii_of_nat 92.

(** [str.isspace] on one code point below 256: TAB..CR, FS..US, the space,
    the next-line control U+0085 and the no-break space U+00A0. The regular
    expression class [\s] holds the same characters. *)
Definition isspace (c : ascii) : bool :=
  let n := nat_of_ascii c in
  ((9 <=? n) && (n <=? 13)) || ((28 <=? n) && (n <=? 32))
  || (n =? 133) || (n =? 160).

(** [str(n)] for a non-negative integer. *)
Definition str_of_nat (n : nat) : string :=
  NilEmpty.string_of_uint (Nat.to_uint n).

Fixpoint drop (n : nat) (s : string) : string :=
  match n, s with
  | O, _ => s
  | S _, EmptyString => EmptyString
  | S k, String _ r => drop k r
  end.

Fixpoint lstrip (s : string) : string :=
  match s with
  | EmptyString => EmptyString
  | String c r => if isspace c then lstrip r else s
  end.

Fixpoint rstrip (s : string) : string :=
  match s with
  | EmptyString => EmptyString
  | String c r =>
      match rstrip r with
      | EmptyString => if isspace c then EmptyString else String c EmptyString
      | r' => String c r'
      end
  end.

(** [s.strip()] *)
Definition strip (s : string) : string := rstrip (lstrip s).

(** [new.join(list(s))] surrounded by [new]: what [s.replace('', new)]
    returns. *)
Fixpoint intersperse_all (new s : string) : string :=
  match s with
  | EmptyString => new
  | String c r => new +:+ String c (intersperse_all new r)
  end.

Fixpoint replace_from (old new : string) (skip : nat) (s : string) : string :=
  match s with
  | EmptyString => EmptyString
  | String c r =>
      match skip with
      | S k => replace_from old new k r
      | O =>
          if String.prefix old s
          then new +:+ replace_from old new (String.length old - 1) r
          else String c (replace_from old new 0 r)
      end
  end.

(** [s.replace(old, new)]: every non-overlapping occurrence, left to right. *)
Definition replace (old new s : string) : string :=
  match old with
  | EmptyString => intersperse_all new s
  | _ => replace_from old new 0 s
  end.

Definition contains_char (c : ascii) (s : string) : bool :=
  existsb (Ascii.eqb c) (list_ascii_of_string s).

End Py.

(** ** A small backtracking matcher for the regular expressions of the source

    Every pattern used by the program is a sequence of literal characters,
    line anchors and repetitions of a single character class, at most one of
    them inside the capturing group. *)

Module Re.

Inductive atom : Type :=
| Lit (c : ascii)
| Rep (greedy : bool) (least : nat) (cls : ascii -> bool) (capture : bool)
| Bol   (* [^] under re.MULTILINE *)
| Eol.  (* [$] under re.MULTILINE *)

Definition pattern := list atom.

(** A successful match: the whole matched text, group 1, and the rest of the
    subject after the match. *)
Record found : Type := Found { group0 : string; group1 : string; rest : string }.

Definition any_char : ascii -> bool := fun _ => true.          (* [.] with DOTALL, [\s\S] *)
Definition dot : ascii -> bool := fun c => negb (Ascii.eqb c Py.newline).   (* [.] *)
Definition not_dollar : ascii -> bool := fun c => negb (Ascii.eqb c Py.dollar). (* [^\$] *)
Definition space : ascii -> bool := Py.isspace.                 (* [\s] *)

Definition at_bol (prev : option ascii) : bool :=
  match prev with
  | None => true
  | Some c => Ascii.eqb c Py.newline
  end.

Definition at_eol (s : string) : bool :=
  match s with
  | EmptyString => true
  | String c _ => Ascii.eqb c Py.newline
  end.

(** [match_here pat prev s]: match [pat] at the start of [s]; [prev] is the
    character before the current position. *)
Fixpoint match_here (pat : pattern) (prev : option ascii) (s : string)
  : option found :=
  match pat with
  | [] => Some (Found EmptyString EmptyString s)
  | Lit c :: pat' =>
      match s with
      | String d r =>
          if Ascii.eqb c d then
            match match_here pat' (Some d) r with
            | Some f => Some (Found (String d (group0 f)) (group1 f) (rest f))
            | None => None
            end
          else None
      | EmptyString => None
      end
  | Bol :: pat' => if at_bol prev then match_here pat' prev s else None
  | Eol :: pat' => if at_eol s then match_here pat' prev s else None
  | Rep greedy least cls capture :: pat' =>
      (fix loop (n : nat) (taken : string) (prev : option ascii) (s : string)
         {struct s} : option found :=
         let stop :=
           if least <=? n then
             match match_here pat' prev s with
             | Some f =>
                 Some (Found (taken +:+ group0 f)
                             (if capture then taken else group1 f) (rest f))
             | None => None
             end
           else None in
         match s with
         | String c r =>
             if cls c then
               let more := loop (S n) (taken +:+ String c EmptyString) (Some c) r in
               if greedy
               then match more with Some f => Some f | None => stop end
               else match stop with Some f => Some f | None => more end
             else stop
         | EmptyString => stop
         end) 0 EmptyString prev s
  end.

(** [re.search]: the leftmost match. *)
Fixpoint search_from (pat : pattern) (prev : option ascii) (s : string)
  : option found :=
  match match_here pat prev s with
  | Some f => Some f
  | None =>
      match s with
      | EmptyString => None
      | String c r => search_from pat (Some c) r
      end
  end.

Definition search (pat : pattern) (s : string) : option found :=
  search_from pat None s.

(** [re.finditer]: the non-overlapping matches from left to right, each with
    its start offset. [skip] characters belong to the previous match. (The
    patterns of the program never match the empty text.) *)
Fixpoint finditer_from (pat : pattern) (skip pos : nat) (prev : option ascii)
  (s : string) : list (found * nat) :=
  match s with
  | EmptyString =>
      match skip, match_here pat prev s with
      | O, Some f => [(f, pos)]
      | _, _ => []
      end
  | String c r =>
      match skip with
      | S k => finditer_from pat k (S pos) (Some c) r
      | O =>
          match match_here pat prev s with
          | Some f =>
              (f, pos) :: finditer_from pat (String.length (group0 f) - 1)
                            (S pos) (Some c) r
          | None => finditer_from pat 0 (S pos) (Some c) r
          end
      end
  end.

Definition finditer (pat : pattern) (s : string) : list (found * nat) :=
  finditer_from pat 0 0 None s.

(** [re.sub(re.escape(lit), repl, s, count=1)] for a replacement template
    without backslashes: the first occurrence of the literal text [lit] is
    replaced by [repl]. *)
Fixpoint sub_escaped_once (lit repl s : string) : string :=
  if String.prefix lit s then repl +:+ Py.drop (String.length lit) s
  else match s with
       | EmptyString => EmptyString
       | String c r => String c (sub_escaped_once lit repl r)
       end.

End Re.

(** ** utils/latex_handler.py *)

Module LaTeXHandler.

Inductive mode : Type := display | inline.

Definition mode_eqb (a b : mode) : bool :=
  match a, b with
  | display, display | inline, inline => true
  | _, _ => false
  end.

(** [r'\$\$(.*?)\$\$'] with re.DOTALL *)
Definition display_pattern : Re.pattern :=
  [Re.Lit Py.dollar; Re.Lit Py.dollar; Re.Rep false 0 Re.any_char true;
   Re.Lit Py.dollar; Re.Lit Py.dollar].

(** [r'\$([^\$]+?)\$'] *)
Definition inline_pattern : Re.pattern :=
  [Re.Lit Py.dollar; Re.Rep false 1 Re.not_dollar true; Re.Lit Py.dollar].

(** One extracted equation: (equation, mode, position). *)
Definition equation : Type := string * mode * nat.

(** The first loop of [extract_equations]: one display equation per match,
    and every occurrence of the matched text removed from the working copy. *)
Fixpoint display_loop (ms : list (Re.found * nat)) (equations : list equation)
  (content_without_display : string) : list equation * string :=
  match ms with
  | [] => (equations, content_without_display)
  | (m, start) :: ms' =>
      display_loop ms'
        (equations ++ [(Py.strip (Re.group1 m), display, start)])
        (Py.replace (Re.group0 m) EmptyString content_without_display)
  end.

Definition extract_equations (content : string) : list equation :=
  let '(equations, content_without_display) :=
    display_loop (Re.finditer display_pattern content) [] content in
  equations ++
    map (fun '(m, start) => (Py.strip (Re.group1 m), inline, start))
        (Re.finditer inline_pattern content_without_display).

Section Rendering.

(** [latex_to_image latex filename display_mode]: [true] when the image is
    written, [false] when rendering raises. *)
Variable latex_to_image : string -> string -> bool -> bool.

Definition filename_of (article_id : string) (idx : nat) : string :=
  "eq_" +:+ article_id +:+ "_" +:+ Py.str_of_nat idx +:+ ".png".

Definition nl2 : string := String Py.newline (String Py.newline EmptyString).

(** [f"\n\n![Equation {idx + 1}](/static/images/{filename})\n\n"] *)
Definition image_ref_of (idx : nat) (filename : string) : string :=
  nl2 +:+ "![Equation " +:+ Py.str_of_nat (idx + 1) +:+ "](/static/images/"
      +:+ filename +:+ ")" +:+ nl2.

Definition delimited (m : mode) (eq : string) : string :=
  match m with
  | display => "$$" +:+ eq +:+ "$$"
  | inline => "$" +:+ eq +:+ "$"
  end.

(** The body of the [for idx, (equation, mode, position) in enumerate(...)]
    loop; a rendering failure skips the equation. *)
Fixpoint process_loop (article_id : string) (idx : nat) (eqs : list equation)
  (modified_content : string) (equation_images : list string)
  : string * list string :=
  match eqs with
  | [] => (modified_content, equation_images)
  | (eq, m, _) :: eqs' =>
      let filename := filename_of article_id idx in
      if latex_to_image eq filename (mode_eqb m display) then
        let image_ref := image_ref_of idx filename in
        process_loop article_id (S idx) eqs'
          (Re.sub_escaped_once (delimited m eq) image_ref modified_content)
          (equation_images ++ [filename])
      else process_loop article_id (S idx) eqs' modified_content equation_images
  end.

(** Returns (modified_content, equation_count). The replacement template
    is literal text as long as [article_id] holds no backslash. *)
Definition process_article_equations (content article_id : string)
  : string * nat :=
  match extract_equations content with
  | [] => (content, 0)
  | equations =>
      let '(modified_content, equation_images) :=
        process_loop article_id 0 equations content [] in
      (modified_content, length equation_images)
  end.

End Rendering.

End LaTeXHandler.

(** ** config.py *)

Module settings.
Definition MAX_CONCURRENT_ARTICLES : nat := 3.
Definition MAX_RETRIES : nat := 5.
Definition MIN_SCORE_THRESHOLD : Q := 15 # 2.   (* 7.5 *)
Definition PUBLISH_THRESHOLD : Q := 17 # 2.     (* 8.5 *)
End settings.

(** ** Python floats

    A finite float is represented by its exact value. [round] gives the
    binary64 value nearest to a rational, ties going to the even
    significand, with the gradual underflow of the format; an operation on
    floats is the exact operation followed by [round], as IEEE 754
    prescribes. Overflow to infinity is not modelled: the program's floats
    are scores and their sums. *)

Module Float64.

Definition pow2 (e : Z) : Q := Qpower 2 e.

(** [floor_log2 q] is the integer [k] with [2^k <= q < 2^(k+1)], for a
    positive [q]. *)
Definition floor_log2 (q : Q) : Z :=
  let k := (Z.log2 (Qnum q) - Z.log2 (Zpos (Qden q)))%Z in
  if Qle_bool (pow2 k) q then k else (k - 1)%Z.

(** The integer nearest to a non-negative rational, the even one of two
    that are equally near. *)
Definition round_half_even (q : Q) : Z :=
  let n := Qnum q in
  let d := Zpos (Qden q) in
  let f := (n / d)%Z in
  match (2 * (n mod d) ?= d)%Z with
  | Lt => f
  | Gt => (f + 1)%Z
  | Eq => if Z.even f then f else (f + 1)%Z
  end.

(** 53 significant bits; the least exponent of the last bit is -1074. *)
Definition round (q : Q) : Q :=
  if Qeq_bool q 0 then 0%Q
  else
    let a := Qabs q in
    let e := Z.max (floor_log2 a - 52) (-1074) in
    let m := round_half_even (a / pow2 e)%Q in
    let r := Qred (inject_Z m * pow2 e)%Q in
    if Qle_bool 0 q then r else (- r)%Q.

Definition add (a b : Q) : Q := round (a + b)%Q.   (* [a + b] *)
Definition div (a b : Q) : Q := round (a / b)%Q.   (* [a / b], [b] not zero *)
Definition of_int (n : Z) : Q := round (inject_Z n). (* [float(n)] *)

End Float64.

(** ** Values exchanged with the collaborators *)

(** JSON-like values held in the free-form mappings. *)
#[local] Unset Elimination Schemes.
Inductive Value : Type :=
| VNone
| VBool (b : bool)
| VNum (q : Q)
| VStr (s : string)
| VList (l : list Value)
| VDict (d : list (string * Value)).
#[local] Set Elimination Schemes.

(** The JSON object returned by [generator.validate_content]. The fields the
    program reads are named; a field is [None] when the key is absent. A
    present [score] is a float. *)
Record Judgment : Type := {
  j_score : option Q;
  j_feedback : option string;
  j_word_count : option Value;
  j_estimated_read_time : option Value;
  j_flesch_reading_ease : option Value;
  j_gunning_fog_index : option Value;
  j_other : list (string * Value)
}.

(** A call that either returns or raises an exception with a message. *)
Inductive Outcome (A : Type) : Type :=
| Returns (a : A)
| Raises (msg : string).
Arguments Returns {A} a.
Arguments Raises {A} msg.

Definition Qlt_bool (a b : Q) : bool := negb (Qle_bool b a).

(** Insertion-ordered dictionaries with string keys, as Python's [dict]:
    assignment to a present key keeps its place, a new key goes last. *)
Module Dict.

Definition t (V : Type) : Type := list (string * V).

Fixpoint get {V} (k : string) (d : t V) : option V :=
  match d with
  | [] => None
  | (k', v) :: d' => if String.eqb k k' then Some v else get k d'
  end.

Fixpoint set {V} (k : string) (v : V) (d : t V) : t V :=
  match d with
  | [] => [(k, v)]
  | (k', v') :: d' =>
      if String.eqb k k' then (k', v) :: d' else (k', v') :: set k v d'
  end.

Definition keys {V} (d : t V) : list string := map fst d.
Definition values {V} (d : t V) : list V := map snd d.

End Dict.

(** ** agents/state.py *)

(** What the state holds under [requirements]: a mapping of its own, or the
    very mapping that it holds under [metadata]. The endpoint puts one dict
    under both keys, so that what a stage writes into the metadata shows in
    the requirements as well. *)
Inductive Requirements : Type :=
| OwnMapping (m : gmap string Value)
| MetadataMapping.

(** A timestamp field holds a [datetime] object, as the endpoint stores, or
    a JSON value, as in a state that was read back from a checkpoint. *)
Inductive Timestamp : Type :=
| Datetime (t : nat)
| Plain (v : Value).

Record ArticleState : Type := {
  (* Session and Article Info *)
  session_id : string;
  article_id : string;
  (* User Requirements *)
  topic : Value;
  author : Value;
  target_audience : Value;
  article_type : Value;
  tone : Value;
  requirements_held : Requirements;
  (* Article Content *)
  content : string;
  title : string;
  metadata : gmap string Value;
  (* Validation Scores *)
  scores : Dict.t Q;
  overall_score : Q;
  (* Validation Feedback *)
  feedback : gmap string Judgment;
  (* Retry Tracking *)
  retry_counts : gmap string nat;
  (* Control Flow *)
  needs_regeneration : bool;
  failed_nodes : list string;
  current_node : string;
  iteration : nat;
  (* Flags *)
  has_code : bool;
  has_math : bool;
  (* Status *)
  status : string;
  error : option string;
  (* Timestamps *)
  started_at : Timestamp;
  updated_at : Timestamp
}.

(** [state["requirements"]] *)
Definition requirements (s : ArticleState) : gmap string Value :=
  match requirements_held s with
  | OwnMapping m => m
  | MetadataMapping => metadata s
  end.

(** Whether [json.dumps(dict(state))] succeeds: every field holds JSON data
    except a timestamp that is a [datetime]. *)
Definition json_serializable (s : ArticleState) : bool :=
  match started_at s, updated_at s with
  | Plain _, Plain _ => true
  | _, _ => false
  end.

(** [state[key] = v] for each key the workflow assigns. *)

Definition set_content (v : string) (s : ArticleState) : ArticleState :=
  {| session_id := session_id s; article_id := article_id s; topic := topic s;
     author := author s; target_audience := target_audience s;
     article_type := article_type s; tone := tone s;
     requirements_held := requirements_held s; content := v; title := title s;
     metadata := metadata s; scores := scores s; overall_score := overall_score s;
     feedback := feedback s; retry_counts := retry_counts s;
     needs_regeneration := needs_regeneration s; failed_nodes := failed_nodes s;
     current_node := current_node s; iteration := iteration s;
     has_code := has_code s; has_math := has_math s; status := status s;
     error := error s; started_at := started_at s; updated_at := updated_at s |}.

Definition set_title (v : string) (s : ArticleState) : ArticleState :=
  {| session_id := session_id s; article_id := article_id s; topic := topic s;
     author := author s; target_audience := target_audience s;
     article_type := article_type s; tone := tone s;
     requirements_held := requirements_held s; content := content s; title := v;
     metadata := metadata s; scores := scores s; overall_score := overall_score s;
     feedback := feedback s; retry_counts := retry_counts s;
     needs_regeneration := needs_regeneration s; failed_nodes := failed_nodes s;
     current_node := current_node s; iteration := iteration s;
     has_code := has_code s; has_math := has_math s; status := status s;
     error := error s; started_at := started_at s; updated_at := updated_at s |}.

Definition set_metadata (v : gmap string Value) (s : ArticleState) : ArticleState :=
  {| session_id := session_id s; article_id := article_id s; topic := topic s;
     author := author s; target_audience := target_audience s;
     article_type := article_type s; tone := tone s;
     requirements_held := requirements_held s; content := content s; title := title s;
     metadata := v; scores := scores s; overall_score := overall_score s;
     feedback := feedback s; retry_counts := retry_counts s;
     needs_regeneration := needs_regeneration s; failed_nodes := failed_nodes s;
     current_node := current_node s; iteration := iteration s;
     has_code := has_code s; has_math := has_math s; status := status s;
     error := error s; started_at := started_at s; updated_at := updated_at s |}.

Definition set_scores (v : Dict.t Q) (s : ArticleState) : ArticleState :=
  {| session_id := session_id s; article_id := article_id s; topic := topic s;
     author := author s; target_audience := target_audience s;
     article_type := article_type s; tone := tone s;
     requirements_held := requirements_held s; content := content s; title := title s;
     metadata := metadata s; scores := v; overall_score := overall_score s;
     feedback := feedback s; retry_counts := retry_counts s;
     needs_regeneration := needs_regeneration s; failed_nodes := failed_nodes s;
     current_node := current_node s; iteration := iteration s;
     has_code := has_code s; has_math := has_math s; status := status s;
     error := error s; started_at := started_at s; updated_at := updated_at s |}.

Definition set_overall_score (v : Q) (s : ArticleState) : ArticleState :=
  {| session_id := session_id s; article_id := article_id s; topic := topic s;
     author := author s; target_audience := target_audience s;
     article_type := article_type s; tone := tone s;
     requirements_held := requirements_held s; content := content s; title := title s;
     metadata := metadata s; scores := scores s; overall_score := v;
     feedback := feedback s; retry_counts := retry_counts s;
     needs_regeneration := needs_regeneration s; failed_nodes := failed_nodes s;
     current_node := current_node s; iteration := iteration s;
     has_code := has_code s; has_math := has_math s; status := status s;
     error := error s; started_at := started_at s; updated_at := updated_at s |}.

Definition set_feedback (v : gmap string Judgment) (s : ArticleState) : ArticleState :=
  {| session_id := session_id s; article_id := article_id s; topic := topic s;
     author := author s; target_audience := target_audience s;
     article_type := article_type s; tone := tone s;
     requirements_held := requirements_held s; content := content s; title := title s;
     metadata := metadata s; scores := scores s; overall_score := overall_score s;
     feedback := v; retry_counts := retry_counts s;
     needs_regeneration := needs_regeneration s; failed_nodes := failed_nodes s;
     current_node := current_node s; iteration := iteration s;
     has_code := has_code s; has_math := has_math s; status := status s;
     error := error s; started_at := started_at s; updated_at := updated_at s |}.

Definition set_retry_counts (v : gmap string nat) (s : ArticleState) : ArticleState :=
  {| session_id := session_id s; article_id := article_id s; topic := topic s;
     author := author s; target_audience := target_audience s;
     article_type := article_type s; tone := tone s;
     requirements_held := requirements_held s; content := content s; title := title s;
     metadata := metadata s; scores := scores s; overall_score := overall_score s;
     feedback := feedback s; retry_counts := v;
     needs_regeneration := needs_regeneration s; failed_nodes := failed_nodes s;
     current_node := current_node s; iteration := iteration s;
     has_code := has_code s; has_math := has_math s; status := status s;
     error := error s; started_at := started_at s; updated_at := updated_at s |}.

Definition set_failed_nodes (v : list string) (s : ArticleState) : ArticleState :=
  {| session_id := session_id s; article_id := article_id s; topic := topic s;
     author := author s; target_audience := target_audience s;
     article_type := article_type s; tone := tone s;
     requirements_held := requirements_held s; content := content s; title := title s;
     metadata := metadata s; scores := scores s; overall_score := overall_score s;
     feedback := feedback s; retry_counts := retry_counts s;
     needs_regeneration := needs_regeneration s; failed_nodes := v;
     current_node := current_node s; iteration := iteration s;
     has_code := has_code s; has_math := has_math s; status := status s;
     error := error s; started_at := started_at s; updated_at := updated_at s |}.

Definition set_current_node (v : string) (s : ArticleState) : ArticleState :=
  {| session_id := session_id s; article_id := article_id s; topic := topic s;
     author := author s; target_audience := target_audience s;
     article_type := article_type s; tone := tone s;
     requirements_held := requirements_held s; content := content s; title := title s;
     metadata := metadata s; scores := scores s; overall_score := overall_score s;
     feedback := feedback s; retry_counts := retry_counts s;
     needs_regeneration := needs_regeneration s; failed_nodes := failed_nodes s;
     current_node := v; iteration := iteration s; has_code := has_code s;
     has_math := has_math s; status := status s; error := error s;
     started_at := started_at s; updated_at := updated_at s |}.

Definition set_iteration (v : nat) (s : ArticleState) : ArticleState :=
  {| session_id := session_id s; article_id := article_id s; topic := topic s;
     author := author s; target_audience := target_audience s;
     article_type := article_type s; tone := tone s;
     requirements_held := requirements_held s; content := content s; title := title s;
     metadata := metadata s; scores := scores s; overall_score := overall_score s;
     feedback := feedback s; retry_counts := retry_counts s;
     needs_regeneration := needs_regeneration s; failed_nodes := failed_nodes s;
     current_node := current_node s; iteration := v; has_code := has_code s;
     has_math := has_math s; status := status s; error := error s;
     started_at := started_at s; updated_at := updated_at s |}.

Definition set_has_code (v : bool) (s : ArticleState) : ArticleState :=
  {| session_id := session_id s; article_id := article_id s; topic := topic s;
     author := author s; target_audience := target_audience s;
     article_type := article_type s; tone := tone s;
     requirements_held := requirements_held s; content := content s; title := title s;
     metadata := metadata s; scores := scores s; overall_score := overall_score s;
     feedback := feedback s; retry_counts := retry_counts s;
     needs_regeneration := needs_regeneration s; failed_nodes := failed_nodes s;
     current_node := current_node s; iteration := iteration s; has_code := v;
     has_math := has_math s; status := status s; error := error s;
     started_at := started_at s; updated_at := updated_at s |}.

Definition set_has_math (v : bool) (s : ArticleState) : ArticleState :=
  {| session_id := session_id s; article_id := article_id s; topic := topic s;
     author := author s; target_audience := target_audience s;
     article_type := article_type s; tone := tone s;
     requirements_held := requirements_held s; content := content s; title := title s;
     metadata := metadata s; scores := scores s; overall_score := overall_score s;
     feedback := feedback s; retry_counts := retry_counts s;
     needs_regeneration := needs_regeneration s; failed_nodes := failed_nodes s;
     current_node := current_node s; iteration := iteration s;
     has_code := has_code s; has_math := v; status := status s; error := error s;
     started_at := started_at s; updated_at := updated_at s |}.

Definition set_status (v : string) (s : ArticleState) : ArticleState :=
  {| session_id := session_id s; article_id := article_id s; topic := topic s;
     author := author s; target_audience := target_audience s;
     article_type := article_type s; tone := tone s;
     requirements_held := requirements_held s; content := content s; title := title s;
     metadata := metadata s; scores := scores s; overall_score := overall_score s;
     feedback := feedback s; retry_counts := retry_counts s;
     needs_regeneration := needs_regeneration s; failed_nodes := failed_nodes s;
     current_node := current_node s; iteration := iteration s;
     has_code := has_code s; has_math := has_math s; status := v; error := error s;
     started_at := started_at s; updated_at := updated_at s |}.

Definition set_error (v : option string) (s : ArticleState) : ArticleState :=
  {| session_id := session_id s; article_id := article_id s; topic := topic s;
     author := author s; target_audience := target_audience s;
     article_type := article_type s; tone := tone s;
     requirements_held := requirements_held s; content := content s; title := title s;
     metadata := metadata s; scores := scores s; overall_score := overall_score s;
     feedback := feedback s; retry_counts := retry_counts s;
     needs_regeneration := needs_regeneration s; failed_nodes := failed_nodes s;
     current_node := current_node s; iteration := iteration s;
     has_code := has_code s; has_math := has_math s; status := status s;
     error := v; started_at := started_at s; updated_at := updated_at s |}.

(** [state["retry_counts"].get(node, 0)] *)
Definition retry_count (node : string) (s : ArticleState) : nat :=
  default 0 (retry_counts s !! node).

(** ** database/models.py and database/operations.py

    Tables are lists of rows in insertion order. Row ids and the
    [created_at] / [timestamp] column defaults are left out; [updated_at],
    [started_at] and [completed_at], which the operations assign, are kept. *)

Record Article : Type := {
  a_id : string;
  a_session_id : string;
  a_title : string;
  a_content : string;
  a_author : string;
  a_article_metadata : gmap string Value;
  a_status : string;
  a_overall_score : Q;
  a_updated_at : option nat
}.

Record ArticleVersion : Type := {
  v_article_id : string;
  version_number : nat;
  v_content : string;
  v_scores : Dict.t Q;
  v_node_name : string
}.

Record ValidationLog : Type := {
  l_article_id : string;
  l_node_name : string;
  l_score : Q;
  l_feedback : Judgment;
  l_retry_count : nat;
  l_status : string
}.

Record ArticleQueue : Type := {
  q_session_id : string;
  position : nat;
  q_status : string;
  q_started_at : option nat;
  q_completed_at : option nat
}.

Record Checkpoint : Type := {
  c_id : string;
  c_article_id : string;
  c_node_name : string;
  state_data : ArticleState
}.

Record Database : Type := {
  articles : list Article;
  article_versions : list ArticleVersion;
  validation_logs : list ValidationLog;
  article_queue : list ArticleQueue;
  checkpoints : list Checkpoint
}.

Definition empty_db : Database :=
  {| articles := []; article_versions := []; validation_logs := [];
     article_queue := []; checkpoints := [] |}.

Module db_ops.

Definition with_articles (v : list Article) (d : Database) : Database :=
  {| articles := v; article_versions := article_versions d;
     validation_logs := validation_logs d; article_queue := article_queue d;
     checkpoints := checkpoints d |}.
Definition with_versions (v : list ArticleVersion) (d : Database) : Database :=
  {| articles := articles d; article_versions := v;
     validation_logs := validation_logs d; article_queue := article_queue d;
     checkpoints := checkpoints d |}.
Definition with_logs (v : list ValidationLog) (d : Database) : Database :=
  {| articles := articles d; article_versions := article_versions d;
     validation_logs := v; article_queue := article_queue d;
     checkpoints := checkpoints d |}.
Definition with_queue (v : list ArticleQueue) (d : Database) : Database :=
  {| articles := articles d; article_versions := article_versions d;
     validation_logs := validation_logs d; article_queue := v;
     checkpoints := checkpoints d |}.
Definition with_checkpoints (v : list Checkpoint) (d : Database) : Database :=
  {| articles := articles d; article_versions := article_versions d;
     validation_logs := validation_logs d; article_queue := article_queue d;
     checkpoints := v |}.

(** *** Article operations *)

(** The primary key makes a second insert of the same id fail. *)
Definition create_article (article_id session_id title author : string)
  (metadata : gmap string Value) (d : Database) : Outcome Database :=
  if existsb (fun a => String.eqb (a_id a) article_id) (articles d)
  then Raises "IntegrityError"
  else Returns (with_articles
         (articles d ++
            [{| a_id := article_id; a_session_id := session_id; a_title := title;
                a_content := EmptyString; a_author := author;
                a_article_metadata := metadata; a_status := "processing";
                a_overall_score := 0; a_updated_at := None |}]) d).

Definition update_row (content : option string) (status : option string)
  (score : option Q) (now : nat) (a : Article) : Article :=
  {| a_id := a_id a; a_session_id := a_session_id a; a_title := a_title a;
     a_content := default (a_content a) content; a_author := a_author a;
     a_article_metadata := a_article_metadata a;
     a_status := default (a_status a) status;
     a_overall_score := default (a_overall_score a) score;
     a_updated_at := Some now |}.

(** Updates the first row with the given id, when there is one. *)
Fixpoint update_first {A} (p : A -> bool) (f : A -> A) (l : list A) : list A :=
  match l with
  | [] => []
  | x :: l' => if p x then f x :: l' else x :: update_first p f l'
  end.

Definition update_article (article_id : string) (content : option string)
  (status : option string) (score : option Q) (now : nat) (d : Database)
  : Database :=
  with_articles
    (update_first (fun a => String.eqb (a_id a) article_id)
       (update_row content status score now) (articles d)) d.

Definition get_article (article_id : string) (d : Database) : option Article :=
  find (fun a => String.eqb (a_id a) article_id) (articles d).

(** *** Version operations *)

Definition versions_of (article_id : string) (d : Database)
  : list ArticleVersion :=
  List.filter (fun v => String.eqb (v_article_id v) article_id) (article_versions d).

Definition create_version (article_id content : string) (scores : Dict.t Q)
  (node_name : string) (d : Database) : Database :=
  let version_count := length (versions_of article_id d) in
  with_versions
    (article_versions d ++
       [{| v_article_id := article_id; version_number := version_count + 1;
           v_content := content; v_scores := scores; v_node_name := node_name |}])
    d.

(** *** Validation log operations *)

Definition add_validation_log (article_id node_name : string) (score : Q)
  (feedback : Judgment) (retry_count : nat) (status : string) (d : Database)
  : Database :=
  with_logs
    (validation_logs d ++
       [{| l_article_id := article_id; l_node_name := node_name;
           l_score := score; l_feedback := feedback;
           l_retry_count := retry_count; l_status := status |}]) d.

(** *** Queue operations *)

Definition queued (q : ArticleQueue) : bool := String.eqb (q_status q) "queued".

(** [session_id] is a unique column: a second row for the same session
    fails at commit and nothing is inserted. *)
Definition add_to_queue (session_id : string) (d : Database)
  : Outcome (nat * Database) :=
  let position := length (List.filter queued (article_queue d)) + 1 in
  if existsb (fun q => String.eqb (q_session_id q) session_id) (article_queue d)
  then Raises "IntegrityError"
  else Returns (position,
         with_queue
           (article_queue d ++
              [{| q_session_id := session_id; position := position;
                  q_status := "queued"; q_started_at := None;
                  q_completed_at := None |}]) d).

Definition set_queue_status (status : string) (now : nat) (q : ArticleQueue)
  : ArticleQueue :=
  {| q_session_id := q_session_id q; position := position q;
     q_status := status;
     q_started_at :=
       if String.eqb status "processing" then Some now else q_started_at q;
     q_completed_at :=
       if String.eqb status "processing" then q_completed_at q
       else if String.eqb status "completed" then Some now
       else q_completed_at q |}.

Definition update_queue_status (session_id status : string) (now : nat)
  (d : Database) : Database :=
  with_queue
    (update_first (fun q => String.eqb (q_session_id q) session_id)
       (set_queue_status status now) (article_queue d)) d.

Definition get_queue_position (session_id : string) (d : Database)
  : option nat :=
  position <$>
    find (fun q => String.eqb (q_session_id q) session_id) (article_queue d).

Definition get_processing_count (d : Database) : nat :=
  length (List.filter (fun q => String.eqb (q_status q) "processing")
            (article_queue d)).

(** *** Checkpoint operations *)

(** [state_data] goes into a JSON column: a state that [json.dumps] rejects
    makes the insert fail before it reaches the table, and the primary key
    makes a second insert of the same id fail. Nothing is stored then. The
    messages stand for the text of the exception that is raised. *)
Definition save_checkpoint (checkpoint_id article_id node_name : string)
  (state_data : ArticleState) (d : Database) : Outcome Database :=
  if negb (json_serializable state_data)
  then Raises "Object of type datetime is not JSON serializable"
  else if existsb (fun c => String.eqb (c_id c) checkpoint_id) (checkpoints d)
  then Raises "IntegrityError"
  else Returns (with_checkpoints
         (checkpoints d ++
            [{| c_id := checkpoint_id; c_article_id := article_id;
                c_node_name := node_name; state_data := state_data |}]) d).

Definition get_checkpoint (checkpoint_id : string) (d : Database)
  : option Checkpoint :=
  find (fun c => String.eqb (c_id c) checkpoint_id) (checkpoints d).

End db_ops.

(** ** The external collaborators and the world the workflow runs in *)

(** One request made to the language model (agents/generator.py). *)
Inductive AdapterCall : Type :=
| CallGenerate (requirements : gmap string Value)
| CallRegenerate (node_name feedback current_content : string)
| CallValidate (validator_type content : string) (metadata : gmap string Value).

(** The language model. Its answers may depend on everything asked before,
    which each method receives as its first argument. The streaming methods
    return the whole token list, or raise. *)
Record Generator : Type := {
  generate_article :
    list AdapterCall -> gmap string Value -> Outcome (list string);
  regenerate_content :
    list AdapterCall -> string -> string -> string -> Outcome (list string);
  validate_content :
    list AdapterCall -> string -> string -> gmap string Value -> Outcome Judgment
}.

Record World : Type := {
  db : Database;
  calls : list AdapterCall;   (* requests sent to the language model so far *)
  uuids : nat;                (* how many uuid4 values were drawn *)
  now : nat                   (* what [datetime.utcnow()] returns *)
}.

Definition with_db (d : Database) (w : World) : World :=
  {| db := d; calls := calls w; uuids := uuids w; now := now w |}.
Definition with_call (c : AdapterCall) (w : World) : World :=
  {| db := db w; calls := calls w ++ [c]; uuids := uuids w; now := now w |}.
Definition with_uuid_drawn (w : World) : World :=
  {| db := db w; calls := calls w; uuids := S (uuids w); now := now w |}.

Definition on_db (f : Database -> Database) (w : World) : World :=
  with_db (f (db w)) w.

(** ** validators/*.py *)

Module validators.

Section Stages.

Variable generator : Generator.

(** The body shared by the eight stages: ask for a judgment, record score
    and feedback, log, and account for a score below the threshold.
    [label] is the capitalised stage name of the error message and
    [enrich] the stage's own metadata update. *)
Definition judged_stage (name label : string)
  (enrich : Judgment -> ArticleState -> ArticleState)
  (s : ArticleState) (w : World) : ArticleState * World :=
  let w1 := with_call (CallValidate name (content s) (metadata s)) w in
  match validate_content generator (calls w) name (content s) (metadata s) with
  | Raises msg => (set_error (Some msg) (set_status "error" s), w1)
  | Returns result =>
      let score := default 0%Q (j_score result) in
      let s1 := set_scores (Dict.set name score (scores s)) s in
      let s2 := set_feedback (<[name := result]> (feedback s1)) s1 in
      let s3 := enrich result s2 in
      let w2 :=
        on_db (db_ops.add_validation_log (article_id s3) name score result
                 (retry_count name s3)
                 (if Qle_bool settings.MIN_SCORE_THRESHOLD score
                  then "passed" else "failed")) w1 in
      if Qlt_bool score settings.MIN_SCORE_THRESHOLD then
        let s4 := set_failed_nodes (failed_nodes s3 ++ [name]) s3 in
        let s5 :=
          set_retry_counts (<[name := retry_count name s4 + 1]> (retry_counts s4))
            s4 in
        if settings.MAX_RETRIES <=? retry_count name s5 then
          (set_error
             (Some (label +:+ " validation failed after "
                      +:+ Py.str_of_nat settings.MAX_RETRIES +:+ " retries"))
             (set_status "failed" s5), w2)
        else (s5, w2)
      else (s3, w2)
  end.

Definition no_enrichment : Judgment -> ArticleState -> ArticleState :=
  fun _ s => s.

Definition validate_structure := judged_stage "structure" "Structure" no_enrichment.
Definition validate_language := judged_stage "language" "Language" no_enrichment.
Definition validate_grammar := judged_stage "grammar" "Grammar" no_enrichment.

(** length: word count and reading time go into the metadata. *)
Definition length_enrichment (result : Judgment) (s : ArticleState)
  : ArticleState :=
  let m1 :=
    <["word_count" := default (VNum 0) (j_word_count result)]> (metadata s) in
  let m2 :=
    <["read_time" := default (VStr "N/A") (j_estimated_read_time result)]> m1 in
  set_metadata m2 s.

Definition validate_length := judged_stage "length" "Length" length_enrichment.

Definition validate_depth := judged_stage "depth" "Depth" no_enrichment.

(** readability: the two indices go into the metadata. *)
Definition readability_enrichment (result : Judgment) (s : ArticleState)
  : ArticleState :=
  let m1 :=
    <["flesch_reading_ease" := default (VNum 0) (j_flesch_reading_ease result)]>
      (metadata s) in
  let m2 :=
    <["gunning_fog_index" := default (VNum 0) (j_gunning_fog_index result)]> m1 in
  set_metadata m2 s.

Definition validate_readability :=
  judged_stage "readability" "Readability" readability_enrichment.

(** [r'\$.*?\$'] *)
Definition math_pattern : Re.pattern :=
  [Re.Lit Py.dollar; Re.Rep false 0 Re.dot false; Re.Lit Py.dollar].

Definition check_has_math (content : string) : bool :=
  match Re.search math_pattern content with Some _ => true | None => false end.

Definition not_applicable (text : string) : Judgment :=
  {| j_score := Some 10%Q; j_feedback := Some text; j_word_count := None;
     j_estimated_read_time := None; j_flesch_reading_ease := None;
     j_gunning_fog_index := None; j_other := [] |}.

Definition validate_math (s : ArticleState) (w : World) : ArticleState * World :=
  let has_math := check_has_math (content s) in
  let s1 := set_has_math has_math s in
  if negb has_math then
    let s2 := set_scores (Dict.set "math" 10%Q (scores s1)) s1 in
    let s3 :=
      set_feedback
        (<["math" := not_applicable "No mathematical content to validate"]>
           (feedback s2)) s2 in
    (s3, w)
  else judged_stage "math" "Math" no_enrichment s1 w.

Definition backtick : ascii := ascii_of_nat 96.

(** [r'```[\s\S]*?```'] *)
Definition code_pattern : Re.pattern :=
  [Re.Lit backtick; Re.Lit backtick; Re.Lit backtick;
   Re.Rep false 0 Re.any_char false;
   Re.Lit backtick; Re.Lit backtick; Re.Lit backtick].

Definition check_has_code (content : string) : bool :=
  match Re.search code_pattern content with Some _ => true | None => false end.

Definition validate_code (s : ArticleState) (w : World) : ArticleState * World :=
  let has_code := check_has_code (content s) in
  let s1 := set_has_code has_code s in
  if negb has_code then
    let s2 := set_scores (Dict.set "code" 10%Q (scores s1)) s1 in
    let s3 :=
      set_feedback
        (<["code" := not_applicable "No code blocks to validate"]> (feedback s2))
        s2 in
    (s3, w)
  else judged_stage "code" "Code" no_enrichment s1 w.

End Stages.

End validators.

(** ** agents/graph.py *)

Module ArticleWorkflow.

Inductive Route : Type := regenerate | finalize.

(** [sum(scores.values()) / len(scores) if scores else 0.0]: [sum] adds the
    floats from left to right, starting from 0, and each addition rounds, as
    does the division. (This is [sum] as CPython has it up to version 3.11;
    from 3.12 on it carries a correction term through the additions.) *)
Definition mean_score (scores : Dict.t Q) : Q :=
  match scores with
  | [] => 0%Q
  | _ =>
      Float64.div (fold_left Float64.add (Dict.values scores) 0%Q)
        (Float64.of_int (Z.of_nat (length scores)))
  end.

(** [min(scores, key=scores.get)]: the first key whose score is smallest. *)
Definition score_of (scores : Dict.t Q) (k : string) : Q :=
  default 0%Q (Dict.get k scores).

Definition min_node (scores : Dict.t Q) : option string :=
  match Dict.keys scores with
  | [] => None
  | k0 :: ks =>
      Some (fold_left
              (fun best k =>
                 if Qlt_bool (score_of scores k) (score_of scores best)
                 then k else best)
              ks k0)
  end.

Definition max_retries_reached (s : ArticleState) : bool :=
  existsb (fun node => settings.MAX_RETRIES <=? retry_count node s)
          (failed_nodes s).

(** The routing decision together with the state it leaves behind: the
    policy appends to [failed_nodes] in one of its branches. *)
Definition should_regenerate (s : ArticleState) : Route * ArticleState :=
  match failed_nodes s with
  | _ :: _ =>
      if max_retries_reached s then (finalize, s) else (regenerate, s)
  | [] =>
      let overall_score := mean_score (scores s) in
      if Qlt_bool overall_score settings.PUBLISH_THRESHOLD then
        match min_node (scores s) with
        | Some lowest_node =>
            if Qlt_bool (score_of (scores s) lowest_node)
                        settings.MIN_SCORE_THRESHOLD
            then (regenerate, set_failed_nodes (failed_nodes s ++ [lowest_node]) s)
            else (finalize, s)
        | None => (finalize, s)
        end
      else (finalize, s)
  end.

(** [r'^#\s+(.+)$'] with re.MULTILINE *)
Definition hash : ascii := ascii_of_nat 35.
Definition title_pattern : Re.pattern :=
  [Re.Bol; Re.Lit hash; Re.Rep true 1 Re.space false; Re.Rep true 1 Re.dot true;
   Re.Eol].

Fixpoint take (n : nat) (s : string) : string :=
  match n, s with
  | S k, String c r => String c (take k r)
  | _, _ => EmptyString
  end.

(** Keys of a dict comprehension over [l]: each name once, first come first. *)
Fixpoint unique_first (seen l : list string) : list string :=
  match l with
  | [] => []
  | x :: l' =>
      if existsb (String.eqb x) seen then unique_first seen l'
      else x :: unique_first (x :: seen) l'
  end.

Section Nodes.

Variable generator : Generator.
(** [uuid4_hex n]: the hex digits of the n-th uuid drawn. *)
Variable uuid4_hex : nat -> string.
Variable latex_to_image : string -> string -> bool -> bool.

(** [state["status"] = "error"; state["error"] = str(e)]: what the handler
    of a node does with an exception it catches. *)
Definition caught (msg : string) (s : ArticleState) : ArticleState :=
  set_error (Some msg) (set_status "error" s).

(** The end of the [try] block of [generate_node] and [regenerate_node]:
    draw the checkpoint id, save [dict(state)] under it and return the
    state. When the save raises, the handler of the node catches it; the id
    has been drawn and the version written before it stays. *)
Definition save_checkpoint_of (node_name : string) (s : ArticleState)
  (w : World) : ArticleState * World :=
  let checkpoint_id :=
    article_id s +:+ "_" +:+ node_name +:+ "_" +:+ take 8 (uuid4_hex (uuids w)) in
  let w1 := with_uuid_drawn w in
  match db_ops.save_checkpoint checkpoint_id (article_id s) node_name s (db w1) with
  | Returns d => (s, with_db d w1)
  | Raises msg => (caught msg s, w1)
  end.

Definition generate_node (s : ArticleState) (w : World) : ArticleState * World :=
  let s0 := set_current_node "generate" s in
  let w1 := with_call (CallGenerate (requirements s0)) w in
  match generate_article generator (calls w) (requirements s0) with
  | Raises msg => (caught msg s0, w1)
  | Returns content_parts =>
      let s1 := set_content (String.concat EmptyString content_parts) s0 in
      let s2 :=
        match Re.search title_pattern (content s1) with
        | Some title_match => set_title (Re.group1 title_match) s1
        | None => s1
        end in
      let w2 :=
        on_db (db_ops.create_version (article_id s2) (content s2) [] "generate")
              w1 in
      save_checkpoint_of "generate" s2 w2
  end.

Definition feedback_line (s : ArticleState) (node : string) : string :=
  node +:+ ": " +:+
    default "No feedback" (feedback s !! node ≫= j_feedback).

(** The feedback of the failed nodes, one line per node. *)
Definition feedback_text_of (s : ArticleState) : string :=
  String.concat (String Py.newline EmptyString)
    (map (feedback_line s) (unique_first [] (failed_nodes s))).

(** [", ".join(state["failed_nodes"])] *)
Definition node_names_of (s : ArticleState) : string :=
  String.concat ", " (failed_nodes s).

Definition regenerate_node (s : ArticleState) (w : World)
  : ArticleState * World :=
  let s0 := set_iteration (iteration s + 1) (set_current_node "regenerate" s) in
  let feedback_text := feedback_text_of s0 in
  let node_names := node_names_of s0 in
  let w1 := with_call (CallRegenerate node_names feedback_text (content s0)) w in
  match regenerate_content generator (calls w) node_names feedback_text
          (content s0) with
  | Raises msg => (caught msg s0, w1)
  | Returns content_parts =>
      let s1 := set_content (String.concat EmptyString content_parts) s0 in
      let s2 := set_failed_nodes [] s1 in
      let w2 :=
        on_db (db_ops.create_version (article_id s2) (content s2) (scores s2)
                 "regenerate") w1 in
      save_checkpoint_of "regenerate" s2 w2
  end.

Definition finalize_node (s : ArticleState) (w : World) : ArticleState * World :=
  let s0 := set_current_node "finalize" s in
  let s1 :=
    if has_math s0 then
      set_content
        (fst (LaTeXHandler.process_article_equations latex_to_image
                (content s0) (article_id s0))) s0
    else s0 in
  let overall_score := mean_score (scores s1) in
  let s2 := set_overall_score overall_score s1 in
  let w1 :=
    on_db (db_ops.update_article (article_id s2) (Some (content s2))
             (Some "completed") (Some overall_score) (now w)) w in
  (set_status "completed" s2, w1).

(** *** The compiled graph *)

Inductive Node : Type :=
| n_generate
| n_validate_structure | n_validate_language | n_validate_grammar | n_validate_length
| n_validate_math | n_validate_depth | n_validate_readability | n_validate_code
| n_decide       (* the conditional edge leaving validate_code *)
| n_regenerate   (* the node named "regenerate" *)
| n_finalize     (* the node named "finalize" *)
| END.

(** One step: run the node and follow its outgoing edge. *)
Definition step (n : Node) (s : ArticleState) (w : World)
  : Node * ArticleState * World :=
  let go (next : Node) (r : ArticleState * World) := (next, r.1, r.2) in
  match n with
  | n_generate => go n_validate_structure (generate_node s w)
  | n_validate_structure =>
      go n_validate_language (validators.validate_structure generator s w)
  | n_validate_language =>
      go n_validate_grammar (validators.validate_language generator s w)
  | n_validate_grammar =>
      go n_validate_length (validators.validate_grammar generator s w)
  | n_validate_length =>
      go n_validate_math (validators.validate_length generator s w)
  | n_validate_math =>
      go n_validate_depth (validators.validate_math generator s w)
  | n_validate_depth =>
      go n_validate_readability (validators.validate_depth generator s w)
  | n_validate_readability =>
      go n_validate_code (validators.validate_readability generator s w)
  | n_validate_code => go n_decide (validators.validate_code generator s w)
  | n_decide =>
      match should_regenerate s with
      | (regenerate, s') => (n_regenerate, s', w)
      | (finalize, s') => (n_finalize, s', w)
      end
  | n_regenerate => go n_validate_structure (regenerate_node s w)
  | n_finalize => go END (finalize_node s w)
  | END => (END, s, w)
  end.

(** [steps k n s w]: the configuration after at most [k] steps from node
    [n]; the workflow has ended when the node is [END]. *)
Fixpoint steps (k : nat) (n : Node) (s : ArticleState) (w : World)
  : Node * ArticleState * World :=
  match k with
  | O => (n, s, w)
  | S k' =>
      match n with
      | END => (END, s, w)
      | _ => let r := step n s w in steps k' r.1.1 r.1.2 r.2
      end
  end.

(** [workflow.ainvoke(initial_state)]: from the entry point, [None] when
    [k] steps do not reach [END]. *)
Definition run (k : nat) (initial_state : ArticleState) (w : World)
  : option (ArticleState * World) :=
  match steps k n_generate initial_state w with
  | (END, s, w') => Some (s, w')
  | _ => None
  end.

End Nodes.

End ArticleWorkflow.

(** ** api/routes.py *)

Module routes.

(** [request.requirements.get(key, fallback)] *)
Definition get_or (requirements : gmap string Value) (key fallback : string)
  : Value :=
  default (VStr fallback) (requirements !! key).

(** The state built by [generate_article_endpoint]: the request's
    requirements are put under [requirements] and [metadata] as one and the
    same mapping, and the timestamps are [datetime] objects. *)
Definition initial_state (session article : string)
  (requirements : gmap string Value) (utcnow : nat) : ArticleState :=
  {| session_id := session; article_id := article;
     topic := get_or requirements "topic" EmptyString;
     author := get_or requirements "author" EmptyString;
     target_audience := get_or requirements "target_audience" "mixed";
     article_type := get_or requirements "article_type" "educational";
     tone := get_or requirements "tone" "conversational";
     requirements_held := MetadataMapping;
     content := EmptyString; title := EmptyString; metadata := requirements;
     scores := []; overall_score := 0; feedback := ∅; retry_counts := ∅;
     needs_regeneration := false; failed_nodes := []; current_node := EmptyString;
     iteration := 0; has_code := false; has_math := false;
     status := "processing"; error := None;
     started_at := Datetime utcnow; updated_at := Datetime utcnow |}.

(** *** POST /time-travel

    The checkpoint's [state_data] is the JSON object stored with it, a
    mapping from field names to values. *)

Record TimeTravel : Type := {
  tt_article_id : string;
  tt_checkpoint_id : string;
  modifications : Dict.t Value
}.

Inductive TimeTravelResult : Type :=
| NotFound                      (* HTTPException(404, "Checkpoint not found") *)
| Rerun (new_article_id : string) (state : gmap string Value).
    (* the state handed to [workflow_manager.run] *)

(** [for key, value in request.modifications.items(): if key in state: ...] *)
Definition apply_modifications (mods : Dict.t Value) (state : gmap string Value)
  : gmap string Value :=
  fold_left
    (fun st kv => if decide (is_Some (st !! kv.1)) then <[kv.1 := kv.2]> st else st)
    mods state.

Section TimeTravelRoute.

(** [db_ops.get_checkpoint(id)], reduced to the stored state. *)
Variable get_checkpoint : string -> option (gmap string Value).
(** The hex digits of the uuid drawn by this request. *)
Variable uuid4_hex : string.

Definition time_travel (request : TimeTravel) : TimeTravelResult :=
  match get_checkpoint (tt_checkpoint_id request) with
  | None => NotFound
  | Some state =>
      let state1 := apply_modifications (modifications request) state in
      let new_article_id := "article_" +:+ ArticleWorkflow.take 12 uuid4_hex in
      Rerun new_article_id (<["article_id" := VStr new_article_id]> state1)
  end.

End TimeTravelRoute.

End routes.

(** ** Concrete collaborators used in the examples *)

Module Scenarios.

Definition judgment (score : Q) : Judgment :=
  {| j_score := Some score; j_feedback := Some "see notes"; j_word_count := None;
     j_estimated_read_time := None; j_flesch_reading_ease := None;
     j_gunning_fog_index := None; j_other := [] |}.

Definition draft : list string :=
  ["# Demo Article" +:+ String Py.newline EmptyString; "Content body"].

(** A language model that fails on every request. *)
Definition silent : Generator :=
  {| generate_article := fun _ _ => Raises "unavailable";
     regenerate_content := fun _ _ _ _ => Raises "unavailable";
     validate_content := fun _ _ _ _ => Raises "unavailable" |}.

(** Every stage is judged 9.2. *)
Definition steady : Generator :=
  {| generate_article := fun _ _ => Returns draft;
     regenerate_content := fun _ _ _ _ => Returns ["Regenerated content"];
     validate_content := fun _ _ _ _ => Returns (judgment (92 # 10)) |}.

(** Grammar is judged 5.0 on every pass, the other stages 9.2. *)
Definition weak_grammar : Generator :=
  {| generate_article := fun _ _ => Returns draft;
     regenerate_content := fun _ _ _ _ => Returns ["Regenerated content"];
     validate_content := fun _ validator_type _ _ =>
       if String.eqb validator_type "grammar" then Returns (judgment 5)
       else Returns (judgment (92 # 10)) |}.

(** The request for the structure judgment fails, the other stages get 9.2. *)
Definition broken_structure : Generator :=
  {| generate_article := fun _ _ => Returns draft;
     regenerate_content := fun _ _ _ _ => Returns ["Regenerated content"];
     validate_content := fun _ validator_type _ _ =>
       if String.eqb validator_type "structure" then Raises "timeout"
       else Returns (judgment (92 # 10)) |}.

Definition is_regeneration (c : AdapterCall) : bool :=
  match c with CallRegenerate _ _ _ => true | _ => false end.

(** Grammar is judged 5.0 on the first draft and its request fails once the
    draft has been regenerated; the other stages get 8.0. *)
Definition flaky_grammar : Generator :=
  {| generate_article := fun _ _ => Returns draft;
     regenerate_content := fun _ _ _ _ => Returns ["Regenerated content"];
     validate_content := fun earlier validator_type _ _ =>
       if String.eqb validator_type "grammar" then
         if existsb is_regeneration earlier then Raises "timeout"
         else Returns (judgment 5)
       else Returns (judgment 8) |}.

(** The first draft holds an equation and gets 5.0 for grammar; the
    regenerated draft holds none and every stage gets 9.2. *)
Definition equations_then_prose : Generator :=
  {| generate_article := fun _ _ => Returns ["# Mass" +:+ String Py.newline EmptyString;
                                             "Einstein wrote $E=mc^2$."];
     regenerate_content := fun _ _ _ _ => Returns ["Prices rose by 5% last year."];
     validate_content := fun earlier validator_type _ _ =>
       if String.eqb validator_type "grammar" && negb (existsb is_regeneration earlier)
       then Returns (judgment 5)
       else Returns (judgment (92 # 10)) |}.

(** What a request asked for: generate, regenerate, or the stage judged. *)
Definition call_label (c : AdapterCall) : string :=
  match c with
  | CallGenerate _ => "generate"
  | CallRegenerate _ _ _ => "regenerate"
  | CallValidate validator_type _ _ => validator_type
  end.

Definition uuid4_hex : nat -> string := fun _ => "3f9c1d2e4b7a49d08e5f6a1b2c3d4e5f".
Definition latex_to_image : string -> string -> bool -> bool := fun _ _ _ => true.

(** The state and the world at the start of a run, as the
    [generate_article_endpoint] route sets them up. *)
Definition state0 : ArticleState :=
  routes.initial_state "session" "article_3f9c1d2e4b7a" ∅ 0.

(** The same state as it is after a round trip through JSON: the timestamps
    are strings. *)
Definition reloaded0 : ArticleState :=
  {| session_id := session_id state0; article_id := article_id state0;
     topic := topic state0; author := author state0;
     target_audience := target_audience state0;
     article_type := article_type state0; tone := tone state0;
     requirements_held := requirements_held state0;
     content := content state0; title := title state0;
     metadata := metadata state0; scores := scores state0;
     overall_score := overall_score state0; feedback := feedback state0;
     retry_counts := retry_counts state0;
     needs_regeneration := needs_regeneration state0;
     failed_nodes := failed_nodes state0; current_node := current_node state0;
     iteration := iteration state0; has_code := has_code state0;
     has_math := has_math state0; status := status state0;
     error := error state0;
     started_at := Plain (VStr "2024-05-01T10:00:00");
     updated_at := Plain (VStr "2024-05-01T10:00:00") |}.

Definition world0 : World :=
  {| db :=
       match db_ops.create_article "article_3f9c1d2e4b7a" "session" "Untitled"
               "Anonymous" ∅ empty_db with
       | Returns d => d
       | Raises _ => empty_db
       end;
     calls := []; uuids := 0; now := 0 |}.

End Scenarios.

(** * Properties *)

(** ** Saving a checkpoint *)

Module CheckpointSave.
Import db_ops ArticleWorkflow.

(** A save that returns has added one row to the checkpoint table and
    touched no other table; the state was serialisable and the id new. *)
Lemma save_checkpoint_returns (checkpoint_id article_id node_name : string)
  (data : ArticleState) (d d' : Database) :
  save_checkpoint checkpoint_id article_id node_name data d = Returns d' ->
  json_serializable data = true
  /\ get_checkpoint checkpoint_id d = None
  /\ articles d' = articles d
  /\ article_versions d' = article_versions d
  /\ validation_logs d' = validation_logs d
  /\ article_queue d' = article_queue d
  /\ checkpoints d'
     = checkpoints d
       ++ [{| c_id := checkpoint_id; c_article_id := article_id;
              c_node_name := node_name; state_data := data |}].
Proof.
  unfold save_checkpoint, get_checkpoint.
  destruct (json_serializable data); [|done]. cbn [negb].
  destruct (existsb _ _) eqn:E; [done|]. intros [= <-].
  split; [done|]. split; [|done].
  induction (checkpoints d) as [|c l IH]; [done|]. simpl in *.
  destruct (String.eqb (c_id c) checkpoint_id); [done|]. by apply IH.
Qed.

Lemma save_checkpoint_raises (checkpoint_id article_id node_name : string)
  (data : ArticleState) (d : Database) :
  json_serializable data = false ->
  exists msg,
    save_checkpoint checkpoint_id article_id node_name data d = Raises msg.
Proof. unfold save_checkpoint. intros ->. by eexists. Qed.

Section Nodes.

Variable uuid4_hex : nat -> string.

(** The end of a [try] block, case by case. *)
Lemma save_checkpoint_of_cases (node_name : string) (s : ArticleState)
  (w : World) :
  let checkpoint_id :=
    article_id s +:+ "_" +:+ node_name +:+ "_" +:+ take 8 (uuid4_hex (uuids w)) in
  save_checkpoint_of uuid4_hex node_name s w
  = if json_serializable s then
      match get_checkpoint checkpoint_id (db w) with
      | None =>
          (s, with_db
                (with_checkpoints
                   (checkpoints (db w)
                      ++ [{| c_id := checkpoint_id; c_article_id := article_id s;
                             c_node_name := node_name; state_data := s |}])
                   (db w))
                (with_uuid_drawn w))
      | Some _ => (caught "IntegrityError" s, with_uuid_drawn w)
      end
    else (caught "Object of type datetime is not JSON serializable" s,
          with_uuid_drawn w).
Proof.
  cbv zeta. unfold save_checkpoint_of, save_checkpoint, get_checkpoint.
  cbv zeta. cbn [db with_uuid_drawn].
  destruct (json_serializable s); [|done]. cbn [negb].
  induction (checkpoints (db w)) as [|c l IH] at 1 3; [done|]. simpl.
  destruct (String.eqb (c_id c) _); [done|]. exact IH.
Qed.

(** The end of a [try] block: the state comes back as it is or with the
    error of the save, one uuid is drawn, and the database changes by the
    saved checkpoint at most. *)
Lemma save_checkpoint_of_effect (node_name : string) (s : ArticleState)
  (w : World) :
  let r := save_checkpoint_of uuid4_hex node_name s w in
  let row :=
    {| c_id := article_id s +:+ "_" +:+ node_name +:+ "_"
                 +:+ take 8 (uuid4_hex (uuids w));
       c_article_id := article_id s; c_node_name := node_name;
       state_data := s |} in
  ((r.1 = s /\ json_serializable s = true
    /\ checkpoints (db r.2) = checkpoints (db w) ++ [row])
   \/ (exists msg, r.1 = caught msg s /\ checkpoints (db r.2) = checkpoints (db w)))
  /\ (json_serializable s = false -> exists msg, r.1 = caught msg s)
  /\ articles (db r.2) = articles (db w)
  /\ article_versions (db r.2) = article_versions (db w)
  /\ validation_logs (db r.2) = validation_logs (db w)
  /\ article_queue (db r.2) = article_queue (db w)
  /\ calls r.2 = calls w /\ uuids r.2 = S (uuids w) /\ now r.2 = now w.
Proof.
  cbv zeta. unfold save_checkpoint_of. cbv zeta.
  destruct (save_checkpoint _ _ _ _ _) as [d|msg] eqn:E.
  - apply save_checkpoint_returns in E as (Hj & _ & Ha & Hv & Hl & Hq & Hc).
    cbn [fst snd db with_db calls uuids now with_uuid_drawn] in *.
    split; [by left|]. split; [intros H; congruence|]. done.
  - cbn [fst snd db with_db calls uuids now with_uuid_drawn].
    split; [right; by exists msg|]. split; [intros _; by exists msg|]. done.
Qed.

End Nodes.

End CheckpointSave.

(** Name the state and the world that the end of a [try] block hands on,
    with what [save_checkpoint_of_effect] says about them. *)
Ltac checkpoint_effect H :=
  match goal with
  | |- context [ArticleWorkflow.save_checkpoint_of ?u ?n ?s ?w] =>
      pose proof (CheckpointSave.save_checkpoint_of_effect u n s w) as H;
      cbv zeta in H;
      let handed := fresh "handed" in
      let world := fresh "world" in
      destruct (ArticleWorkflow.save_checkpoint_of u n s w) as [handed world];
      cbn [fst snd] in H; cbn [fst snd]
  end.


(** ** The admission queue (database/operations.py) *)

Module QueueFacts.
Import db_ops.

Lemma update_first_positions p status now (l : list ArticleQueue) :
  map position (update_first p (set_queue_status status now) l) = map position l.
Proof.
  induction l as [|q l IH]; simpl; [reflexivity|].
  destruct (p q); simpl; [reflexivity|]. by rewrite IH.
Qed.

Lemma update_first_sessions p status now (l : list ArticleQueue) :
  map q_session_id (update_first p (set_queue_status status now) l)
  = map q_session_id l.
Proof.
  induction l as [|q l IH]; simpl; [reflexivity|].
  destruct (p q); simpl; [reflexivity|]. by rewrite IH.
Qed.

Lemma eqb_neq (a b : string) : a <> b -> String.eqb a b = false.
Proof. intros H. by apply String.eqb_neq. Qed.

(** C10. [add_to_queue] gives the new row the position (number of rows now
    in status 'queued') + 1; [update_queue_status] changes no position and
    no session id; hence positions are not unique: from an empty queue,
    enqueue a and b (positions 1 and 2), move a to 'processing', enqueue c:
    c gets position 2, which the still queued b also holds. *)
Theorem queue_positions_not_unique (a b c : string) (now : nat) (d : Database) :
  a <> b -> a <> c -> b <> c -> article_queue d = [] ->
  (forall sid d0,
      existsb (fun q => String.eqb (q_session_id q) sid) (article_queue d0) = false ->
      exists d1,
        add_to_queue sid d0
        = Returns (length (List.filter queued (article_queue d0)) + 1, d1)
        /\ map position (article_queue d1)
           = map position (article_queue d0)
             ++ [length (List.filter queued (article_queue d0)) + 1])
  /\ (forall sid status d0,
        map position (article_queue (update_queue_status sid status now d0))
        = map position (article_queue d0)
        /\ map q_session_id (article_queue (update_queue_status sid status now d0))
           = map q_session_id (article_queue d0))
  /\ exists d1 d2 d3,
       add_to_queue a d = Returns (1, d1)
       /\ add_to_queue b d1 = Returns (2, d2)
       /\ add_to_queue c (update_queue_status a "processing" now d2)
          = Returns (2, d3)
       /\ get_queue_position b d3 = Some 2
       /\ get_queue_position c d3 = Some 2
       /\ map q_status (article_queue d3) = ["processing"; "queued"; "queued"].
Proof.
  intros Hab Hac Hbc Hd. split; [|split].
  - intros sid d0 Hnew. unfold add_to_queue. rewrite Hnew.
    eexists. split; [reflexivity|]. simpl. by rewrite map_app.
  - intros sid status d0. unfold update_queue_status; simpl.
    by rewrite update_first_positions, update_first_sessions.
  - assert (Hba : String.eqb b a = false) by (apply eqb_neq; congruence).
    assert (Hca : String.eqb c a = false) by (apply eqb_neq; congruence).
    assert (Hcb : String.eqb c b = false) by (apply eqb_neq; congruence).
    assert (Hab' : String.eqb a b = false) by (by apply eqb_neq).
    assert (Hac' : String.eqb a c = false) by (by apply eqb_neq).
    assert (Hbc' : String.eqb b c = false) by (by apply eqb_neq).
    unfold add_to_queue, update_queue_status, get_queue_position. rewrite Hd. simpl.
    do 3 eexists. split; [reflexivity|]. simpl.
    rewrite Hab'. simpl. split; [reflexivity|]. simpl.
    rewrite String.eqb_refl. simpl. rewrite Hac', Hbc'. simpl.
    split; [reflexivity|]. simpl.
    rewrite Hab', Hac', Hbc', !String.eqb_refl. simpl. done.
Qed.

Lemma queue_positions_not_unique_witness :
  exists d1 d2 d3,
    add_to_queue "session-a" empty_db = Returns (1, d1)
    /\ add_to_queue "session-b" d1 = Returns (2, d2)
    /\ add_to_queue "session-c" (update_queue_status "session-a" "processing" 7 d2)
       = Returns (2, d3)
    /\ get_queue_position "session-b" d3 = Some 2
    /\ get_queue_position "session-c" d3 = Some 2
    /\ map q_status (article_queue d3) = ["processing"; "queued"; "queued"].
Proof.
  refine (proj2 (proj2 (queue_positions_not_unique
            "session-a" "session-b" "session-c" 7 empty_db _ _ _ _)));
    first [ discriminate | reflexivity ].
Defined.

End QueueFacts.

(** ** Time travel (api/routes.py) *)

Module TimeTravelFacts.
Import routes.

Lemma dict_get_absent {V} (k : string) (d : Dict.t V) :
  k ∉ Dict.keys d -> Dict.get k d = None.
Proof.
  induction d as [|[k' v] d IH]; simpl; [done|].
  intros Hk. apply not_elem_of_cons in Hk as [Hne Hk].
  rewrite (proj2 (String.eqb_neq k k')) by done. by apply IH.
Qed.

(** What the loop over the modifications leaves under each key. *)
Lemma apply_modifications_lookup (mods : Dict.t Value) :
  forall (state : gmap string Value) (k : string),
    NoDup (Dict.keys mods) ->
    apply_modifications mods state !! k
    = match state !! k with
      | Some old => Some (default old (Dict.get k mods))
      | None => None
      end.
Proof.
  induction mods as [|[k0 v0] mods IH]; intros state k Hnd.
  - simpl. by destruct (state !! k).
  - apply NoDup_cons in Hnd as [Hk0 Hnd].
    unfold apply_modifications in *. simpl. rewrite IH by done.
    destruct (String.eqb_spec k k0) as [->|Hne].
    + rewrite (dict_get_absent k0 mods Hk0).
      destruct (decide (is_Some (state !! k0))) as [[old Hold]|Hno].
      * by rewrite lookup_insert_eq, Hold.
      * apply eq_None_not_Some in Hno. by rewrite Hno.
    + destruct (decide (is_Some (state !! k0))); [|done].
      by rewrite lookup_insert_ne.
Qed.

(** C9. A time-travel request on a stored checkpoint reruns the workflow on
    the checkpoint state in which (i) an override is applied exactly when
    its key is already present, so a key absent from the checkpoint stays
    absent, (ii) every key not named by the overrides keeps its value, and
    (iii) [article_id] holds the newly generated id, whatever the overrides
    say. *)
Theorem time_travel_overrides
  (get_checkpoint : string -> option (gmap string Value)) (uuid4_hex : string)
  (request : TimeTravel) (state : gmap string Value) :
  get_checkpoint (tt_checkpoint_id request) = Some state ->
  NoDup (Dict.keys (modifications request)) ->
  exists state',
    let new_article_id := "article_" +:+ ArticleWorkflow.take 12 uuid4_hex in
    time_travel get_checkpoint uuid4_hex request = Rerun new_article_id state'
    /\ state' !! "article_id" = Some (VStr new_article_id)
    /\ forall k, k <> "article_id" ->
         state' !! k
         = match state !! k, Dict.get k (modifications request) with
           | Some _, Some v => Some v
           | Some old, None => Some old
           | None, _ => None
           end.
Proof.
  intros Hcp Hnd. unfold time_travel. rewrite Hcp.
  eexists. simpl. split; [reflexivity|]. split.
  - by rewrite lookup_insert_eq.
  - intros k Hk. rewrite lookup_insert_ne by done.
    rewrite apply_modifications_lookup by done.
    destruct (state !! k); [|done]. by destruct (Dict.get k (modifications request)).
Qed.

Definition sample_checkpoint : gmap string Value :=
  {[ "article_id" := VStr "article_original"; "topic" := VStr "History";
     "iteration" := VNum 0 ]}.

Definition sample_request : TimeTravel :=
  {| tt_article_id := "article_original"; tt_checkpoint_id := "checkpoint123";
     modifications :=
       [("topic", VStr "Updated Topic"); ("article_id", VStr "mine");
        ("unknown_key", VBool true)] |}.

Lemma time_travel_overrides_witness :
  exists state',
    time_travel (fun _ => Some sample_checkpoint) "0123456789abcdef0123"
      sample_request = Rerun "article_0123456789ab" state'
    /\ state' !! "article_id" = Some (VStr "article_0123456789ab")
    /\ state' !! "topic" = Some (VStr "Updated Topic")
    /\ state' !! "iteration" = Some (VNum 0)
    /\ state' !! "unknown_key" = None.
Proof.
  destruct (time_travel_overrides (fun _ => Some sample_checkpoint)
              "0123456789abcdef0123" sample_request sample_checkpoint)
    as (state' & Hrun & Hid & Hother).
  - reflexivity.
  - compute_done.
  - exists state'. split; [exact Hrun|]. split; [exact Hid|].
    split; [|split].
    + rewrite (Hother "topic") by discriminate. reflexivity.
    + rewrite (Hother "iteration") by discriminate. reflexivity.
    + rewrite (Hother "unknown_key") by discriminate. reflexivity.
Defined.

End TimeTravelFacts.

(** ** Equation processing (utils/latex_handler.py) *)

Module EquationFacts.
Import LaTeXHandler.

Definition sample : string := "$E=mc^2$ and $$a^2+b^2=c^2$$".

(** Article ids are [article_] followed by hex digits; what matters here is
    that they hold neither a dollar sign nor a backslash. *)
Definition plain_id (article_id : string) : Prop :=
  Py.contains_char Py.dollar article_id = false
  /\ Py.contains_char Py.backslash article_id = false.

Lemma append_cons (c : ascii) (a b : string) :
  String c a +:+ b = String c (a +:+ b).
Proof. reflexivity. Qed.

Lemma append_empty (s : string) : s +:+ EmptyString = s.
Proof.
  induction s as [|c s IH]; [reflexivity|]. by rewrite append_cons, IH.
Qed.

Lemma contains_char_append (c : ascii) (a b : string) :
  Py.contains_char c (a +:+ b) = Py.contains_char c a || Py.contains_char c b.
Proof.
  unfold Py.contains_char. induction a as [|x a IH]; [reflexivity|].
  rewrite append_cons. simpl. rewrite IH. by rewrite orb_assoc.
Qed.

(** A pattern that starts with a literal dollar finds nothing in a text
    without dollars. *)
Lemma finditer_no_dollar (pat : Re.pattern) (s : string) :
  forall skip pos prev,
    Py.contains_char Py.dollar s = false ->
    Re.finditer_from (Re.Lit Py.dollar :: pat) skip pos prev s = [].
Proof.
  induction s as [|c r IH]; intros skip pos prev Hs.
  - simpl. by destruct skip.
  - unfold Py.contains_char in Hs. simpl in Hs.
    apply orb_false_iff in Hs as [Hc Hr].
    simpl. destruct skip as [|k].
    + rewrite Hc. by apply IH.
    + by apply IH.
Qed.

Lemma extract_no_dollar (s : string) :
  Py.contains_char Py.dollar s = false -> extract_equations s = [].
Proof.
  intros Hs. unfold extract_equations, Re.finditer, display_pattern, inline_pattern.
  rewrite finditer_no_dollar by done. simpl.
  by rewrite finditer_no_dollar by done.
Qed.

Lemma replace_display (ref : string) :
  Re.sub_escaped_once (delimited display "a^2+b^2=c^2") ref sample
  = "$E=mc^2$ and " +:+ ref.
Proof.
  transitivity ("$E=mc^2$ and " +:+ (ref +:+ EmptyString)).
  - vm_compute. reflexivity.
  - by rewrite append_empty.
Qed.

Lemma replace_inline (ref tail : string) :
  Re.sub_escaped_once (delimited inline "E=mc^2") ref ("$E=mc^2$ and " +:+ tail)
  = ref +:+ " and " +:+ tail.
Proof. vm_compute. reflexivity. Qed.

Lemma image_ref_no_dollar (article_id : string) (idx : nat) :
  Py.contains_char Py.dollar article_id = false ->
  Py.contains_char Py.dollar (Py.str_of_nat idx) = false ->
  Py.contains_char Py.dollar (Py.str_of_nat (idx + 1)) = false ->
  Py.contains_char Py.dollar (image_ref_of idx (filename_of article_id idx)) = false.
Proof.
  intros Hid H0 H1. unfold image_ref_of, filename_of.
  rewrite !contains_char_append, Hid, H0, H1. reflexivity.
Qed.

Lemma append_assoc (a b c : string) : (a +:+ b) +:+ c = a +:+ (b +:+ c).
Proof.
  induction a as [|x a IH]; [reflexivity|]. by rewrite !append_cons, IH.
Qed.

(** The two line feeds that surround an image reference. *)
Definition blank_line : string :=
  String (ascii_of_nat 10) (String (ascii_of_nat 10) EmptyString).

(** The reference that stands for the first and for the second equation. *)
Lemma first_reference (article_id : string) :
  image_ref_of 0 (filename_of article_id 0)
  = blank_line +:+ "![Equation 1](/static/images/eq_" +:+ article_id
      +:+ "_0.png)" +:+ blank_line.
Proof.
  unfold image_ref_of, filename_of.
  change (Py.str_of_nat (0 + 1)) with "1". change (Py.str_of_nat 0) with "0".
  change nl2 with blank_line.
  rewrite !append_assoc. reflexivity.
Qed.

Lemma second_reference (article_id : string) :
  image_ref_of 1 (filename_of article_id 1)
  = blank_line +:+ "![Equation 2](/static/images/eq_" +:+ article_id
      +:+ "_1.png)" +:+ blank_line.
Proof.
  unfold image_ref_of, filename_of.
  change (Py.str_of_nat (1 + 1)) with "2". change (Py.str_of_nat 1) with "1".
  change nl2 with blank_line.
  rewrite !append_assoc. reflexivity.
Qed.

(** C7. On ["$E=mc^2$ and $$a^2+b^2=c^2$$"] the extractor returns exactly two
    equations, the display one first and then the inline one; when every
    rendering succeeds, [process_article_equations] puts the markdown image
    reference of equation 2, to the file eq_<article id>_1.png, in the place
    of the inline span, and that of equation 1, to eq_<article id>_0.png, in
    the place of the display span, each between blank lines; it reports 2
    equations, the two references differ, and the extractor finds nothing in
    the text it returns. *)
Theorem sample_equations_processed
  (latex_to_image : string -> string -> bool -> bool) (article_id : string) :
  (forall latex filename display_mode,
      latex_to_image latex filename display_mode = true) ->
  plain_id article_id ->
  let ref1 :=
    blank_line +:+ "![Equation 1](/static/images/eq_" +:+ article_id
      +:+ "_0.png)" +:+ blank_line in
  let ref2 :=
    blank_line +:+ "![Equation 2](/static/images/eq_" +:+ article_id
      +:+ "_1.png)" +:+ blank_line in
  extract_equations sample
  = [("a^2+b^2=c^2", display, 13); ("E=mc^2", inline, 0)]
  /\ process_article_equations latex_to_image sample article_id
     = (ref2 +:+ " and " +:+ ref1, 2)
  /\ ref1 <> ref2
  /\ extract_equations
       (process_article_equations latex_to_image sample article_id).1 = [].
Proof.
  intros Hrender [Hdollar _] ref1 ref2.
  assert (Hex : extract_equations sample
                = [("a^2+b^2=c^2", display, 13); ("E=mc^2", inline, 0)])
    by (vm_compute; reflexivity).
  assert (Hproc : process_article_equations latex_to_image sample article_id
                  = (ref2 +:+ " and " +:+ ref1, 2)).
  { unfold process_article_equations. rewrite Hex. cbn [process_loop].
    rewrite !Hrender. rewrite replace_display, replace_inline.
    by rewrite first_reference, second_reference. }
  split; [exact Hex|]. split; [exact Hproc|]. split.
  - subst ref1 ref2. unfold blank_line. simpl. intros H. discriminate H.
  - rewrite Hproc. simpl. apply extract_no_dollar.
    subst ref1 ref2. rewrite !contains_char_append, Hdollar. reflexivity.
Qed.

Lemma sample_equations_processed_witness :
  process_article_equations (fun _ _ _ => true) sample "article_3f9c1d2e4b7a"
  = ((blank_line
        +:+ "![Equation 2](/static/images/eq_article_3f9c1d2e4b7a_1.png)"
        +:+ blank_line)
       +:+ " and "
       +:+ (blank_line
              +:+ "![Equation 1](/static/images/eq_article_3f9c1d2e4b7a_0.png)"
              +:+ blank_line), 2).
Proof.
  refine (proj1 (proj2 (sample_equations_processed (fun _ _ _ => true)
                          "article_3f9c1d2e4b7a" _ _))).
  - reflexivity.
  - split; reflexivity.
Defined.

End EquationFacts.

(** ** The decision policy (agents/graph.py, should_regenerate) *)

Module PolicyFacts.
Import ArticleWorkflow.

Lemma Qlt_bool_true (a b : Q) : Qlt_bool a b = true <-> (a < b)%Q.
Proof.
  unfold Qlt_bool. rewrite negb_true_iff. split.
  - intros H. apply Qnot_le_lt. intros Hle.
    apply Qle_bool_iff in Hle. congruence.
  - intros H. destruct (Qle_bool b a) eqn:E; [|reflexivity].
    apply Qle_bool_iff in E. exfalso. by apply (Qlt_not_le a b).
Qed.

Lemma Qlt_bool_false (a b : Q) : Qlt_bool a b = false <-> (b <= a)%Q.
Proof.
  unfold Qlt_bool. rewrite negb_false_iff. apply Qle_bool_iff.
Qed.

(** [v] is the lowest-scoring key of [keys], the first one on ties. *)
Definition lowest_first (scores : Dict.t Q) (keys : list string) (v : string)
  : Prop :=
  exists i, keys !! i = Some v
    /\ forall j k, keys !! j = Some k ->
         (score_of scores v <= score_of scores k)%Q
         /\ (j < i -> (score_of scores v < score_of scores k)%Q).

Lemma fold_min_lowest (scores : Dict.t Q) (ks : list string) :
  forall (seen : list string) (best : string),
    lowest_first scores seen best ->
    lowest_first scores (seen ++ ks)
      (fold_left
         (fun best k =>
            if Qlt_bool (score_of scores k) (score_of scores best) then k else best)
         ks best).
Proof.
  induction ks as [|k ks IH]; intros seen best Hbest; simpl.
  - by rewrite app_nil_r.
  - replace (seen ++ k :: ks) with ((seen ++ [k]) ++ ks)
      by (by rewrite <- app_assoc).
    apply IH. destruct Hbest as (i & Hi & Hmin).
    assert (Hlt : i < length seen) by (by eapply lookup_lt_Some).
    destruct (Qlt_bool (score_of scores k) (score_of scores best)) eqn:E.
    + apply Qlt_bool_true in E. exists (length seen). split.
      { rewrite lookup_app_r by lia. by rewrite Nat.sub_diag. }
      intros j k' Hj. destruct (decide (j < length seen)) as [Hjl|Hjl].
      * rewrite lookup_app_l in Hj by done.
        destruct (Hmin j k' Hj) as [Hle _].
        split; [apply Qlt_le_weak|intros _]; by eapply Qlt_le_trans.
      * rewrite lookup_app_r in Hj by lia.
        destruct (j - length seen) as [|n] eqn:En; simpl in Hj; [|done].
        injection Hj as <-. split; [apply Qle_refl|lia].
    + apply Qlt_bool_false in E. exists i. split.
      { by rewrite lookup_app_l. }
      intros j k' Hj. destruct (decide (j < length seen)) as [Hjl|Hjl].
      * rewrite lookup_app_l in Hj by done. by apply Hmin.
      * rewrite lookup_app_r in Hj by lia.
        destruct (j - length seen) as [|n] eqn:En; simpl in Hj; [|done].
        injection Hj as <-. split; [done|lia].
Qed.

Lemma min_node_lowest (scores : Dict.t Q) (v : string) :
  min_node scores = Some v -> lowest_first scores (Dict.keys scores) v.
Proof.
  unfold min_node. destruct (Dict.keys scores) as [|k0 ks]; [done|].
  intros [= <-]. apply (fold_min_lowest scores ks [k0] k0).
  exists 0. split; [done|]. intros [|j] k Hj; simpl in Hj; [|done].
  injection Hj as <-. split; [apply Qle_refl|lia].
Qed.



Lemma max_retries_reached_true (s : ArticleState) :
  max_retries_reached s = true
  <-> exists v, v ∈ failed_nodes s /\ settings.MAX_RETRIES <= retry_count v s.
Proof.
  unfold max_retries_reached. rewrite existsb_exists. split.
  - intros (v & Hin & Hle). exists v. split; [by apply list_elem_of_In|].
    by apply Nat.leb_le.
  - intros (v & Hin & Hle). exists v. split; [by apply list_elem_of_In|].
    by apply Nat.leb_le.
Qed.










(** The worked examples of the decision policy. *)
Definition state_with (scores : Dict.t Q) (failed : list string)
  (retries : gmap string nat) : ArticleState :=
  set_retry_counts retries
    (set_failed_nodes failed
       (set_scores scores (routes.initial_state "session" "article" ∅ 0))).

Example high_scores_finalize :
  (should_regenerate
     (state_with
        [("structure", 9%Q); ("language", 9%Q); ("grammar", 9%Q); ("length", 9%Q);
         ("math", 10%Q); ("depth", 9%Q); ("readability", 9%Q); ("code", 10%Q)]
        [] ∅)).1 = finalize.
Proof. reflexivity. Qed.

Example failed_grammar_regenerates :
  (should_regenerate
     (state_with
        [("structure", 9%Q); ("language", 9%Q); ("grammar", 6%Q); ("length", 9%Q);
         ("math", 10%Q); ("depth", 9%Q); ("readability", 9%Q); ("code", 10%Q)]
        ["grammar"] {[ "grammar" := 1 ]})).1 = regenerate.
Proof. reflexivity. Qed.

Example exhausted_grammar_finalizes :
  (should_regenerate
     (state_with
        [("structure", 9%Q); ("language", 9%Q); ("grammar", 6%Q); ("length", 9%Q);
         ("math", 10%Q); ("depth", 9%Q); ("readability", 9%Q); ("code", 10%Q)]
        ["grammar"] {[ "grammar" := 5 ]})).1 = finalize.
Proof. reflexivity. Qed.

Example tie_takes_first :
  min_node [("structure", 8%Q); ("language", 7%Q); ("grammar", 7%Q)]
  = Some "language".
Proof. reflexivity. Qed.


End PolicyFacts.

(** ** Re-evaluating the decision policy *)

Module RerunFacts.
Import ArticleWorkflow PolicyFacts.

(** A state with no failed node, a single low score, and the retry budget of
    that stage already spent. *)
Definition spent : ArticleState :=
  state_with [("grammar", 5%Q)] [] {[ "grammar" := 5 ]}.


Lemma policy_reads_three_fields (s t : ArticleState) :
  scores s = scores t -> failed_nodes s = failed_nodes t ->
  retry_counts s = retry_counts t ->
  (should_regenerate s).1 = (should_regenerate t).1.
Proof.
  intros Hs Hf Hr.
  unfold should_regenerate, max_retries_reached, retry_count.
  rewrite Hs, Hf, Hr.
  destruct (failed_nodes t); [|by destruct (existsb _ _)].
  destruct (Qlt_bool _ _); [|done].
  destruct (min_node _); [|done]. by destruct (Qlt_bool _ _).
Qed.

(** The three ways an evaluation can end. *)
Lemma policy_outcomes (s : ArticleState) :
  should_regenerate s = (finalize, s)
  \/ (should_regenerate s = (regenerate, s)
      /\ failed_nodes s <> [] /\ max_retries_reached s = false)
  \/ (exists v, should_regenerate s = (regenerate, set_failed_nodes [v] s)
                /\ failed_nodes s = []).
Proof.
  unfold should_regenerate. destruct (failed_nodes s) eqn:Hf.
  - destruct (Qlt_bool _ _); [|by left].
    destruct (min_node _) as [v|]; [|by left].
    destruct (Qlt_bool _ _); [|by left].
    right; right. by exists v.
  - destruct (max_retries_reached s); [by left|].
    right; left. done.
Qed.


End RerunFacts.

(** ** The math gate (validators/math.py) *)

Module MathGateFacts.
Import validators.

Lemma dict_get_set {V} (k : string) (v : V) (d : Dict.t V) :
  Dict.get k (Dict.set k v d) = Some v.
Proof.
  induction d as [|[k' v'] d IH]; simpl.
  - by rewrite String.eqb_refl.
  - destruct (String.eqb k k') eqn:E; simpl; rewrite E; [done|exact IH].
Qed.

Lemma dict_get_set_other {V} (k k0 : string) (v : V) (d : Dict.t V) :
  k0 <> k -> Dict.get k0 (Dict.set k v d) = Dict.get k0 d.
Proof.
  intros Hne. induction d as [|[k' v'] d IH]; simpl.
  - by rewrite (proj2 (String.eqb_neq k0 k)).
  - destruct (String.eqb k k') eqn:E; simpl.
    + apply String.eqb_eq in E as <-.
      by rewrite (proj2 (String.eqb_neq k0 k)).
    + by rewrite IH.
Qed.

(** A text without a dollar sign has no math. *)
Lemma search_no_dollar (pat : Re.pattern) (s : string) :
  forall prev, Py.contains_char Py.dollar s = false ->
               Re.search_from (Re.Lit Py.dollar :: pat) prev s = None.
Proof.
  induction s as [|c r IH]; intros prev Hs; [reflexivity|].
  unfold Py.contains_char in Hs. simpl in Hs.
  apply orb_false_iff in Hs as [Hc Hr].
  simpl. rewrite Hc. by apply IH.
Qed.

Lemma no_dollar_no_math (content : string) :
  Py.contains_char Py.dollar content = false -> check_has_math content = false.
Proof.
  intros H. unfold check_has_math, Re.search, math_pattern.
  by rewrite search_no_dollar.
Qed.

(** The state in which the math stage is entered for the second time when
    the first draft held an equation and the regenerated one holds none: the
    flag is still set from the first pass. *)
Definition second_pass :=
  ArticleWorkflow.steps Scenarios.equations_then_prose Scenarios.uuid4_hex
    Scenarios.latex_to_image 15 ArticleWorkflow.n_generate Scenarios.state0
    Scenarios.world0.

Definition after_rewrite : ArticleState := second_pass.1.2.

(** C5, as stated, fails in one field: the stage also assigns [has_math], so
    a state whose flag was set comes back with the flag cleared. *)
Lemma math_gate_clears_flag :
  second_pass.1.1 = ArticleWorkflow.n_validate_math
  /\ content after_rewrite = "Prices rose by 5% last year."
  /\ check_has_math (content after_rewrite) = false
  /\ has_math after_rewrite = true
  /\ has_math (validate_math Scenarios.equations_then_prose after_rewrite
                 second_pass.2).1 = false.
Proof. vm_compute. repeat split; reflexivity. Qed.

(** C5, amended. When the content has no [$...$] span, [validate_math] sets
    has_math to False, scores['math'] to 10.0 and feedback['math'] to the
    fixed not-applicable judgment, and changes nothing else: every other
    score and feedback entry, failed_nodes, retry_counts, status, error,
    content and metadata are as before, no request reaches the language
    model and nothing is written to the database, whatever the language
    model would answer. *)
Theorem math_gate_not_applicable (generator : Generator) (s : ArticleState)
  (w : World) :
  check_has_math (content s) = false ->
  let s' := (validate_math generator s w).1 in
  let w' := (validate_math generator s w).2 in
  s' = set_feedback
         (<["math" := not_applicable "No mathematical content to validate"]>
            (feedback s))
         (set_scores (Dict.set "math" 10%Q (scores s)) (set_has_math false s))
  /\ w' = w
  /\ Dict.get "math" (scores s') = Some 10%Q
  /\ feedback s' !! "math"
     = Some (not_applicable "No mathematical content to validate")
  /\ has_math s' = false
  /\ (forall k, k <> "math" ->
        Dict.get k (scores s') = Dict.get k (scores s)
        /\ feedback s' !! k = feedback s !! k)
  /\ failed_nodes s' = failed_nodes s
  /\ retry_counts s' = retry_counts s
  /\ status s' = status s /\ error s' = error s
  /\ content s' = content s /\ metadata s' = metadata s
  /\ calls w' = calls w /\ db w' = db w.
Proof.
  intros Hno. cbv zeta. unfold validate_math. rewrite Hno. simpl.
  split; [reflexivity|]. split; [reflexivity|].
  split; [apply dict_get_set|]. split; [by rewrite lookup_insert_eq|].
  split; [reflexivity|]. split; [|by repeat split].
  intros k Hk. split; [by apply dict_get_set_other|by rewrite lookup_insert_ne].
Qed.

Lemma math_gate_not_applicable_witness :
  Dict.get "math" (scores (validate_math Scenarios.silent after_rewrite second_pass.2).1)
  = Some 10%Q
  /\ calls (validate_math Scenarios.silent after_rewrite second_pass.2).2
     = calls second_pass.2.
Proof.
  assert (check_has_math (content after_rewrite) = false) as Hno
    by (vm_compute; reflexivity).
  pose proof (math_gate_not_applicable Scenarios.silent after_rewrite second_pass.2 Hno) as H.
  cbv zeta in H. split; [apply H|]. apply H.
Defined.

End MathGateFacts.

(** ** Versions (database/operations.py, create_version; agents/graph.py) *)

Module VersionFacts.
Import ArticleWorkflow db_ops.

Definition version_numbers (article_id : string) (d : Database) : list nat :=
  map version_number (versions_of article_id d).

Lemma versions_of_app (article_id : string) (d : Database)
  (vs : list ArticleVersion) :
  versions_of article_id (with_versions (article_versions d ++ vs) d)
  = versions_of article_id d
    ++ List.filter (fun v => String.eqb (v_article_id v) article_id) vs.
Proof. unfold versions_of. simpl. apply List.filter_app. Qed.

(** [create_version] numbers the new row one past the rows the article has,
    and leaves the rows of every other article alone. *)
Lemma create_version_numbers (article_id content node_name : string)
  (scores : Dict.t Q) (d : Database) (other : string) :
  version_numbers other (create_version article_id content scores node_name d)
  = version_numbers other d
    ++ (if String.eqb article_id other
        then [length (versions_of article_id d) + 1] else []).
Proof.
  unfold version_numbers, create_version. rewrite versions_of_app. simpl.
  destruct (String.eqb article_id other); rewrite map_app; reflexivity.
Qed.

Definition returns {A} (o : Outcome A) : bool :=
  match o with Returns _ => true | Raises _ => false end.

Section Runs.

Variable generator : Generator.
Variable uuid4_hex : nat -> string.
Variable latex_to_image : string -> string -> bool -> bool.

Abbreviation step := (step generator uuid4_hex latex_to_image).
Abbreviation steps := (steps generator uuid4_hex latex_to_image).

(** The step is a generate or regenerate transition whose request to the
    language model returns. *)
Definition drafts (n : Node) (s : ArticleState) (w : World) : bool :=
  match n with
  | n_generate => returns (generate_article generator (calls w) (requirements s))
  | n_regenerate =>
      returns (regenerate_content generator (calls w) (node_names_of s)
                 (feedback_text_of s) (content s))
  | _ => false
  end.

(** How many of the first [k] steps are such transitions. *)
Fixpoint drafted (k : nat) (n : Node) (s : ArticleState) (w : World) : nat :=
  match k with
  | O => 0
  | S k' =>
      match n with
      | END => 0
      | _ =>
          (if drafts n s w then 1 else 0)
          + let r := step n s w in drafted k' r.1.1 r.1.2 r.2
      end
  end.

(** A node that leaves the article id and the version table as they are. *)
Definition keeps_versions (s : ArticleState) (w : World)
  (r : ArticleState * World) : Prop :=
  article_id r.1 = article_id s
  /\ article_versions (db r.2) = article_versions (db w).

Lemma judged_stage_keeps_versions name label enrich s w :
  (forall j s0, article_id (enrich j s0) = article_id s0) ->
  keeps_versions s w (validators.judged_stage generator name label enrich s w).
Proof.
  intros Henrich. unfold keeps_versions, validators.judged_stage.
  destruct (validate_content _ _ _ _ _) as [result|msg]; [|done].
  destruct (Qlt_bool _ _); [|simpl; by rewrite Henrich].
  destruct (_ <=? _); simpl; by rewrite Henrich.
Qed.

Lemma validate_math_keeps_versions s w :
  keeps_versions s w (validators.validate_math generator s w).
Proof.
  unfold validators.validate_math. destruct (negb _); [done|].
  by apply (judged_stage_keeps_versions "math" "Math" _ (set_has_math _ s) w).
Qed.

Lemma validate_code_keeps_versions s w :
  keeps_versions s w (validators.validate_code generator s w).
Proof.
  unfold validators.validate_code. destruct (negb _); [done|].
  by apply (judged_stage_keeps_versions "code" "Code" _ (set_has_code _ s) w).
Qed.

Lemma should_regenerate_article_id s :
  article_id (should_regenerate s).2 = article_id s.
Proof.
  unfold should_regenerate. destruct (failed_nodes s).
  - destruct (Qlt_bool _ _); [|done]. destruct (min_node _); [|done].
    by destruct (Qlt_bool _ _).
  - by destruct (max_retries_reached s).
Qed.

(** What one step does to the version table: a generate or regenerate
    transition whose request returns appends one row for the article,
    numbered one past the rows the article has; every other step appends
    nothing. *)
Lemma step_versions (n : Node) (s : ArticleState) (w : World) :
  article_id (step n s w).1.2 = article_id s
  /\ exists vs,
       article_versions (db (step n s w).2) = article_versions (db w) ++ vs
       /\ (drafts n s w = false -> vs = [])
       /\ (drafts n s w = true ->
           exists v, vs = [v]
             /\ v_article_id v = article_id s
             /\ version_number v = length (versions_of (article_id s) (db w)) + 1
             /\ v_content v = content (step n s w).1.2).
Proof.
  assert (forall r, keeps_versions s w r ->
            article_id r.1 = article_id s
            /\ exists vs, article_versions (db r.2) = article_versions (db w) ++ vs
                 /\ (false = false -> vs = [])
                 /\ (false = true ->
                     exists v, vs = [v]
                       /\ v_article_id v = article_id s
                       /\ version_number v
                          = length (versions_of (article_id s) (db w)) + 1
                       /\ v_content v = content r.1)) as Hkeep.
  { intros r [Hid Hv]. split; [done|]. exists []. by rewrite app_nil_r. }
  destruct n; cbn [step ArticleWorkflow.step fst snd drafts].
  - unfold generate_node.
    change (requirements (set_current_node "generate" s)) with (requirements s).
    destruct (generate_article _ _ _) as [parts|msg]; cbn [returns].
    + cbv zeta. checkpoint_effect H.
      destruct H as (Hst & _ & _ & Hv & _). rewrite Hv.
      assert (article_id handed = article_id s /\ content handed
              = String.concat EmptyString parts) as [Hid Hc].
      { destruct Hst as [(-> & _)|(msg & -> & _)];
          by destruct (Re.search _ _). }
      split; [exact Hid|].
      eexists. split; [reflexivity|]. split; [done|]. intros _.
      eexists. split; [reflexivity|]. cbn [v_article_id version_number v_content].
      rewrite Hc. by destruct (Re.search _ _).
    + split; [done|]. exists []. by rewrite app_nil_r.
  - by apply Hkeep, judged_stage_keeps_versions.
  - by apply Hkeep, judged_stage_keeps_versions.
  - by apply Hkeep, judged_stage_keeps_versions.
  - by apply Hkeep, judged_stage_keeps_versions.
  - apply Hkeep, validate_math_keeps_versions.
  - by apply Hkeep, judged_stage_keeps_versions.
  - by apply Hkeep, judged_stage_keeps_versions.
  - apply Hkeep, validate_code_keeps_versions.
  - pose proof (should_regenerate_article_id s) as Hid.
    destruct (should_regenerate s) as [[|] s']; simpl in *;
      (split; [done|]; exists []; by rewrite app_nil_r).
  - unfold regenerate_node.
    change (node_names_of (set_iteration _ _)) with (node_names_of s).
    change (feedback_text_of (set_iteration _ _)) with (feedback_text_of s).
    change (content (set_iteration _ (set_current_node _ s))) with (content s).
    destruct (regenerate_content _ _ _ _ _) as [parts|msg]; cbn [returns].
    + cbv zeta. checkpoint_effect H.
      destruct H as (Hst & _ & _ & Hv & _). rewrite Hv.
      assert (article_id handed = article_id s /\ content handed
              = String.concat EmptyString parts) as [Hid Hc].
      { by destruct Hst as [(-> & _)|(msg & -> & _)]. }
      split; [exact Hid|].
      eexists. split; [reflexivity|]. split; [done|]. intros _.
      eexists. split; [reflexivity|]. cbn [v_article_id version_number v_content].
      by rewrite Hc.
    + split; [done|]. exists []. by rewrite app_nil_r.
  - apply (Hkeep (finalize_node latex_to_image s w)).
    unfold keeps_versions, finalize_node. simpl. by destruct (has_math s).
  - split; [done|]. exists []. by rewrite app_nil_r.
Qed.

Lemma versions_of_extended (article_id : string) (d d' : Database)
  (vs : list ArticleVersion) :
  article_versions d' = article_versions d ++ vs ->
  versions_of article_id d'
  = versions_of article_id d
    ++ List.filter (fun v => String.eqb (v_article_id v) article_id) vs.
Proof. intros H. unfold versions_of. rewrite H. apply List.filter_app. Qed.

Lemma step_version_numbers (n : Node) (s : ArticleState) (w : World) :
  version_numbers (article_id s) (db (step n s w).2)
  = version_numbers (article_id s) (db w)
    ++ (if drafts n s w
        then [length (versions_of (article_id s) (db w)) + 1] else []).
Proof.
  destruct (step_versions n s w) as (_ & vs & Hvs & Hnone & Hone).
  unfold version_numbers. rewrite (versions_of_extended _ _ _ _ Hvs).
  destruct (drafts n s w).
  - destruct (Hone eq_refl) as (v & -> & Hid & Hnum & _). simpl.
    rewrite Hid, String.eqb_refl. rewrite map_app. simpl. by rewrite Hnum.
  - rewrite (Hnone eq_refl). simpl. by rewrite !app_nil_r.
Qed.

Lemma steps_versions (k : nat) :
  forall (n : Node) (s : ArticleState) (w : World),
    version_numbers (article_id s) (db w)
    = seq 1 (length (versions_of (article_id s) (db w))) ->
    article_id (steps k n s w).1.2 = article_id s
    /\ version_numbers (article_id s) (db (steps k n s w).2)
       = seq 1 (length (versions_of (article_id s) (db w)) + drafted k n s w).
Proof.
  induction k as [|k IH]; intros n s w Hw.
  - simpl. by rewrite Nat.add_0_r.
  - assert (Hstep :
      article_id (steps k (step n s w).1.1 (step n s w).1.2 (step n s w).2).1.2
      = article_id s
      /\ version_numbers (article_id s)
           (db (steps k (step n s w).1.1 (step n s w).1.2 (step n s w).2).2)
         = seq 1 (length (versions_of (article_id s) (db w))
                  + ((if drafts n s w then 1 else 0)
                     + drafted k (step n s w).1.1 (step n s w).1.2
                         (step n s w).2))).
    { pose proof (step_version_numbers n s w) as Hnum.
      destruct (step_versions n s w) as (Hid & _).
      destruct (IH (step n s w).1.1 (step n s w).1.2 (step n s w).2) as [Hid' Hv'].
      - rewrite Hid, Hnum, Hw.
        unfold version_numbers in Hnum. apply (f_equal length) in Hnum.
        rewrite length_app, !length_map in Hnum. rewrite Hnum.
        destruct (drafts n s w); simpl.
        + rewrite seq_app. simpl. by rewrite (Nat.add_comm _ 1).
        + by rewrite app_nil_r, Nat.add_0_r.
      - rewrite Hid in Hid', Hv'. split; [done|]. rewrite Hv'. f_equal.
        unfold version_numbers in Hnum. apply (f_equal length) in Hnum.
        rewrite length_app, !length_map in Hnum. rewrite Hnum.
        destruct (drafts n s w); simpl; lia. }
    destruct n; try exact Hstep.
    simpl. by rewrite Nat.add_0_r.
Qed.

(** A draft was made and its version written, and then the checkpoint save
    failed on a [datetime]: the node catches that failure. *)
Lemma draft_then_save_caught (n : Node) (s : ArticleState) (w : World) :
  drafts n s w = true -> json_serializable s = false ->
  status (step n s w).1.2 = "error".
Proof.
  intros Hd Hser.
  destruct n; try discriminate Hd;
    cbn [step ArticleWorkflow.step fst snd drafts] in *.
  - unfold generate_node.
    change (requirements (set_current_node "generate" s)) with (requirements s).
    destruct (generate_article _ _ _) as [parts|msg]; [|discriminate Hd].
    cbv zeta. rewrite CheckpointSave.save_checkpoint_of_cases.
    destruct (Re.search _ _);
      match goal with
      | |- context [json_serializable ?x] =>
          change (json_serializable x) with (json_serializable s)
      end; by rewrite Hser.
  - unfold regenerate_node.
    change (node_names_of (set_iteration _ _)) with (node_names_of s).
    change (feedback_text_of (set_iteration _ _)) with (feedback_text_of s).
    change (content (set_iteration _ (set_current_node _ s))) with (content s).
    destruct (regenerate_content _ _ _ _ _) as [parts|msg]; [|discriminate Hd].
    cbv zeta. rewrite CheckpointSave.save_checkpoint_of_cases.
    match goal with
    | |- context [json_serializable ?x] =>
        change (json_serializable x) with (json_serializable s)
    end. by rewrite Hser.
Qed.

(** C8, amended. Every version row that [create_version] adds for an article
    is numbered one past the rows the article already has, so along a run
    that starts from a well-numbered table (an empty one, say) the article's
    version numbers are 1, 2, ..., without gap or repetition. One row is
    added by each generate or regenerate transition whose request to the
    language model returns, and none by any other step; in particular a
    generate or regenerate transition whose request raises adds none. The
    row is added also when the transition then fails to save its checkpoint
    and catches that failure, as happens whenever the state holds a
    [datetime]: the transition ends with status 'error' and one more
    version. *)
Theorem versions_numbered (k : nat) (n : Node) (s : ArticleState) (w : World) :
  version_numbers (article_id s) (db w)
  = seq 1 (length (versions_of (article_id s) (db w))) ->
  version_numbers (article_id s) (db (steps k n s w).2)
  = seq 1 (length (versions_of (article_id s) (db w)) + drafted k n s w)
  /\ (forall n0 s0 w0,
        version_numbers (article_id s0) (db (step n0 s0 w0).2)
        = version_numbers (article_id s0) (db w0)
          ++ (if drafts n0 s0 w0
              then [length (versions_of (article_id s0) (db w0)) + 1] else []))
  /\ (forall article_id content scores node_name d,
        version_numbers article_id
          (create_version article_id content scores node_name d)
        = version_numbers article_id d
          ++ [length (versions_of article_id d) + 1])
  /\ (forall n0 s0 w0,
        drafts n0 s0 w0 = true -> json_serializable s0 = false ->
        status (step n0 s0 w0).1.2 = "error"
        /\ version_numbers (article_id s0) (db (step n0 s0 w0).2)
           = version_numbers (article_id s0) (db w0)
             ++ [length (versions_of (article_id s0) (db w0)) + 1]).
Proof.
  intros Hw. split; [by apply steps_versions|]. split; [|split].
  - apply step_version_numbers.
  - intros aid c sc nn d. rewrite create_version_numbers.
    by rewrite String.eqb_refl.
  - intros n0 s0 w0 Hd Hser. split; [by apply draft_then_save_caught|].
    by rewrite step_version_numbers, Hd.
Qed.

End Runs.

(** C8, as stated, fails on a generate transition whose request to the
    language model raises: the node catches the failure and the run moves on
    to the first validator without a version having been added. *)
Lemma failed_generation_adds_no_version :
  let r := step Scenarios.silent Scenarios.uuid4_hex Scenarios.latex_to_image
             n_generate Scenarios.state0 Scenarios.world0 in
  r.1.1 = n_validate_structure
  /\ status r.1.2 = "error"
  /\ article_versions (db r.2) = [].
Proof. repeat split; reflexivity. Qed.

Lemma versions_numbered_witness :
  version_numbers "article_3f9c1d2e4b7a"
    (db (steps Scenarios.weak_grammar Scenarios.uuid4_hex Scenarios.latex_to_image
           60 n_generate Scenarios.state0 Scenarios.world0).2)
  = [1; 2; 3; 4; 5].
Proof.
  refine (eq_trans
            (proj1 (versions_numbered Scenarios.weak_grammar Scenarios.uuid4_hex
                      Scenarios.latex_to_image 60 n_generate Scenarios.state0
                      Scenarios.world0 _)) _).
  - reflexivity.
  - vm_compute. reflexivity.
Defined.

End VersionFacts.

(** ** Retry counters and failed nodes along a run *)

Module RetryFacts.
Import ArticleWorkflow.

(** The names a step appended to failed_nodes, tagged with the node that ran:
    what the list holds beyond its length before the step. (A regeneration
    empties the list and so appends nothing.) *)
Definition events (n : Node) (s s' : ArticleState) : list (Node * string) :=
  map (pair n) (drop (length (failed_nodes s)) (failed_nodes s')).

Definition is_validator (n : Node) : bool :=
  match n with
  | n_validate_structure | n_validate_language | n_validate_grammar
  | n_validate_length | n_validate_math | n_validate_depth
  | n_validate_readability | n_validate_code => true
  | _ => false
  end.

(** How often [v] was appended to failed_nodes, by any node. *)
Definition appearances (v : string) (h : list (Node * string)) : nat :=
  length (List.filter (fun e => String.eqb e.2 v) h).

(** How often [v] was appended to failed_nodes by a validator stage. *)
Definition charged (v : string) (h : list (Node * string)) : nat :=
  length (List.filter (fun e => is_validator e.1 && String.eqb e.2 v) h).

Lemma charged_app v h1 h2 : charged v (h1 ++ h2) = charged v h1 + charged v h2.
Proof. unfold charged. by rewrite List.filter_app, length_app. Qed.

Lemma charged_le_appearances v h : charged v h <= appearances v h.
Proof.
  unfold charged, appearances. induction h as [|e h IH]; simpl; [lia|].
  destruct (is_validator e.1); simpl; destruct (String.eqb e.2 v); simpl; lia.
Qed.

Lemma events_unchanged n s s' :
  failed_nodes s' = failed_nodes s -> events n s s' = [].
Proof. intros H. unfold events. by rewrite H, drop_all. Qed.

Lemma events_appended n s s' name :
  failed_nodes s' = failed_nodes s ++ [name] -> events n s s' = [(n, name)].
Proof. intros H. unfold events. by rewrite H, drop_app_length. Qed.

Lemma retry_count_insert name v k (s : ArticleState) :
  default 0 (<[name := k]> (retry_counts s) !! v)
  = if String.eqb name v then k else retry_count v s.
Proof.
  destruct (String.eqb_spec name v) as [->|Hne].
  - by rewrite lookup_insert_eq.
  - by rewrite lookup_insert_ne.
Qed.

Section Runs.

Variable generator : Generator.
Variable uuid4_hex : nat -> string.
Variable latex_to_image : string -> string -> bool -> bool.

Abbreviation step := (step generator uuid4_hex latex_to_image).
Abbreviation steps := (steps generator uuid4_hex latex_to_image).

(** Everything appended to failed_nodes during the first [k] steps. *)
Fixpoint history (k : nat) (n : Node) (s : ArticleState) (w : World)
  : list (Node * string) :=
  match k with
  | O => []
  | S k' =>
      match n with
      | END => []
      | _ =>
          let r := step n s w in
          events n s r.1.2 ++ history k' r.1.1 r.1.2 r.2
      end
  end.

(** A judged stage either leaves failed_nodes and retry_counts alone, or
    appends its name and adds one to its counter. *)
Lemma judged_stage_accounts name label enrich s w :
  (forall j s0, failed_nodes (enrich j s0) = failed_nodes s0
                /\ retry_counts (enrich j s0) = retry_counts s0) ->
  let s' := (validators.judged_stage generator name label enrich s w).1 in
  (failed_nodes s' = failed_nodes s /\ retry_counts s' = retry_counts s)
  \/ (failed_nodes s' = failed_nodes s ++ [name]
      /\ retry_counts s' = <[name := retry_count name s + 1]> (retry_counts s)).
Proof.
  intros Henrich. cbv zeta. unfold validators.judged_stage.
  destruct (validate_content _ _ _ _ _) as [result|msg]; [|by left].
  set (s3 := enrich result _).
  assert (failed_nodes s3 = failed_nodes s /\ retry_counts s3 = retry_counts s)
    as [Hf Hr]
    by (subst s3; split;
        [exact (proj1 (Henrich result _))|exact (proj2 (Henrich result _))]).
  destruct (Qlt_bool _ _); [|by left].
  right. unfold retry_count.
  destruct (_ <=? _); simpl; by rewrite Hf, Hr.
Qed.

Lemma stage_step_accounts (n : Node) name (s s' : ArticleState) v :
  is_validator n = true ->
  (failed_nodes s' = failed_nodes s /\ retry_counts s' = retry_counts s)
  \/ (failed_nodes s' = failed_nodes s ++ [name]
      /\ retry_counts s' = <[name := retry_count name s + 1]> (retry_counts s)) ->
  retry_count v s' = retry_count v s + charged v (events n s s').
Proof.
  intros Hn [[Hf Hr]|[Hf Hr]].
  - rewrite (events_unchanged _ _ _ Hf). unfold retry_count, charged.
    rewrite Hr. simpl. lia.
  - rewrite (events_appended _ _ _ _ Hf). unfold charged. simpl. rewrite Hn.
    simpl. unfold retry_count at 1. rewrite Hr, retry_count_insert.
    destruct (String.eqb name v) eqn:E; simpl; [|lia].
    apply String.eqb_eq in E as ->. lia.
Qed.

Lemma no_enrichment_frame j s0 :
  failed_nodes (validators.no_enrichment j s0) = failed_nodes s0
  /\ retry_counts (validators.no_enrichment j s0) = retry_counts s0.
Proof. done. Qed.

(** One step adds to the counter of [v] exactly what the validator stages
    appended for [v]. *)
Lemma step_accounts (n : Node) (s : ArticleState) (w : World) (v : string) :
  retry_count v (step n s w).1.2
  = retry_count v s + charged v (events n s (step n s w).1.2).
Proof.
  assert (forall s' : ArticleState,
            failed_nodes s' = failed_nodes s -> retry_counts s' = retry_counts s ->
            retry_count v s' = retry_count v s + charged v (events n s s'))
    as Hsame.
  { intros s' Hf Hr. rewrite (events_unchanged _ _ _ Hf).
    unfold retry_count, charged. rewrite Hr. simpl. lia. }
  destruct n.
  - assert (failed_nodes (step n_generate s w).1.2 = failed_nodes s
            /\ retry_counts (step n_generate s w).1.2 = retry_counts s)
      as [Hf Hr]; [|by apply Hsame].
    cbn [step ArticleWorkflow.step fst snd]. unfold generate_node.
    destruct (generate_article _ _ _); [|done].
    cbv zeta. checkpoint_effect H. destruct H as (Hst & _).
    destruct Hst as [(-> & _)|(m & -> & _)]; by destruct (Re.search _ _).
  - apply (stage_step_accounts _ "structure"); [done|].
    apply judged_stage_accounts, no_enrichment_frame.
  - apply (stage_step_accounts _ "language"); [done|].
    apply judged_stage_accounts, no_enrichment_frame.
  - apply (stage_step_accounts _ "grammar"); [done|].
    apply judged_stage_accounts, no_enrichment_frame.
  - apply (stage_step_accounts _ "length"); [done|].
    by apply judged_stage_accounts.
  - apply (stage_step_accounts _ "math"); [done|].
    simpl. unfold validators.validate_math.
    destruct (negb _); [by left|].
    apply (judged_stage_accounts "math" "Math" _ (set_has_math _ s) w),
      no_enrichment_frame.
  - apply (stage_step_accounts _ "depth"); [done|].
    apply judged_stage_accounts, no_enrichment_frame.
  - apply (stage_step_accounts _ "readability"); [done|].
    by apply judged_stage_accounts.
  - apply (stage_step_accounts _ "code"); [done|].
    simpl. unfold validators.validate_code.
    destruct (negb _); [by left|].
    apply (judged_stage_accounts "code" "Code" _ (set_has_code _ s) w),
      no_enrichment_frame.
  - simpl.
    destruct (RerunFacts.policy_outcomes s) as [H|[(H & _ & _)|(v0 & H & Hf)]];
      rewrite H; simpl.
    + by apply Hsame.
    + by apply Hsame.
    + rewrite (events_appended n_decide s _ v0) by (by rewrite Hf).
      unfold charged. simpl. unfold retry_count. simpl. lia.
  - cbn [step ArticleWorkflow.step fst snd]. unfold regenerate_node.
    destruct (regenerate_content _ _ _ _ _); [|by apply Hsame].
    cbv zeta. checkpoint_effect H. destruct H as (Hst & _).
    assert (failed_nodes handed = [] /\ retry_counts handed = retry_counts s)
      as [Hf Hr]
      by (by destruct Hst as [(-> & _)|(m & -> & _)]).
    unfold events. rewrite Hf, drop_nil. simpl.
    unfold retry_count, charged. rewrite Hr. simpl. lia.
  - apply Hsame; simpl; by destruct (has_math s).
  - by apply Hsame.
Qed.

Lemma steps_accounts (k : nat) :
  forall (n : Node) (s : ArticleState) (w : World) (v : string),
    retry_count v (steps k n s w).1.2
    = retry_count v s + charged v (history k n s w).
Proof.
  induction k as [|k IH]; intros n s w v.
  - simpl. unfold charged. simpl. lia.
  - assert (retry_count v
              (steps k (step n s w).1.1 (step n s w).1.2 (step n s w).2).1.2
            = retry_count v s
              + charged v (events n s (step n s w).1.2
                           ++ history k (step n s w).1.1 (step n s w).1.2
                                (step n s w).2)) as Hstep.
    { rewrite IH, step_accounts, charged_app. lia. }
    destruct n; try exact Hstep.
    simpl. unfold charged. simpl. lia.
Qed.

Lemma steps_add (k j : nat) :
  forall (n : Node) (s : ArticleState) (w : World),
    steps (k + j) n s w
    = steps j (steps k n s w).1.1 (steps k n s w).1.2 (steps k n s w).2.
Proof.
  induction k as [|k IH]; intros n s w; [reflexivity|].
  destruct n; try apply IH.
  simpl. by destruct j.
Qed.

(** C2, amended. Along a run the counter of a stage never decreases, and it
    has grown by exactly the number of times the stage appended itself to
    failed_nodes; the appends made by the decision policy are not counted,
    so the counter has grown by at most the number of times the stage was
    appended to failed_nodes. *)
Theorem retry_counters_account (k j : nat) (n : Node) (s : ArticleState)
  (w : World) (v : string) :
  retry_count v (steps (k + j) n s w).1.2
  = retry_count v s + charged v (history (k + j) n s w)
  /\ charged v (history (k + j) n s w) <= appearances v (history (k + j) n s w)
  /\ retry_count v (steps k n s w).1.2 <= retry_count v (steps (k + j) n s w).1.2.
Proof.
  split; [apply steps_accounts|]. split; [apply charged_le_appearances|].
  rewrite steps_add, (steps_accounts j). lia.
Qed.

End Runs.

(** C2, as stated, fails. First pass: grammar scores 5.0 and is appended by
    its stage (counter 1). After the regeneration the grammar request fails,
    the old score stays, and the decision policy appends grammar a second
    time without touching the counter. *)
Lemma policy_append_not_counted :
  let run20 :=
    steps Scenarios.flaky_grammar Scenarios.uuid4_hex Scenarios.latex_to_image
      20 n_generate Scenarios.state0 Scenarios.world0 in
  history Scenarios.flaky_grammar Scenarios.uuid4_hex Scenarios.latex_to_image
    20 n_generate Scenarios.state0 Scenarios.world0
  = [(n_validate_grammar, "grammar"); (n_decide, "grammar")]
  /\ retry_count "grammar" run20.1.2 = 1
  /\ failed_nodes run20.1.2 = ["grammar"]
  /\ run20.1.1 = n_regenerate.
Proof. vm_compute. repeat split; reflexivity. Qed.

End RetryFacts.

(** ** Status along a run *)

Module StatusFacts.
Import ArticleWorkflow db_ops.

Lemma find_update_first {A} (p : A -> bool) (f : A -> A) (l : list A) :
  (forall x, p (f x) = p x) ->
  find p (update_first p f l) = f <$> find p l.
Proof.
  intros Hp. induction l as [|x l IH]; simpl; [reflexivity|].
  destruct (p x) eqn:E; simpl.
  - by rewrite Hp, E.
  - by rewrite E.
Qed.

(** C3, as stated, fails. Grammar scores 5.0 on every pass: its fifth failure
    sets status 'failed' (step 44 of the run); the policy then finalizes, and
    finalize overwrites the status with 'completed', in the state and in the
    stored article, while the error message of the exhausted stage stays. *)
Lemma failed_status_overwritten :
  let run_to k :=
    steps Scenarios.weak_grammar Scenarios.uuid4_hex Scenarios.latex_to_image
      k n_generate Scenarios.state0 Scenarios.world0 in
  status (run_to 44).1.2 = "failed"
  /\ retry_count "grammar" (run_to 44).1.2 = 5
  /\ (run_to 50).1.1 = n_finalize
  /\ status (run_to 50).1.2 = "failed"
  /\ (run_to 51).1.1 = END
  /\ status (run_to 51).1.2 = "completed"
  /\ error (run_to 51).1.2 = Some "Grammar validation failed after 5 retries"
  /\ a_status <$> get_article "article_3f9c1d2e4b7a" (db (run_to 51).2)
     = Some "completed".
Proof. vm_compute. repeat split; reflexivity. Qed.

Section Runs.

Variable generator : Generator.
Variable uuid4_hex : nat -> string.
Variable latex_to_image : string -> string -> bool -> bool.

Abbreviation step := (step generator uuid4_hex latex_to_image).
Abbreviation steps := (steps generator uuid4_hex latex_to_image).

(** What finalize does, given the content [s1] holds after the equations
    have been dealt with. *)
Lemma finalize_node_effect (s : ArticleState) (w : World) :
  exists s1,
    article_id s1 = article_id s
    /\ finalize_node latex_to_image s w
       = (set_status "completed" (set_overall_score (mean_score (scores s1)) s1),
          on_db (update_article (article_id s) (Some (content s1))
                   (Some "completed") (Some (mean_score (scores s1))) (now w)) w).
Proof.
  unfold finalize_node. cbv zeta.
  change (has_math (set_current_node "finalize" s)) with (has_math s).
  destruct (has_math s).
  - by exists (set_content
                 (LaTeXHandler.process_article_equations latex_to_image
                    (content s) (article_id s)).1
                 (set_current_node "finalize" s)).
  - by exists (set_current_node "finalize" s).
Qed.

(** C3, amended. A judged stage whose score is below the threshold for the
    MAX_RETRIES-th time sets status 'failed'; at the decision point a failed
    node with a spent budget routes to finalize; and [finalize_node] sets
    status 'completed' whatever the status was, in the state and in the
    stored article, and stores the final content: the run ends 'completed',
    not 'failed'. *)
Theorem exhausted_run_ends_completed (s : ArticleState) (w : World) :
  (forall name label enrich result,
      validate_content generator (calls w) name (content s) (metadata s)
      = Returns result ->
      (default 0 (j_score result) < settings.MIN_SCORE_THRESHOLD)%Q ->
      (forall j s0, retry_counts (enrich j s0) = retry_counts s0) ->
      settings.MAX_RETRIES <= retry_count name s + 1 ->
      status (validators.judged_stage generator name label enrich s w).1
      = "failed")
  /\ ((exists v, v ∈ failed_nodes s /\ settings.MAX_RETRIES <= retry_count v s) ->
      (step n_decide s w).1.1 = n_finalize
      /\ (steps 2 n_decide s w).1.1 = END
      /\ status (steps 2 n_decide s w).1.2 = "completed")
  /\ (step n_finalize s w).1.1 = END
  /\ status (finalize_node latex_to_image s w).1 = "completed"
  /\ (forall a, get_article (article_id s) (db w) = Some a ->
        exists a',
          get_article (article_id s) (db (finalize_node latex_to_image s w).2)
          = Some a'
          /\ a_status a' = "completed"
          /\ a_content a' = content (finalize_node latex_to_image s w).1).
Proof.
  split; [|split; [|split; [|split]]].
  - intros name label enrich result Hcall Hlow Henrich Hmax.
    unfold validators.judged_stage. rewrite Hcall.
    apply PolicyFacts.Qlt_bool_true in Hlow. rewrite Hlow. cbv zeta.
    destruct (_ <=? _) eqn:E; [reflexivity|].
    apply Nat.leb_gt in E. unfold retry_count in E, Hmax.
    cbn [retry_counts set_retry_counts set_failed_nodes] in E.
    rewrite lookup_insert_eq, Henrich in E. simpl in E. lia.
  - intros Hex.
    assert ((step n_decide s w).1.1 = n_finalize) as Hroute.
    { apply PolicyFacts.max_retries_reached_true in Hex as Hmax.
      simpl. unfold should_regenerate.
      destruct (failed_nodes s) as [|f fs] eqn:Hf.
      - destruct Hex as (v & Hin & _). by apply elem_of_nil in Hin.
      - by rewrite Hmax. }
    split; [exact Hroute|].
    change (steps 2 n_decide s w)
      with (steps 1 (step n_decide s w).1.1 (step n_decide s w).1.2
              (step n_decide s w).2).
    rewrite Hroute. split; reflexivity.
  - reflexivity.
  - reflexivity.
  - intros a Ha.
    destruct (finalize_node_effect s w) as (s1 & Hid & ->).
    unfold get_article, update_article in *. simpl.
    rewrite find_update_first by done. rewrite Ha. simpl.
    eexists. split; [reflexivity|]. split; reflexivity.
Qed.

End Runs.

End StatusFacts.

(** ** Failures caught by a stage *)

Module ErrorFacts.
Import ArticleWorkflow.

(** C4, as stated, fails. The structure request fails (step 2): status is
    'error', and the run goes on through the other stages, each judged stage
    asking the language model, to the decision and to finalize, which ends the
    run with status 'completed'. *)
Lemma error_does_not_halt :
  let run_to k :=
    steps Scenarios.broken_structure Scenarios.uuid4_hex Scenarios.latex_to_image
      k n_generate Scenarios.state0 Scenarios.world0 in
  status (run_to 2).1.2 = "error"
  /\ error (run_to 2).1.2 = Some "timeout"
  /\ (run_to 2).1.1 = n_validate_language
  /\ map Scenarios.call_label (calls (run_to 2).2) = ["generate"; "structure"]
  /\ (run_to 10).1.1 = n_finalize
  /\ status (run_to 10).1.2 = "error"
  /\ (run_to 11).1.1 = END
  /\ status (run_to 11).1.2 = "completed"
  /\ map Scenarios.call_label (calls (run_to 11).2)
     = ["generate"; "structure"; "language"; "grammar"; "length"; "depth";
        "readability"].
Proof. vm_compute. repeat split; reflexivity. Qed.

(** The edge that leaves each node; the decision point has two. *)
Definition successor (n : Node) : option Node :=
  match n with
  | n_generate => Some n_validate_structure
  | n_validate_structure => Some n_validate_language
  | n_validate_language => Some n_validate_grammar
  | n_validate_grammar => Some n_validate_length
  | n_validate_length => Some n_validate_math
  | n_validate_math => Some n_validate_depth
  | n_validate_depth => Some n_validate_readability
  | n_validate_readability => Some n_validate_code
  | n_validate_code => Some n_decide
  | n_decide => None
  | n_regenerate => Some n_validate_structure
  | n_finalize => Some END
  | END => Some END
  end.

Section Runs.

Variable generator : Generator.
Variable uuid4_hex : nat -> string.
Variable latex_to_image : string -> string -> bool -> bool.

Abbreviation step := (step generator uuid4_hex latex_to_image).

Lemma judged_stage_asks name label enrich s w :
  calls (validators.judged_stage generator name label enrich s w).2
  = calls w ++ [CallValidate name (content s) (metadata s)].
Proof.
  unfold validators.judged_stage.
  destruct (validate_content _ _ _ _ _); [|reflexivity].
  destruct (Qlt_bool _ _); [|reflexivity]. by destruct (_ <=? _).
Qed.

Lemma judged_stage_raises name label enrich s w msg :
  validate_content generator (calls w) name (content s) (metadata s) = Raises msg ->
  (validators.judged_stage generator name label enrich s w).1
  = set_error (Some msg) (set_status "error" s).
Proof. intros H. unfold validators.judged_stage. by rewrite H. Qed.

(** C4, amended. A stage that catches a failure of its request sets status
    'error' and the error message and returns the state otherwise as it was.
    Nothing halts: every node other than the decision point is followed by
    its one successor in the graph, whatever the state; a judged stage sends
    its request to the language model also when the status already is
    'error'; and the decision point goes to regenerate or to finalize as the
    decision policy says, which reads scores, failed_nodes and retry_counts
    and not the status. *)
Theorem caught_failure_sets_error_and_run_continues
  (n : Node) (s : ArticleState) (w : World) :
  (forall n', successor n = Some n' -> (step n s w).1.1 = n')
  /\ (step n_decide s w).1.1
     = match (should_regenerate s).1 with
       | regenerate => n_regenerate
       | finalize => n_finalize
       end
  /\ (forall st, (should_regenerate (set_status st s)).1 = (should_regenerate s).1)
  /\ (forall name label enrich,
        calls (validators.judged_stage generator name label enrich
                 (set_status "error" s) w).2
        = calls w ++ [CallValidate name (content s) (metadata s)])
  /\ (forall name label enrich msg,
        validate_content generator (calls w) name (content s) (metadata s)
        = Raises msg ->
        (validators.judged_stage generator name label enrich s w).1
        = set_error (Some msg) (set_status "error" s))
  /\ (forall msg,
        generate_article generator (calls w) (requirements s) = Raises msg ->
        (generate_node generator uuid4_hex s w).1
        = set_error (Some msg) (set_status "error" (set_current_node "generate" s)))
  /\ (forall msg,
        regenerate_content generator (calls w) (node_names_of s)
          (feedback_text_of s) (content s) = Raises msg ->
        (regenerate_node generator uuid4_hex s w).1
        = set_error (Some msg)
            (set_status "error"
               (set_iteration (iteration s + 1)
                  (set_current_node "regenerate" s)))).
Proof.
  split; [|split; [|split; [|split; [|split; [|split]]]]].
  - intros n' Hn'. destruct n; simpl in Hn'; try (by injection Hn' as <-).
    discriminate Hn'.
  - simpl. by destruct (should_regenerate s) as [[|] s'].
  - intros st. by apply RerunFacts.policy_reads_three_fields.
  - intros name label enrich. by rewrite judged_stage_asks.
  - intros name label enrich msg. apply judged_stage_raises.
  - intros msg H. unfold generate_node. cbv zeta.
    change (requirements (set_current_node "generate" s)) with (requirements s).
    by rewrite H.
  - intros msg H. unfold regenerate_node.
    change (node_names_of (set_iteration _ _)) with (node_names_of s).
    change (feedback_text_of (set_iteration _ _)) with (feedback_text_of s).
    change (content (set_iteration _ (set_current_node _ s))) with (content s).
    by rewrite H.
Qed.

End Runs.

End ErrorFacts.

(** ** Whole runs *)

Module RunExamples.
Import ArticleWorkflow.

(** With every stage judged 9.2 the run ends after the generate node, the
    eight stages, the decision and finalize. *)
Example steady_run_completes :
  match run Scenarios.steady Scenarios.uuid4_hex Scenarios.latex_to_image 11
          Scenarios.state0 Scenarios.world0 with
  | Some (s, w) =>
      status s = "completed" /\ title s = "Demo Article" /\ iteration s = 0
      /\ failed_nodes s = []
      /\ map version_number (article_versions (db w)) = [1]
      /\ length (validation_logs (db w)) = 6
  | None => False
  end.
Proof. vm_compute. repeat split; reflexivity. Qed.

(** Ten steps are one too few for that run. *)
Example steady_run_needs_eleven_steps :
  run Scenarios.steady Scenarios.uuid4_hex Scenarios.latex_to_image 10
    Scenarios.state0 Scenarios.world0 = None.
Proof. vm_compute. reflexivity. Qed.

(** When the grammar request keeps failing after the first regeneration, the
    stale score makes the policy ask for one regeneration after another:
    two hundred steps do not reach the end. *)
Example flaky_run_keeps_regenerating :
  let r := steps Scenarios.flaky_grammar Scenarios.uuid4_hex
             Scenarios.latex_to_image 200 n_generate Scenarios.state0
             Scenarios.world0 in
  r.1.1 = n_regenerate /\ iteration r.1.2 = 19
  /\ retry_count "grammar" r.1.2 = 1.
Proof. vm_compute. repeat split; reflexivity. Qed.

End RunExamples.

(** * Further properties of the workflow *)

(** ** What one validator stage does *)

Module StageFacts.
Import ArticleWorkflow.

(** The stage run by a node of the graph, if it is a validator node. *)
Definition stage_name (n : Node) : option string :=
  match n with
  | n_validate_structure => Some "structure"
  | n_validate_language => Some "language"
  | n_validate_grammar => Some "grammar"
  | n_validate_length => Some "length"
  | n_validate_math => Some "math"
  | n_validate_depth => Some "depth"
  | n_validate_readability => Some "readability"
  | n_validate_code => Some "code"
  | _ => None
  end.

(** The fields no validator stage assigns. *)
Definition same_draft (s s' : ArticleState) : Prop :=
  article_id s' = article_id s /\ session_id s' = session_id s
  /\ requirements_held s' = requirements_held s /\ content s' = content s
  /\ title s' = title s /\ iteration s' = iteration s
  /\ current_node s' = current_node s /\ overall_score s' = overall_score s.

(** The fields a stage leaves alone unless its judgment is below the
    threshold. *)
Definition same_account (s s' : ArticleState) : Prop :=
  failed_nodes s' = failed_nodes s /\ retry_counts s' = retry_counts s
  /\ status s' = status s /\ error s' = error s.

(** The stage did not apply: a perfect score, nothing asked, nothing logged. *)
Definition gated (name : string) (s : ArticleState) (w : World)
  (s' : ArticleState) (w' : World) : Prop :=
  (name = "math" \/ name = "code")
  /\ scores s' = Dict.set name 10%Q (scores s)
  /\ (exists text, feedback s' = <[name := validators.not_applicable text]> (feedback s))
  /\ metadata s' = metadata s /\ same_account s s' /\ w' = w.

(** The request failed: status and error say so, nothing else is recorded. *)
Definition raised (generator : Generator) (name : string) (s : ArticleState)
  (w : World) (s' : ArticleState) (w' : World) : Prop :=
  exists msg,
    validate_content generator (calls w) name (content s) (metadata s)
    = Raises msg
    /\ scores s' = scores s /\ feedback s' = feedback s /\ metadata s' = metadata s
    /\ failed_nodes s' = failed_nodes s /\ retry_counts s' = retry_counts s
    /\ status s' = "error" /\ error s' = Some msg
    /\ calls w' = calls w ++ [CallValidate name (content s) (metadata s)]
    /\ db w' = db w.

(** The request returned a judgment. *)
Definition judged (generator : Generator) (name : string) (s : ArticleState)
  (w : World) (s' : ArticleState) (w' : World) : Prop :=
  exists result,
    let score := default 0%Q (j_score result) in
    validate_content generator (calls w) name (content s) (metadata s)
    = Returns result
    /\ scores s' = Dict.set name score (scores s)
    /\ feedback s' = <[name := result]> (feedback s)
    /\ calls w' = calls w ++ [CallValidate name (content s) (metadata s)]
    /\ articles (db w') = articles (db w)
    /\ article_versions (db w') = article_versions (db w)
    /\ article_queue (db w') = article_queue (db w)
    /\ checkpoints (db w') = checkpoints (db w)
    /\ validation_logs (db w')
       = validation_logs (db w)
         ++ [{| l_article_id := article_id s; l_node_name := name;
                l_score := score; l_feedback := result;
                l_retry_count := retry_count name s;
                l_status := if Qlt_bool score settings.MIN_SCORE_THRESHOLD
                            then "failed" else "passed" |}]
    /\ ((Qlt_bool score settings.MIN_SCORE_THRESHOLD = false /\ same_account s s')
        \/ (Qlt_bool score settings.MIN_SCORE_THRESHOLD = true
            /\ failed_nodes s' = failed_nodes s ++ [name]
            /\ retry_counts s'
               = <[name := retry_count name s + 1]> (retry_counts s)
            /\ ((retry_count name s + 1 < settings.MAX_RETRIES
                 /\ status s' = status s /\ error s' = error s)
                \/ (settings.MAX_RETRIES <= retry_count name s + 1
                    /\ status s' = "failed")))).

Definition stage_result (generator : Generator) (name : string)
  (s : ArticleState) (w : World) (s' : ArticleState) (w' : World) : Prop :=
  same_draft s s'
  /\ uuids w' = uuids w /\ now w' = now w
  /\ (gated name s w s' w' \/ raised generator name s w s' w'
      \/ judged generator name s w s' w').

Section Stages.

Variable generator : Generator.
Variable uuid4_hex : nat -> string.
Variable latex_to_image : string -> string -> bool -> bool.

Abbreviation step := (step generator uuid4_hex latex_to_image).
Abbreviation steps := (steps generator uuid4_hex latex_to_image).

(** An enrichment touches the metadata only. *)
Definition metadata_only (enrich : Judgment -> ArticleState -> ArticleState)
  : Prop :=
  forall j s0,
    same_draft s0 (enrich j s0) /\ same_account s0 (enrich j s0)
    /\ scores (enrich j s0) = scores s0 /\ feedback (enrich j s0) = feedback s0.

Lemma no_enrichment_metadata_only : metadata_only validators.no_enrichment.
Proof. intros j s0. by repeat split. Qed.

Lemma length_enrichment_metadata_only :
  metadata_only validators.length_enrichment.
Proof. intros j s0. by repeat split. Qed.

Lemma readability_enrichment_metadata_only :
  metadata_only validators.readability_enrichment.
Proof. intros j s0. by repeat split. Qed.

Lemma Qle_bool_Qlt_bool (a b : Q) : Qle_bool a b = negb (Qlt_bool b a).
Proof. unfold Qlt_bool. by rewrite negb_involutive. Qed.

Lemma judged_stage_result name label enrich s w :
  metadata_only enrich ->
  let r := validators.judged_stage generator name label enrich s w in
  same_draft s r.1 /\ uuids r.2 = uuids w /\ now r.2 = now w
  /\ (raised generator name s w r.1 r.2 \/ judged generator name s w r.1 r.2).
Proof.
  intros Henrich. cbv zeta. unfold validators.judged_stage.
  destruct (validate_content _ _ _ _ _) as [result|msg] eqn:Hcall.
  - set (score := default 0%Q (j_score result)).
    set (s2 := set_feedback _ _).
    destruct (Henrich result s2) as (Hd & Ha & Hs & Hf).
    set (s3 := enrich result s2) in *.
    destruct Hd as (Hd1 & Hd2 & Hd3 & Hd4 & Hd5 & Hd6 & Hd7 & Hd8).
    destruct Ha as (Ha1 & Ha2 & Ha3 & Ha4).
    assert (retry_count name s3 = retry_count name s) as Hrc
      by (unfold retry_count; by rewrite Ha2).
    assert (retry_count name
              (set_retry_counts
                 (<[name := retry_count name
                              (set_failed_nodes (failed_nodes s3 ++ [name]) s3) + 1]>
                    (retry_counts
                       (set_failed_nodes (failed_nodes s3 ++ [name]) s3)))
                 (set_failed_nodes (failed_nodes s3 ++ [name]) s3))
            = retry_count name s + 1) as Hnew.
    { unfold retry_count at 1.
      cbn [retry_counts set_retry_counts]. rewrite lookup_insert_eq. simpl.
      exact (f_equal (fun k => k + 1) Hrc). }
    rewrite Qle_bool_Qlt_bool, Hnew.
    destruct (Qlt_bool score settings.MIN_SCORE_THRESHOLD) eqn:Elow.
    + destruct (settings.MAX_RETRIES <=? retry_count name s + 1) eqn:Emax.
      * split; [by repeat split|]. split; [done|]. split; [done|].
        right. exists result. cbv zeta. fold score.
        split; [exact Hcall|]. split; [exact Hs|]. split; [exact Hf|].
        split; [done|]. do 4 (split; [done|]).
        split; [simpl; by rewrite Hd1, Hrc, Elow|].
        right. split; [done|].
        cbn [fst failed_nodes retry_counts status error set_error set_status
             set_retry_counts set_failed_nodes].
        change (retry_count name (set_failed_nodes _ s3))
          with (retry_count name s3).
        rewrite Ha1, Ha2, Hrc.
        split; [done|]. split; [done|]. right.
        apply Nat.leb_le in Emax. by split.
      * split; [by repeat split|]. split; [done|]. split; [done|].
        right. exists result. cbv zeta. fold score.
        split; [exact Hcall|]. split; [exact Hs|]. split; [exact Hf|].
        split; [done|]. do 4 (split; [done|]).
        split; [simpl; by rewrite Hd1, Hrc, Elow|].
        right. split; [done|].
        cbn [fst failed_nodes retry_counts status error set_error set_status
             set_retry_counts set_failed_nodes].
        change (retry_count name (set_failed_nodes _ s3))
          with (retry_count name s3).
        rewrite Ha1, Ha2, Hrc.
        split; [done|]. split; [done|]. left.
        apply Nat.leb_gt in Emax. by rewrite Ha3, Ha4.
    + split; [by repeat split|]. split; [done|]. split; [done|].
      right. exists result. cbv zeta. fold score.
      split; [exact Hcall|]. split; [exact Hs|]. split; [exact Hf|].
      split; [done|]. do 4 (split; [done|]).
      split; [simpl; by rewrite Hd1, Hrc, Elow|].
      left. by repeat split.
  - split; [by repeat split|]. split; [done|]. split; [done|].
    left. exists msg. by repeat split.
Qed.

Lemma judged_is_stage_result name label enrich (s0 s : ArticleState) w :
  metadata_only enrich ->
  (forall r : ArticleState * World,
      (same_draft s0 r.1 /\ uuids r.2 = uuids w /\ now r.2 = now w
       /\ (raised generator name s0 w r.1 r.2 \/ judged generator name s0 w r.1 r.2)) ->
      stage_result generator name s w r.1 r.2) ->
  stage_result generator name s w
    (validators.judged_stage generator name label enrich s0 w).1
    (validators.judged_stage generator name label enrich s0 w).2.
Proof.
  intros Henrich Hconv. apply Hconv. by apply judged_stage_result.
Qed.

(** Every validator node does one of the three things above. *)
Lemma stage_step (n : Node) (name : string) (s : ArticleState) (w : World) :
  stage_name n = Some name ->
  stage_result generator name s w (step n s w).1.2 (step n s w).2.
Proof.
  assert (forall r : ArticleState * World,
            (same_draft s r.1 /\ uuids r.2 = uuids w /\ now r.2 = now w
             /\ (raised generator name s w r.1 r.2 \/ judged generator name s w r.1 r.2)) ->
            stage_result generator name s w r.1 r.2) as Hconv.
  { intros r (H1 & H2 & H3 & [H4|H4]); repeat split; try apply H1; auto. }
  destruct n; intros [= <-]; cbn [step ArticleWorkflow.step fst snd].
  - apply judged_is_stage_result;
      [apply no_enrichment_metadata_only|apply Hconv].
  - apply judged_is_stage_result;
      [apply no_enrichment_metadata_only|apply Hconv].
  - apply judged_is_stage_result;
      [apply no_enrichment_metadata_only|apply Hconv].
  - apply judged_is_stage_result;
      [apply length_enrichment_metadata_only|apply Hconv].
  - unfold validators.validate_math.
    destruct (validators.check_has_math (content s)); cbn [negb].
    + apply (judged_is_stage_result "math" "Math" _ (set_has_math true s));
        [apply no_enrichment_metadata_only|apply Hconv].
    + split; [by repeat split|]. split; [done|]. split; [done|].
      left. split; [by left|]. split; [done|]. split; [by eexists|].
      by repeat split.
  - apply judged_is_stage_result;
      [apply no_enrichment_metadata_only|apply Hconv].
  - apply judged_is_stage_result;
      [apply readability_enrichment_metadata_only|apply Hconv].
  - unfold validators.validate_code.
    destruct (validators.check_has_code (content s)); cbn [negb].
    + apply (judged_is_stage_result "code" "Code" _ (set_has_code true s));
        [apply no_enrichment_metadata_only|apply Hconv].
    + split; [by repeat split|]. split; [done|]. split; [done|].
      left. split; [by right|]. split; [done|]. split; [by eexists|].
      by repeat split.
Qed.

(** The requests a node sends to the language model. *)
Definition requests (n : Node) (s : ArticleState) : list AdapterCall :=
  match n with
  | n_generate => [CallGenerate (requirements s)]
  | n_regenerate =>
      [CallRegenerate (node_names_of s) (feedback_text_of s) (content s)]
  | n_validate_math =>
      if validators.check_has_math (content s)
      then [CallValidate "math" (content s) (metadata s)] else []
  | n_validate_code =>
      if validators.check_has_code (content s)
      then [CallValidate "code" (content s) (metadata s)] else []
  | _ =>
      match stage_name n with
      | Some name => [CallValidate name (content s) (metadata s)]
      | None => []
      end
  end.

Lemma step_calls (n : Node) (s : ArticleState) (w : World) :
  calls (step n s w).2 = calls w ++ requests n s.
Proof.
  destruct n; cbn [step ArticleWorkflow.step fst snd requests stage_name];
    try apply ErrorFacts.judged_stage_asks.
  - unfold generate_node.
    change (requirements (set_current_node "generate" s)) with (requirements s).
    destruct (generate_article _ _ _); [|done].
    cbv zeta. checkpoint_effect H.
    destruct H as (_ & _ & _ & _ & _ & _ & Hc & _). by rewrite Hc.
  - unfold validators.validate_math.
    destruct (validators.check_has_math (content s)); cbn [negb].
    + apply (ErrorFacts.judged_stage_asks _ "math" "Math" _ (set_has_math true s)).
    + simpl. by rewrite app_nil_r.
  - unfold validators.validate_code.
    destruct (validators.check_has_code (content s)); cbn [negb].
    + apply (ErrorFacts.judged_stage_asks _ "code" "Code" _ (set_has_code true s)).
    + simpl. by rewrite app_nil_r.
  - destruct (should_regenerate s) as [[|] s']; simpl; by rewrite app_nil_r.
  - unfold regenerate_node.
    change (node_names_of (set_iteration _ _)) with (node_names_of s).
    change (feedback_text_of (set_iteration _ _)) with (feedback_text_of s).
    change (content (set_iteration _ (set_current_node _ s))) with (content s).
    destruct (regenerate_content _ _ _ _ _); [|done].
    cbv zeta. checkpoint_effect H.
    destruct H as (_ & _ & _ & _ & _ & _ & Hc & _). by rewrite Hc.
  - simpl. by rewrite app_nil_r.
  - simpl. by rewrite app_nil_r.
Qed.

(** What the nodes that are not validators do to the fields the validators
    account in. *)
Lemma other_step (n : Node) (s : ArticleState) (w : World) :
  stage_name n = None ->
  let s' := (step n s w).1.2 in
  let w' := (step n s w).2 in
  article_id s' = article_id s
  /\ scores s' = scores s /\ feedback s' = feedback s
  /\ retry_counts s' = retry_counts s
  /\ validation_logs (db w') = validation_logs (db w)
  /\ iteration s' = iteration s + (if n is n_regenerate then 1 else 0).
Proof.
  intros Hn. cbv zeta.
  destruct n; try discriminate Hn; cbn [step ArticleWorkflow.step fst snd].
  - unfold generate_node. destruct (generate_article _ _ _).
    + cbv zeta. checkpoint_effect H.
      destruct H as (Hst & _ & _ & _ & Hl & _). rewrite Hl.
      destruct Hst as [(-> & _)|(m & -> & _)]; destruct (Re.search _ _); simpl;
        repeat split; auto; lia.
    + simpl. repeat split; auto; lia.
  - destruct (RerunFacts.policy_outcomes s) as [H|[(H & _ & _)|(v0 & H & Hf)]];
      rewrite H; simpl; repeat split; auto; lia.
  - unfold regenerate_node. destruct (regenerate_content _ _ _ _ _).
    + cbv zeta. checkpoint_effect H.
      destruct H as (Hst & _ & _ & _ & Hl & _). rewrite Hl.
      destruct Hst as [(-> & _)|(m & -> & _)]; simpl; repeat split; auto; done.
    + simpl. repeat split; auto; done.
  - unfold finalize_node. cbv zeta.
    change (has_math (set_current_node "finalize" s)) with (has_math s).
    destruct (has_math s); simpl; repeat split; auto; lia.
  - simpl. repeat split; auto; lia.
Qed.

(** A property kept by every step is kept by a run of any length. *)
Lemma steps_invariant (P : Node -> ArticleState -> World -> Prop) :
  (forall n s w, P n s w -> P (step n s w).1.1 (step n s w).1.2 (step n s w).2) ->
  forall k n s w,
    P n s w -> P (steps k n s w).1.1 (steps k n s w).1.2 (steps k n s w).2.
Proof.
  intros Hstep. induction k as [|k IH]; intros n s w HP; [exact HP|].
  assert (P (steps k (step n s w).1.1 (step n s w).1.2 (step n s w).2).1.1
            (steps k (step n s w).1.1 (step n s w).1.2 (step n s w).2).1.2
            (steps k (step n s w).1.1 (step n s w).1.2 (step n s w).2).2) as H
    by (by apply IH, Hstep).
  destruct n; try exact H. exact HP.
Qed.

End Stages.

End StageFacts.

(** ** Invariants of a run *)

Module RunInvariants.
Import ArticleWorkflow StageFacts.

(** The score kept for a stage is the score of the feedback kept for it. *)
Definition mirrored (s : ArticleState) : Prop :=
  forall k,
    Dict.get k (scores s)
    = (fun j => default 0%Q (j_score j)) <$> (feedback s !! k).

(** The rows of the validation log that record a failure of stage [v] for
    the article. *)
Definition failed_rows (v article : string) (logs : list ValidationLog) : nat :=
  length
    (List.filter
       (fun l => String.eqb (l_article_id l) article
                 && String.eqb (l_node_name l) v
                 && String.eqb (l_status l) "failed") logs).

Definition is_regenerate_call (c : AdapterCall) : bool :=
  match c with CallRegenerate _ _ _ => true | _ => false end.

Definition regenerate_calls (cs : list AdapterCall) : nat :=
  length (List.filter is_regenerate_call cs).

(** Where a node sits in a pass: the eight stages in their order, the
    decision after them; the nodes that start a pass come before, the nodes
    that end the run after. *)
Definition node_pos (n : Node) : nat :=
  match n with
  | n_generate | n_regenerate => 0
  | n_validate_structure => 1
  | n_validate_language => 2
  | n_validate_grammar => 3
  | n_validate_length => 4
  | n_validate_math => 5
  | n_validate_depth => 6
  | n_validate_readability => 7
  | n_validate_code => 8
  | n_decide => 9
  | n_finalize | END => 10
  end.

Definition stage_names : list string :=
  ["structure"; "language"; "grammar"; "length"; "math"; "depth";
   "readability"; "code"].

(** The position of the stage called [v], if [v] names a stage. *)
Definition stage_pos (v : string) : option nat :=
  match list_find (fun u => u = v) stage_names with
  | Some (i, _) => Some (S i)
  | None => None
  end.

(** The counter of [v] is within the budget, and when it has reached the
    budget the run is past the stage that spent it, on its way to finalize. *)
Definition within_budget (v : string) (n : Node) (s : ArticleState) : Prop :=
  retry_count v s <= settings.MAX_RETRIES
  /\ (retry_count v s = settings.MAX_RETRIES ->
      node_pos n = 10
      \/ (v ∈ failed_nodes s
          /\ exists p, stage_pos v = Some p /\ p < node_pos n)).

Lemma dict_set_lookup {V} (name k : string) (v : V) (d : Dict.t V) :
  Dict.get k (Dict.set name v d)
  = if String.eqb name k then Some v else Dict.get k d.
Proof.
  destruct (String.eqb_spec name k) as [->|Hne].
  - apply MathGateFacts.dict_get_set.
  - apply MathGateFacts.dict_get_set_other. congruence.
Qed.

Lemma insert_lookup {V} (name k : string) (v : V) (m : gmap string V) :
  <[name := v]> m !! k = if String.eqb name k then Some v else m !! k.
Proof.
  destruct (String.eqb_spec name k) as [->|Hne].
  - by rewrite lookup_insert_eq.
  - by rewrite lookup_insert_ne.
Qed.

Section Runs.

Variable generator : Generator.
Variable uuid4_hex : nat -> string.
Variable latex_to_image : string -> string -> bool -> bool.

Abbreviation step := (step generator uuid4_hex latex_to_image).
Abbreviation steps := (steps generator uuid4_hex latex_to_image).

Lemma step_mirrored (n : Node) (s : ArticleState) (w : World) :
  mirrored s -> mirrored (step n s w).1.2.
Proof.
  intros Hs k. destruct (stage_name n) as [name|] eqn:Hn.
  - destruct (stage_step generator uuid4_hex latex_to_image n name s w Hn)
      as (_ & _ & _ & [Hg|[Hr|Hj]]).
    + destruct Hg as (_ & Hsc & (text & Hf) & _).
      rewrite Hsc, Hf, dict_set_lookup, insert_lookup.
      destruct (String.eqb name k); [done|apply Hs].
    + destruct Hr as (msg & _ & Hsc & Hf & _). rewrite Hsc, Hf. apply Hs.
    + destruct Hj as (result & _ & Hsc & Hf & _).
      rewrite Hsc, Hf, dict_set_lookup, insert_lookup.
      destruct (String.eqb name k); [done|apply Hs].
  - destruct (other_step generator uuid4_hex latex_to_image n s w Hn)
      as (_ & Hsc & Hf & _).
    rewrite Hsc, Hf. apply Hs.
Qed.

(** After any number of steps, a stage has a score exactly when it has a
    feedback entry, and the score is the one that entry carries (0 when the
    judgment has none), provided that was so at the start, as it is for the
    empty mappings of a new run. *)
Theorem scores_mirror_feedback (k : nat) (n : Node) (s : ArticleState)
  (w : World) :
  mirrored s -> mirrored (steps k n s w).1.2.
Proof.
  intros Hs.
  apply (steps_invariant generator uuid4_hex latex_to_image
           (fun _ s' _ => mirrored s')); [|exact Hs].
  intros n0 s0 w0. apply step_mirrored.
Qed.

Lemma failed_rows_app v article l1 l2 :
  failed_rows v article (l1 ++ l2)
  = failed_rows v article l1 + failed_rows v article l2.
Proof. unfold failed_rows. by rewrite List.filter_app, length_app. Qed.

Lemma step_failed_rows (n : Node) (s : ArticleState) (w : World) (v : string) :
  article_id (step n s w).1.2 = article_id s
  /\ retry_count v (step n s w).1.2
     + failed_rows v (article_id s) (validation_logs (db w))
     = retry_count v s
       + failed_rows v (article_id s) (validation_logs (db (step n s w).2)).
Proof.
  destruct (stage_name n) as [name|] eqn:Hn.
  - destruct (stage_step generator uuid4_hex latex_to_image n name s w Hn)
      as ((Hid & _) & _ & _ & [Hg|[Hr|Hj]]); (split; [exact Hid|]).
    + destruct Hg as (_ & _ & _ & _ & (_ & Hrc & _) & ->).
      unfold retry_count. by rewrite Hrc.
    + destruct Hr as (msg & _ & _ & _ & _ & _ & Hrc & _ & _ & _ & Hdb).
      unfold retry_count. by rewrite Hrc, Hdb.
    + destruct Hj as (result & _ & _ & _ & _ & _ & _ & _ & _ & Hlog & Hacc).
      cbv zeta in Hlog, Hacc. rewrite Hlog, failed_rows_app.
      unfold failed_rows at 3. cbn [List.filter l_article_id l_node_name l_status].
      rewrite String.eqb_refl. cbn [andb].
      destruct Hacc as [(Hlow & _ & Hrc & _)|(Hlow & _ & Hrc & _)];
        rewrite Hlow.
      * unfold retry_count. rewrite Hrc.
        rewrite andb_false_r. simpl. lia.
      * unfold retry_count at 1. rewrite Hrc, RetryFacts.retry_count_insert.
        rewrite andb_true_r.
        destruct (String.eqb_spec name v) as [->|Hne]; simpl; lia.
  - destruct (other_step generator uuid4_hex latex_to_image n s w Hn)
      as (Hid & _ & _ & Hrc & Hlog & _).
    split; [exact Hid|]. unfold retry_count. by rewrite Hrc, Hlog.
Qed.

(** The retry counter of a stage grows in step with the failures logged for
    it: after any number of steps, the counter has grown by the number of
    'failed' rows the run added to the validation log for that stage and
    article. *)
Theorem retry_counter_matches_log (k : nat) (n : Node) (s : ArticleState)
  (w : World) (v : string) :
  retry_count v (steps k n s w).1.2
  + failed_rows v (article_id s) (validation_logs (db w))
  = retry_count v s
    + failed_rows v (article_id s) (validation_logs (db (steps k n s w).2)).
Proof.
  refine (proj2 (steps_invariant generator uuid4_hex latex_to_image
           (fun _ s' w' =>
              article_id s' = article_id s
              /\ retry_count v s'
                 + failed_rows v (article_id s) (validation_logs (db w))
                 = retry_count v s
                   + failed_rows v (article_id s) (validation_logs (db w')))
           _ k n s w _)); [|by split].
  intros n0 s0 w0 [Hid Heq].
  destruct (step_failed_rows n0 s0 w0 v) as [Hid' Hstep].
  rewrite Hid in Hstep. split; [congruence|]. lia.
Qed.

Lemma regenerate_calls_app l1 l2 :
  regenerate_calls (l1 ++ l2) = regenerate_calls l1 + regenerate_calls l2.
Proof. unfold regenerate_calls. by rewrite List.filter_app, length_app. Qed.

Lemma regenerate_calls_requests (n : Node) (s : ArticleState) :
  regenerate_calls (requests n s) = if n is n_regenerate then 1 else 0.
Proof.
  destruct n; cbn [requests stage_name]; try reflexivity.
  - by destruct (validators.check_has_math _).
  - by destruct (validators.check_has_code _).
Qed.

Lemma step_iteration (n : Node) (s : ArticleState) (w : World) :
  iteration (step n s w).1.2 + regenerate_calls (calls w)
  = iteration s + regenerate_calls (calls (step n s w).2).
Proof.
  rewrite step_calls, regenerate_calls_app, regenerate_calls_requests.
  destruct (stage_name n) as [name|] eqn:Hn.
  - destruct (stage_step generator uuid4_hex latex_to_image n name s w Hn)
      as ((_ & _ & _ & _ & _ & Hit & _) & _).
    rewrite Hit. destruct n; try discriminate Hn; lia.
  - destruct (other_step generator uuid4_hex latex_to_image n s w Hn)
      as (_ & _ & _ & _ & _ & Hit).
    rewrite Hit. lia.
Qed.

(** [iteration] counts the regeneration requests sent to the language model,
    those that failed included: after any number of steps it has grown by
    the number of such requests the run made. *)
Theorem iteration_counts_regenerations (k : nat) (n : Node) (s : ArticleState)
  (w : World) :
  iteration (steps k n s w).1.2 + regenerate_calls (calls w)
  = iteration s + regenerate_calls (calls (steps k n s w).2).
Proof.
  apply (steps_invariant generator uuid4_hex latex_to_image
           (fun _ s' w' =>
              iteration s' + regenerate_calls (calls w)
              = iteration s + regenerate_calls (calls w'))); [|done].
  intros n0 s0 w0 H. pose proof (step_iteration n0 s0 w0). lia.
Qed.

Lemma stage_pos_of_node (n : Node) (name : string) :
  stage_name n = Some name -> stage_pos name = Some (node_pos n).
Proof. destruct n; intros [= <-]; reflexivity. Qed.

Lemma next_node_pos (n : Node) (name : string) (s : ArticleState) (w : World) :
  stage_name n = Some name ->
  node_pos (step n s w).1.1 = S (node_pos n).
Proof. destruct n; intros [= <-]; reflexivity. Qed.

Lemma step_within_budget (v : string) (n : Node) (s : ArticleState) (w : World) :
  within_budget v n s ->
  within_budget v (step n s w).1.1 (step n s w).1.2.
Proof.
  intros [Hle Hfull]. destruct (stage_name n) as [name|] eqn:Hn.
  - pose proof (next_node_pos n name s w Hn) as Hpos.
    pose proof (stage_pos_of_node n name Hn) as Hsp.
    assert (node_pos n <> 10) as Hnot10 by (destruct n; discriminate || done).
    assert (forall s' : ArticleState,
              failed_nodes s' = failed_nodes s ->
              retry_counts s' = retry_counts s ->
              within_budget v (step n s w).1.1 s') as Hsame.
    { intros s' Hf Hr. unfold within_budget, retry_count in *. rewrite Hr, Hf.
      split; [done|]. intros H5. destruct (Hfull H5) as [H10|(Hin & p & Hp & Hlt)].
      - done.
      - right. split; [done|]. exists p. split; [done|]. lia. }
    destruct (stage_step generator uuid4_hex latex_to_image n name s w Hn)
      as (_ & _ & _ & [Hg|[Hr|Hj]]).
    + destruct Hg as (_ & _ & _ & _ & (Hf & Hrc & _) & _). by apply Hsame.
    + destruct Hr as (msg & _ & _ & _ & _ & Hf & Hrc & _). by apply Hsame.
    + destruct Hj as (result & _ & _ & _ & _ & _ & _ & _ & _ & _ & Hacc).
      cbv zeta in Hacc.
      destruct Hacc as [(_ & Hf & Hrc & _)|(_ & Hf & Hrc & _)];
        [by apply Hsame|].
      unfold within_budget. unfold retry_count at 1 2.
      rewrite Hrc, RetryFacts.retry_count_insert, Hf.
      destruct (String.eqb_spec name v) as [->|Hne].
      * assert (retry_count v s < settings.MAX_RETRIES) as Hlt.
        { destruct (Nat.eq_dec (retry_count v s) settings.MAX_RETRIES) as [E|E];
            [|lia].
          destruct (Hfull E) as [H10|(_ & p & Hp & Hlt)]; [done|].
          rewrite Hsp in Hp. injection Hp as <-. lia. }
        split; [lia|]. intros _. right. split.
        { apply elem_of_app. right. apply list_elem_of_here. }
        exists (node_pos n). split; [done|]. lia.
      * split; [done|]. intros H5.
        destruct (Hfull H5) as [H10|(Hin & p & Hp & Hlt)]; [done|].
        right. split; [apply elem_of_app; by left|].
        exists p. split; [done|]. lia.
  - assert (forall s' : ArticleState,
              retry_counts s' = retry_counts s ->
              retry_count v s < settings.MAX_RETRIES ->
              within_budget v (step n s w).1.1 s') as Hlow.
    { intros s' Hr Hlt. unfold within_budget, retry_count in *. rewrite Hr.
      split; [lia|]. intros H5. lia. }
    destruct (other_step generator uuid4_hex latex_to_image n s w Hn)
      as (_ & _ & _ & Hrc & _).
    destruct n; try discriminate Hn.
    + apply Hlow; [done|].
      destruct (Nat.eq_dec (retry_count v s) settings.MAX_RETRIES) as [E|E];
        [|lia].
      destruct (Hfull E) as [H10|(_ & p & _ & Hlt)]; [discriminate H10|].
      simpl in Hlt. lia.
    + cbn [ArticleWorkflow.step fst snd] in *.
      destruct (RerunFacts.policy_outcomes s) as [H|[(H & Hne & Hmax)|(v0 & H & Hf)]];
        rewrite H in *; cbn [fst snd] in *.
      * unfold within_budget. split; [done|]. intros _. by left.
      * apply Hlow; [done|].
        destruct (Nat.eq_dec (retry_count v s) settings.MAX_RETRIES) as [E|E];
          [|lia].
        destruct (Hfull E) as [H10|(Hin & _)]; [discriminate H10|].
        assert (max_retries_reached s = true) as Htrue.
        { apply PolicyFacts.max_retries_reached_true. exists v. split; [done|lia]. }
        congruence.
      * apply Hlow; [done|].
        destruct (Nat.eq_dec (retry_count v s) settings.MAX_RETRIES) as [E|E];
          [|lia].
        destruct (Hfull E) as [H10|(Hin & _)]; [discriminate H10|].
        rewrite Hf in Hin. by apply elem_of_nil in Hin.
    + apply Hlow; [done|].
      destruct (Nat.eq_dec (retry_count v s) settings.MAX_RETRIES) as [E|E];
        [|lia].
      destruct (Hfull E) as [H10|(_ & p & _ & Hlt)]; [discriminate H10|].
      simpl in Hlt. lia.
    + unfold within_budget, retry_count in *. rewrite Hrc.
      split; [done|]. intros _. by left.
    + unfold within_budget, retry_count in *. rewrite Hrc.
      split; [done|]. intros _. by left.
Qed.

(** No stage is charged beyond its budget: when a counter is below
    MAX_RETRIES at the start of a run, it never exceeds MAX_RETRIES, however
    long the run and whatever the language model answers. *)
Theorem retry_budget_respected (k : nat) (n : Node) (s : ArticleState)
  (w : World) (v : string) :
  retry_count v s < settings.MAX_RETRIES ->
  retry_count v (steps k n s w).1.2 <= settings.MAX_RETRIES.
Proof.
  intros Hlt.
  refine (proj1 (steps_invariant generator uuid4_hex latex_to_image
                   (fun n' s' _ => within_budget v n' s') _ k n s w _)).
  - intros n0 s0 w0. apply step_within_budget.
  - split; [lia|]. intros H5. lia.
Qed.

End Runs.

Lemma retry_budget_respected_witness :
  retry_count "grammar"
    (steps Scenarios.weak_grammar Scenarios.uuid4_hex Scenarios.latex_to_image
       60 n_generate Scenarios.state0 Scenarios.world0).1.2
  <= settings.MAX_RETRIES.
Proof.
  apply (retry_budget_respected Scenarios.weak_grammar Scenarios.uuid4_hex
           Scenarios.latex_to_image 60 n_generate Scenarios.state0
           Scenarios.world0 "grammar").
  vm_compute. lia.
Defined.

Lemma scores_mirror_feedback_witness :
  let s :=
    (steps Scenarios.weak_grammar Scenarios.uuid4_hex Scenarios.latex_to_image
       60 n_generate Scenarios.state0 Scenarios.world0).1.2 in
  Dict.get "grammar" (scores s)
  = (fun j => default 0%Q (j_score j)) <$> (feedback s !! "grammar").
Proof.
  refine (scores_mirror_feedback Scenarios.weak_grammar Scenarios.uuid4_hex
            Scenarios.latex_to_image 60 n_generate Scenarios.state0
            Scenarios.world0 _ "grammar").
  intros k. reflexivity.
Defined.

End RunInvariants.

(** ** Termination when no request fails *)

Module Termination.
Import ArticleWorkflow StageFacts RunInvariants.

(** A language model whose judgments and regenerations always return. *)
Definition reliable (generator : Generator) : Prop :=
  (forall earlier validator_type content metadata,
      exists j,
        validate_content generator earlier validator_type content metadata
        = Returns j)
  /\ (forall earlier node_name feedback current_content,
        exists parts,
          regenerate_content generator earlier node_name feedback current_content
          = Returns parts).

(** The retries charged so far, over the eight stages. *)
Definition total_retries (s : ArticleState) : nat :=
  sum_list (map (fun v => retry_count v s) stage_names).

(** The retries charged before the present pass. *)
Definition spent (s : ArticleState) : nat :=
  total_retries s - length (failed_nodes s).

(** An upper bound on the steps still to run. *)
Definition potential (n : Node) (s : ArticleState) : nat :=
  match n with
  | END => 0
  | n_finalize => 1
  | n_regenerate => 10 * (32 - spent s) + 2
  | _ => 10 * (32 - spent s) + (12 - node_pos n)
  end.

(** Every stage the present pass has been through has a score, and that
    score is at least the threshold unless the stage is among the failed
    nodes. *)
Definition judged_so_far (n : Node) (s : ArticleState) : Prop :=
  forall v p,
    stage_pos v = Some p -> p < node_pos n ->
    exists q, Dict.get v (scores s) = Some q
              /\ ((settings.MIN_SCORE_THRESHOLD <= q)%Q \/ v ∈ failed_nodes s).

Definition on_track (n : Node) (s : ArticleState) : Prop :=
  (forall v, within_budget v n s)
  /\ (forall v, v ∈ Dict.keys (scores s) -> v ∈ stage_names)
  /\ judged_so_far n s
  /\ length (failed_nodes s) <= total_retries s
  /\ (n = n_regenerate -> failed_nodes s <> [])
  /\ (n = END -> status s = "completed").

Lemma sum_after_insert (l : list string) (name : string) (k : nat)
  (m : gmap string nat) :
  NoDup l -> name ∈ l ->
  sum_list (map (fun v => default 0 (<[name := k]> m !! v)) l)
  + default 0 (m !! name)
  = sum_list (map (fun v => default 0 (m !! v)) l) + k.
Proof.
  induction l as [|u l IH]; intros Hnd Hin; [by apply elem_of_nil in Hin|].
  apply NoDup_cons in Hnd as [Hu Hnd]. simpl.
  destruct (decide (name = u)) as [->|Hne].
  - rewrite lookup_insert_eq. simpl.
    assert (map (fun v => default 0 (<[u := k]> m !! v)) l
            = map (fun v => default 0 (m !! v)) l) as ->.
    { apply map_ext_in. intros v Hv. rewrite lookup_insert_ne; [done|].
      intros ->. apply Hu. by apply list_elem_of_In. }
    lia.
  - rewrite lookup_insert_ne by done.
    apply elem_of_cons in Hin as [Heq|Hin]; [done|].
    specialize (IH Hnd Hin). lia.
Qed.

Lemma stage_names_nodup : NoDup stage_names.
Proof. compute_done. Qed.

Lemma stage_name_listed (n : Node) (name : string) :
  stage_name n = Some name -> name ∈ stage_names.
Proof.
  destruct n; intros [= <-]; unfold stage_names; set_solver.
Qed.

Lemma total_retries_charged (s s' : ArticleState) (name : string) :
  name ∈ stage_names ->
  retry_counts s' = <[name := retry_count name s + 1]> (retry_counts s) ->
  total_retries s' = total_retries s + 1.
Proof.
  intros Hin Hrc. unfold total_retries. unfold retry_count at 1. rewrite Hrc.
  unfold retry_count.
  pose proof (sum_after_insert stage_names name
                (default 0 (retry_counts s !! name) + 1) (retry_counts s)
                stage_names_nodup Hin) as H.
  lia.
Qed.

Lemma total_retries_same (s s' : ArticleState) :
  retry_counts s' = retry_counts s -> total_retries s' = total_retries s.
Proof. intros H. unfold total_retries, retry_count. by rewrite H. Qed.

Lemma stage_pos_listed (v : string) (p : nat) :
  stage_pos v = Some p -> v ∈ stage_names /\ exists i, p = S i /\ stage_names !! i = Some v.
Proof.
  unfold stage_pos.
  destruct (list_find _ _) as [[i u]|] eqn:E; [|done].
  intros [= <-]. apply list_find_Some in E as (Hi & -> & _).
  split; [by eapply list_elem_of_lookup_2|]. by exists i.
Qed.

Lemma stage_pos_inj (u v : string) (p : nat) :
  stage_pos u = Some p -> stage_pos v = Some p -> u = v.
Proof.
  intros Hu Hv.
  apply stage_pos_listed in Hu as (_ & i & -> & Hi).
  apply stage_pos_listed in Hv as (_ & j & [= <-] & Hj). congruence.
Qed.

Lemma stage_pos_some (v : string) :
  v ∈ stage_names -> exists p, stage_pos v = Some p /\ p < 9.
Proof.
  unfold stage_names. intros Hin.
  repeat (apply elem_of_cons in Hin as [->|Hin];
          [eexists; split; [vm_compute; reflexivity|lia]|]).
  by apply elem_of_nil in Hin.
Qed.

Lemma dict_keys_set {V} (name v : string) (q : V) (d : Dict.t V) :
  v ∈ Dict.keys (Dict.set name q d) -> v = name \/ v ∈ Dict.keys d.
Proof.
  unfold Dict.keys. induction d as [|[k' x] d IH]; simpl.
  - intros H. apply list_elem_of_singleton in H. by left.
  - destruct (String.eqb name k'); simpl.
    + intros H. by right.
    + intros H. apply elem_of_cons in H as [->|H].
      * right. apply list_elem_of_here.
      * destruct (IH H) as [->|H']; [by left|].
        right. by apply list_elem_of_further.
Qed.

Lemma dict_get_listed {V} (v : string) (d : Dict.t V) :
  v ∈ Dict.keys d -> exists q, Dict.get v d = Some q.
Proof.
  unfold Dict.keys. induction d as [|[k' x] d IH]; simpl.
  - intros H. by apply elem_of_nil in H.
  - intros H. destruct (String.eqb_spec v k') as [->|Hne]; [by eexists|].
    apply elem_of_cons in H as [->|H]; [done|]. by apply IH.
Qed.

Lemma stage_pos_bound (v : string) (p : nat) :
  stage_pos v = Some p -> 1 <= p /\ p < 9.
Proof.
  intros H. destruct (stage_pos_listed v p H) as (Hin & i & -> & _).
  destruct (stage_pos_some v Hin) as (p' & Hp' & Hlt).
  rewrite H in Hp'. injection Hp' as <-. lia.
Qed.

Lemma total_retries_bound (s : ArticleState) :
  (forall v, retry_count v s < settings.MAX_RETRIES) -> total_retries s <= 32.
Proof.
  intros H. unfold total_retries, stage_names. simpl.
  pose proof (H "structure"). pose proof (H "language").
  pose proof (H "grammar"). pose proof (H "length"). pose proof (H "math").
  pose proof (H "depth"). pose proof (H "readability"). pose proof (H "code").
  unfold settings.MAX_RETRIES in *. lia.
Qed.

(** When the policy asks for a regeneration without any failed node, it has
    found a score below the threshold. *)
Lemma policy_blames_low (s : ArticleState) :
  failed_nodes s = [] -> (should_regenerate s).1 = regenerate ->
  exists v, v ∈ Dict.keys (scores s)
            /\ (score_of (scores s) v < settings.MIN_SCORE_THRESHOLD)%Q.
Proof.
  intros Hf. unfold should_regenerate. rewrite Hf.
  destruct (Qlt_bool _ _); [|done].
  destruct (min_node (scores s)) as [v|] eqn:Hmin; [|done].
  destruct (Qlt_bool (score_of _ _) _) eqn:Hlow; [|done].
  intros _. exists v. split.
  - apply PolicyFacts.min_node_lowest in Hmin as (i & Hi & _).
    by eapply list_elem_of_lookup_2.
  - by apply PolicyFacts.Qlt_bool_true.
Qed.

Section Runs.

Variable generator : Generator.
Variable uuid4_hex : nat -> string.
Variable latex_to_image : string -> string -> bool -> bool.
Hypothesis Hreliable : reliable generator.

Abbreviation step := (step generator uuid4_hex latex_to_image).
Abbreviation steps := (steps generator uuid4_hex latex_to_image).

(** With a reliable language model a stage records a score, and either the
    score is at least the threshold and the account is untouched, or the
    stage is appended to the failed nodes and charged one retry. *)
Lemma stage_summary (n : Node) (name : string) (s : ArticleState) (w : World) :
  stage_name n = Some name ->
  exists q,
    scores (step n s w).1.2 = Dict.set name q (scores s)
    /\ (((settings.MIN_SCORE_THRESHOLD <= q)%Q
         /\ failed_nodes (step n s w).1.2 = failed_nodes s
         /\ retry_counts (step n s w).1.2 = retry_counts s)
        \/ (failed_nodes (step n s w).1.2 = failed_nodes s ++ [name]
            /\ retry_counts (step n s w).1.2
               = <[name := retry_count name s + 1]> (retry_counts s))).
Proof.
  intros Hn.
  destruct (stage_step generator uuid4_hex latex_to_image n name s w Hn)
    as (_ & _ & _ & [Hg|[Hr|Hj]]).
  - destruct Hg as (_ & Hsc & _ & _ & (Hf & Hrc & _) & _).
    exists 10%Q. split; [done|]. left. split; [|done].
    unfold settings.MIN_SCORE_THRESHOLD, Qle. simpl. lia.
  - destruct Hr as (msg & Hcall & _).
    destruct (proj1 Hreliable (calls w) name (content s) (metadata s)) as [j Hj].
    congruence.
  - destruct Hj as (result & _ & Hsc & _ & _ & _ & _ & _ & _ & _ & Hacc).
    cbv zeta in Hsc, Hacc. eexists. split; [exact Hsc|].
    destruct Hacc as [(Hlow & Hf & Hrc & _)|(_ & Hf & Hrc & _)].
    + left. split; [by apply PolicyFacts.Qlt_bool_false|done].
    + by right.
Qed.

Lemma stage_on_track (n : Node) (name : string) (s : ArticleState) (w : World) :
  stage_name n = Some name -> on_track n s ->
  on_track (step n s w).1.1 (step n s w).1.2
  /\ potential (step n s w).1.1 (step n s w).1.2 < potential n s.
Proof.
  intros Hn (Hbudget & Hkeys & Hjudged & Hlen & _ & _).
  pose proof (next_node_pos generator uuid4_hex latex_to_image n name s w Hn)
    as Hpos.
  pose proof (stage_pos_of_node n name Hn) as Hsp.
  pose proof (stage_name_listed n name Hn) as Hlisted.
  destruct (stage_summary n name s w Hn) as (q & Hsc & Hacc).
  assert (failed_nodes s ⊆ failed_nodes (step n s w).1.2) as Hsub.
  { destruct Hacc as [(_ & -> & _)|(-> & _)]; [done|].
    intros x Hx. apply elem_of_app. by left. }
  assert (length (failed_nodes (step n s w).1.2)
          <= total_retries (step n s w).1.2
          /\ spent (step n s w).1.2 = spent s) as [Hlen' Hspent].
  { unfold spent. destruct Hacc as [(_ & Hf & Hrc)|(Hf & Hrc)].
    - rewrite Hf, (total_retries_same _ _ Hrc). by split.
    - rewrite Hf, (total_retries_charged _ _ name Hlisted Hrc), length_app.
      simpl. split; lia. }
  split.
  - split; [|split; [|split; [|split; [|split]]]].
    + intros v. apply step_within_budget, Hbudget.
    + intros v Hv. rewrite Hsc in Hv.
      apply dict_keys_set in Hv as [->|Hv]; [done|by apply Hkeys].
    + intros v p Hp Hlt. rewrite Hpos in Hlt. rewrite Hsc, dict_set_lookup.
      destruct (String.eqb_spec name v) as [->|Hne].
      * exists q. split; [done|].
        destruct Hacc as [(Hq & _)|(Hf & _)]; [by left|].
        right. rewrite Hf. apply elem_of_app. right. apply list_elem_of_here.
      * assert (p < node_pos n) as Hlt'.
        { destruct (Nat.eq_dec p (node_pos n)) as [->|]; [|lia].
          exfalso. apply Hne. by eapply stage_pos_inj. }
        destruct (Hjudged v p Hp Hlt') as (q0 & Hq0 & Hok).
        exists q0. split; [done|]. destruct Hok as [Hok|Hok]; [by left|].
        right. by apply Hsub.
    + exact Hlen'.
    + intros Hnext. rewrite Hnext in Hpos. simpl in Hpos. lia.
    + intros Hnext. rewrite Hnext in Hpos. simpl in Hpos.
      destruct n; discriminate Hn || (simpl in Hpos; lia).
  - destruct n; try discriminate Hn;
      cbn [ArticleWorkflow.step fst snd potential node_pos] in *;
      rewrite Hspent; lia.
Qed.

Lemma generate_keeps_failed (s : ArticleState) (w : World) :
  failed_nodes (generate_node generator uuid4_hex s w).1 = failed_nodes s.
Proof.
  unfold generate_node. destruct (generate_article _ _ _); [|done].
  cbv zeta. checkpoint_effect H. destruct H as (Hst & _).
  destruct Hst as [(-> & _)|(m & -> & _)]; by destruct (Re.search _ _).
Qed.

Lemma finalize_keeps_failed (s : ArticleState) (w : World) :
  failed_nodes (finalize_node latex_to_image s w).1 = failed_nodes s.
Proof.
  unfold finalize_node. cbv zeta.
  change (has_math (set_current_node "finalize" s)) with (has_math s).
  by destruct (has_math s).
Qed.

Lemma regenerate_clears_failed (s : ArticleState) (w : World) :
  failed_nodes (regenerate_node generator uuid4_hex s w).1 = [].
Proof.
  unfold regenerate_node.
  destruct (proj2 Hreliable (calls w)
              (node_names_of (set_iteration (iteration s + 1)
                                (set_current_node "regenerate" s)))
              (feedback_text_of (set_iteration (iteration s + 1)
                                   (set_current_node "regenerate" s)))
              (content (set_iteration (iteration s + 1)
                          (set_current_node "regenerate" s))))
    as [parts Hparts].
  rewrite Hparts. cbv zeta. checkpoint_effect H. destruct H as (Hst & _).
  by destruct Hst as [(-> & _)|(m & -> & _)].
Qed.

Lemma low_counters (n : Node) (s : ArticleState) :
  node_pos n = 0 -> (forall v, within_budget v n s) ->
  forall v, retry_count v s < settings.MAX_RETRIES.
Proof.
  intros Hpos Hbudget v. destruct (Hbudget v) as [Hle Hfull].
  destruct (Nat.eq_dec (retry_count v s) settings.MAX_RETRIES) as [E|E]; [|lia].
  destruct (Hfull E) as [H10|(_ & p & _ & Hlt)]; lia.
Qed.

Lemma judged_so_far_start (n : Node) (s : ArticleState) :
  node_pos n <= 1 -> judged_so_far n s.
Proof.
  intros Hpos v p Hp Hlt. apply stage_pos_bound in Hp. lia.
Qed.

(** Each step of a run on track keeps it on track and brings it nearer to
    its end. *)
Lemma step_on_track (n : Node) (s : ArticleState) (w : World) :
  n <> END -> on_track n s ->
  on_track (step n s w).1.1 (step n s w).1.2
  /\ potential (step n s w).1.1 (step n s w).1.2 < potential n s.
Proof.
  intros Hend Htrack.
  destruct (stage_name n) as [name|] eqn:Hn; [by eapply stage_on_track|].
  destruct Htrack as (Hbudget & Hkeys & Hjudged & Hlen & Hregen & _).
  assert (forall v, within_budget v (step n s w).1.1 (step n s w).1.2) as Hbudget'
    by (intros v; apply step_within_budget, Hbudget).
  destruct (other_step generator uuid4_hex latex_to_image n s w Hn)
    as (_ & Hsc & _ & Hrc & _).
  pose proof (total_retries_same _ _ Hrc) as HT.
  destruct n; try discriminate Hn; try done.
  - (* generate *)
    cbn [ArticleWorkflow.step fst snd] in *.
    pose proof (generate_keeps_failed s w) as Hf.
    split.
    + split; [done|]. split; [by rewrite Hsc|].
      split; [apply judged_so_far_start; simpl; lia|].
      split; [by rewrite Hf, HT|]. split; intros H; discriminate H.
    + unfold potential, spent. cbn [node_pos]. rewrite Hf, HT. lia.
  - (* decide *)
    cbn [ArticleWorkflow.step fst snd] in *.
    destruct (RerunFacts.policy_outcomes s) as [H|[(H & Hne & Hmax)|(v0 & H & Hf)]].
    + rewrite H in *. cbn [fst snd] in *. split.
      * split; [done|]. split; [done|]. split.
        { intros v p Hp _. apply (Hjudged v p Hp).
          apply stage_pos_bound in Hp. simpl. lia. }
        split; [done|]. split; intros E; discriminate E.
      * unfold potential. simpl. lia.
    + rewrite H in *. cbn [fst snd] in *. split.
      * split; [done|]. split; [done|].
        split; [apply judged_so_far_start; simpl; lia|].
        split; [done|]. split; [done|]. intros E; discriminate E.
      * unfold potential. simpl. lia.
    + exfalso.
      destruct (policy_blames_low s Hf) as (v & Hv & Hlow); [by rewrite H|].
      destruct (stage_pos_some v (Hkeys v Hv)) as (p & Hp & Hlt).
      destruct (Hjudged v p Hp) as (q & Hq & [Hok|Hin]); [simpl; lia| |].
      * unfold score_of in Hlow. rewrite Hq in Hlow. simpl in Hlow.
        by apply (Qlt_not_le _ _ Hlow).
      * rewrite Hf in Hin. by apply elem_of_nil in Hin.
  - (* regenerate *)
    cbn [ArticleWorkflow.step fst snd] in *.
    pose proof (regenerate_clears_failed s w) as Hf.
    pose proof (total_retries_bound s (low_counters n_regenerate s eq_refl Hbudget))
      as HT32.
    assert (1 <= length (failed_nodes s)) as Hone.
    { specialize (Hregen eq_refl). destruct (failed_nodes s); [done|simpl; lia]. }
    split.
    + split; [done|]. split; [by rewrite Hsc|].
      split; [apply judged_so_far_start; simpl; lia|].
      split; [rewrite Hf; simpl; lia|]. split; intros E; discriminate E.
    + unfold potential, spent. cbn [node_pos]. rewrite Hf, HT. simpl length. lia.
  - (* finalize *)
    cbn [ArticleWorkflow.step fst snd] in *.
    pose proof (finalize_keeps_failed s w) as Hf.
    split.
    + split; [done|]. split; [by rewrite Hsc|]. split.
      { intros v p Hp _. rewrite Hsc, Hf. apply (Hjudged v p Hp).
        apply stage_pos_bound in Hp. simpl. lia. }
      split; [by rewrite Hf, HT|]. split; [intros E; discriminate E|].
      intros _. reflexivity.
    + unfold potential. lia.
Qed.

Lemma at_end_or_not (n : Node) : n = END \/ n <> END.
Proof. destruct n; (by left) || (by right). Qed.

Lemma steps_reach_end (k : nat) :
  forall (n : Node) (s : ArticleState) (w : World),
    on_track n s -> potential n s <= k ->
    (steps k n s w).1.1 = END /\ status (steps k n s w).1.2 = "completed".
Proof.
  induction k as [|k IH]; intros n s w Htrack Hpot.
  - destruct (at_end_or_not n) as [->|Hne].
    + split; [done|]. by apply Htrack.
    + destruct (step_on_track n s w Hne Htrack) as [_ Hlt]. lia.
  - destruct (at_end_or_not n) as [->|Hne].
    + split; [done|]. by apply Htrack.
    + destruct (step_on_track n s w Hne Htrack) as [Htrack' Hlt].
      assert ((steps k (step n s w).1.1 (step n s w).1.2 (step n s w).2).1.1 = END
              /\ status (steps k (step n s w).1.1 (step n s w).1.2
                           (step n s w).2).1.2 = "completed") as H
        by (apply IH; [done|lia]).
      destruct n; try exact H. done.
Qed.

(** With a language model whose judgments and regenerations always return,
    a run that starts with no failed node, scores for stages only (none, for
    a new run) and every retry counter below MAX_RETRIES reaches the end
    within 332 steps, with status 'completed'. *)
Theorem reliable_run_completes (s : ArticleState) (w : World) :
  failed_nodes s = [] ->
  (forall v, v ∈ Dict.keys (scores s) -> v ∈ stage_names) ->
  (forall v, retry_count v s < settings.MAX_RETRIES) ->
  exists s' w',
    run generator uuid4_hex latex_to_image 332 s w = Some (s', w')
    /\ status s' = "completed".
Proof.
  intros Hf Hkeys Hlow.
  assert (on_track n_generate s) as Htrack.
  { split; [|split; [|split; [|split; [|split]]]].
    - intros v. specialize (Hlow v). split; [lia|]. intros E. lia.
    - exact Hkeys.
    - apply judged_so_far_start. simpl. lia.
    - rewrite Hf. simpl. lia.
    - intros E. discriminate E.
    - intros E. discriminate E. }
  assert (potential n_generate s <= 332) as Hpot
    by (unfold potential; simpl; lia).
  destruct (steps_reach_end 332 n_generate s w Htrack Hpot) as [Hend Hstatus].
  unfold run.
  destruct (steps 332 n_generate s w) as [[n' s'] w'] eqn:E.
  simpl in Hend, Hstatus. subst n'. by exists s', w'.
Qed.

End Runs.

Lemma weak_grammar_reliable : reliable Scenarios.weak_grammar.
Proof.
  split.
  - intros earlier validator_type content metadata. simpl.
    destruct (String.eqb validator_type "grammar"); by eexists.
  - intros. by eexists.
Qed.

Lemma reliable_run_completes_witness :
  exists s' w',
    run Scenarios.weak_grammar Scenarios.uuid4_hex Scenarios.latex_to_image 332
      Scenarios.state0 Scenarios.world0 = Some (s', w')
    /\ status s' = "completed".
Proof.
  apply (reliable_run_completes Scenarios.weak_grammar Scenarios.uuid4_hex
           Scenarios.latex_to_image weak_grammar_reliable Scenarios.state0
           Scenarios.world0).
  - reflexivity.
  - intros v Hv. by apply elem_of_nil in Hv.
  - intros v. vm_compute. lia.
Defined.

End Termination.

(** ** The requests of one pass *)

Module PassFacts.
Import ArticleWorkflow StageFacts.

(** The stage a validation request is for. *)
Definition validator_types (cs : list AdapterCall) : list string :=
  omap (fun c => match c with
                 | CallValidate validator_type _ _ => Some validator_type
                 | _ => None
                 end) cs.

(** The stages that ask the language model about a draft: math and code
    only when the draft has an equation or a fenced block. *)
Definition asking_stages (content : string) : list string :=
  ["structure"; "language"; "grammar"; "length"]
  ++ (if validators.check_has_math content then ["math"] else [])
  ++ ["depth"; "readability"]
  ++ (if validators.check_has_code content then ["code"] else []).

Definition about (content : string) (c : AdapterCall) : Prop :=
  exists validator_type metadata, c = CallValidate validator_type content metadata.

Section Runs.

Variable generator : Generator.
Variable uuid4_hex : nat -> string.
Variable latex_to_image : string -> string -> bool -> bool.

Abbreviation step := (step generator uuid4_hex latex_to_image).
Abbreviation steps := (steps generator uuid4_hex latex_to_image).

(** What one validator node adds to the requests, and that it leaves the
    draft alone. *)
Lemma stage_requests (n : Node) (name : string) (s : ArticleState) (w : World) :
  stage_name n = Some name ->
  content (step n s w).1.2 = content s
  /\ exists cs,
       calls (step n s w).2 = calls w ++ cs
       /\ Forall (about (content s)) cs
       /\ validator_types cs
          = match n with
            | n_validate_math =>
                if validators.check_has_math (content s) then ["math"] else []
            | n_validate_code =>
                if validators.check_has_code (content s) then ["code"] else []
            | _ => [name]
            end.
Proof.
  intros Hn.
  destruct (stage_step generator uuid4_hex latex_to_image n name s w Hn)
    as ((_ & _ & _ & Hc & _) & _).
  split; [exact Hc|]. exists (requests n s). split; [apply step_calls|].
  destruct n; try discriminate Hn; injection Hn as <-;
    cbn [requests stage_name];
    try (destruct (validators.check_has_math _));
    try (destruct (validators.check_has_code _));
    (split; [repeat constructor; by eexists _, _|reflexivity]).
Qed.

(** From the first validator node, eight steps lead to the decision point
    with the draft unchanged, and the requests sent on the way are, in this
    order, those for structure, language, grammar, length, math (only if the
    draft has an equation), depth, readability and code (only if the draft
    has a fenced block), each about that same draft, whatever the language
    model answers. *)
Theorem pass_asks_each_stage_once (s : ArticleState) (w : World) :
  let r := steps 8 n_validate_structure s w in
  r.1.1 = n_decide
  /\ content r.1.2 = content s
  /\ exists cs,
       calls r.2 = calls w ++ cs
       /\ Forall (about (content s)) cs
       /\ validator_types cs = asking_stages (content s).
Proof.
  cbv zeta.
  set (c1 := step n_validate_structure s w).
  set (c2 := step n_validate_language c1.1.2 c1.2).
  set (c3 := step n_validate_grammar c2.1.2 c2.2).
  set (c4 := step n_validate_length c3.1.2 c3.2).
  set (c5 := step n_validate_math c4.1.2 c4.2).
  set (c6 := step n_validate_depth c5.1.2 c5.2).
  set (c7 := step n_validate_readability c6.1.2 c6.2).
  set (c8 := step n_validate_code c7.1.2 c7.2).
  change (steps 8 n_validate_structure s w) with (n_decide, c8.1.2, c8.2).
  cbn [fst snd].
  destruct (stage_requests n_validate_structure _ s w eq_refl)
    as (H1 & l1 & Hl1 & Ha1 & Ht1).
  destruct (stage_requests n_validate_language _ c1.1.2 c1.2 eq_refl)
    as (H2 & l2 & Hl2 & Ha2 & Ht2).
  destruct (stage_requests n_validate_grammar _ c2.1.2 c2.2 eq_refl)
    as (H3 & l3 & Hl3 & Ha3 & Ht3).
  destruct (stage_requests n_validate_length _ c3.1.2 c3.2 eq_refl)
    as (H4 & l4 & Hl4 & Ha4 & Ht4).
  destruct (stage_requests n_validate_math _ c4.1.2 c4.2 eq_refl)
    as (H5 & l5 & Hl5 & Ha5 & Ht5).
  destruct (stage_requests n_validate_depth _ c5.1.2 c5.2 eq_refl)
    as (H6 & l6 & Hl6 & Ha6 & Ht6).
  destruct (stage_requests n_validate_readability _ c6.1.2 c6.2 eq_refl)
    as (H7 & l7 & Hl7 & Ha7 & Ht7).
  destruct (stage_requests n_validate_code _ c7.1.2 c7.2 eq_refl)
    as (H8 & l8 & Hl8 & Ha8 & Ht8).
  fold c1 in H1, Hl1. fold c2 in H2, Hl2. fold c3 in H3, Hl3.
  fold c4 in H4, Hl4. fold c5 in H5, Hl5. fold c6 in H6, Hl6.
  fold c7 in H7, Hl7. fold c8 in H8, Hl8.
  assert (content c7.1.2 = content s) as E7 by congruence.
  assert (content c6.1.2 = content s) as E6 by congruence.
  assert (content c5.1.2 = content s) as E5 by congruence.
  assert (content c4.1.2 = content s) as E4 by congruence.
  assert (content c3.1.2 = content s) as E3 by congruence.
  assert (content c2.1.2 = content s) as E2 by congruence.
  rewrite E7 in *. rewrite E6 in *. rewrite E5 in *. rewrite E4 in *.
  rewrite E3 in *. rewrite E2 in *. rewrite H1 in *.
  split; [reflexivity|]. split; [congruence|].
  exists (l1 ++ l2 ++ l3 ++ l4 ++ l5 ++ l6 ++ l7 ++ l8). split.
  - rewrite Hl8, Hl7, Hl6, Hl5, Hl4, Hl3, Hl2, Hl1.
    by rewrite <- !app_assoc.
  - split; [by repeat (apply Forall_app; split)|].
    unfold validator_types in *. rewrite !omap_app.
    rewrite Ht1, Ht2, Ht3, Ht4, Ht5, Ht6, Ht7, Ht8. reflexivity.
Qed.

End Runs.

End PassFacts.

(** * The remaining database operations (database/operations.py) *)

Module db_queries.
Import db_ops.

(** [ORDER BY key]: rows in ascending key order; rows with equal keys keep
    their insertion order. *)
Fixpoint insert_by {A} (key : A -> nat) (x : A) (l : list A) : list A :=
  match l with
  | [] => [x]
  | y :: l' => if key x <=? key y then x :: l else y :: insert_by key x l'
  end.

Fixpoint order_by {A} (key : A -> nat) (l : list A) : list A :=
  match l with
  | [] => []
  | x :: l' => insert_by key x (order_by key l')
  end.

Definition get_versions (article_id : string) (d : Database)
  : list ArticleVersion :=
  order_by version_number (versions_of article_id d).

(** Rows of one article in the order they were logged. *)
Definition get_validation_logs (article_id : string) (d : Database)
  : list ValidationLog :=
  List.filter (fun l => String.eqb (l_article_id l) article_id)
              (validation_logs d).

Definition get_next_in_queue (d : Database) : option string :=
  q_session_id <$> head (order_by position (List.filter queued (article_queue d))).

End db_queries.

Module DbFacts.
Import db_ops db_queries.

Lemma find_none_existsb {A} (p : A -> bool) (l : list A) :
  find p l = None <-> existsb p l = false.
Proof.
  induction l as [|x l IH]; simpl; [done|].
  destruct (p x); simpl; [split; discriminate|exact IH].
Qed.

Lemma find_app_fresh {A} (p : A -> bool) (l : list A) (x : A) :
  find p (l ++ [x]) = match find p l with
                      | Some y => Some y
                      | None => if p x then Some x else None
                      end.
Proof.
  induction l as [|y l IH]; simpl; [done|]. by destruct (p y).
Qed.

Lemma create_article_fresh (article_id session_id title author : string)
  (metadata : gmap string Value) (d : Database) :
  get_article article_id d = None ->
  create_article article_id session_id title author metadata d
  = Returns (with_articles
               (articles d ++
                  [{| a_id := article_id; a_session_id := session_id;
                      a_title := title; a_content := EmptyString;
                      a_author := author; a_article_metadata := metadata;
                      a_status := "processing"; a_overall_score := 0;
                      a_updated_at := None |}]) d).
Proof.
  unfold get_article, create_article. intros Hnone.
  by rewrite (proj1 (find_none_existsb _ _) Hnone).
Qed.

Lemma create_article_taken (article_id session_id title author : string)
  (metadata : gmap string Value) (d : Database) (a : Article) :
  get_article article_id d = Some a ->
  create_article article_id session_id title author metadata d
  = Raises "IntegrityError".
Proof.
  unfold get_article, create_article. intros Ha.
  destruct (existsb _ _) eqn:E; [done|].
  apply find_none_existsb in E. congruence.
Qed.

Lemma get_article_appended (article_id : string) (row : Article) (d : Database) :
  get_article article_id (with_articles (articles d ++ [row]) d)
  = match get_article article_id d with
    | Some a => Some a
    | None => if String.eqb (a_id row) article_id then Some row else None
    end.
Proof. unfold get_article. simpl. by rewrite find_app_fresh. Qed.

(** Creating an article whose id is new stores a row in status 'processing'
    with empty content, which [get_article] then returns, and leaves every
    other id as it was; creating one whose id is taken raises. *)
Theorem create_article_then_get (article_id session_id title author : string)
  (metadata : gmap string Value) (d : Database) :
  (get_article article_id d = None ->
   exists d',
     create_article article_id session_id title author metadata d = Returns d'
     /\ get_article article_id d'
        = Some {| a_id := article_id; a_session_id := session_id;
                  a_title := title; a_content := EmptyString;
                  a_author := author; a_article_metadata := metadata;
                  a_status := "processing"; a_overall_score := 0;
                  a_updated_at := None |}
     /\ (forall other, other <> article_id ->
           get_article other d' = get_article other d)
     /\ article_versions d' = article_versions d
     /\ article_queue d' = article_queue d)
  /\ (forall a, get_article article_id d = Some a ->
        create_article article_id session_id title author metadata d
        = Raises "IntegrityError").
Proof.
  split.
  - intros Hnone. eexists. split; [by apply create_article_fresh|].
    split; [|split; [|done]].
    + rewrite get_article_appended, Hnone. simpl. by rewrite String.eqb_refl.
    + intros other Hother. rewrite get_article_appended. simpl.
      rewrite (proj2 (String.eqb_neq article_id other)) by congruence.
      by case_match.
  - intros a Ha. by eapply create_article_taken.
Qed.

Lemma update_first_absent {A} (p : A -> bool) (f : A -> A) (l : list A) :
  find p l = None -> update_first p f l = l.
Proof.
  induction l as [|x l IH]; simpl; [done|].
  destruct (p x); [discriminate|]. intros H. by rewrite IH.
Qed.

Lemma find_update_other {A} (p p' : A -> bool) (f : A -> A) (l : list A) :
  (forall x, p' (f x) = p' x) ->
  (forall x, p x = true -> p' x = false) ->
  find p' (update_first p f l) = find p' l.
Proof.
  intros Hf Hdisj. induction l as [|x l IH]; simpl; [done|].
  destruct (p x) eqn:E; simpl.
  - rewrite Hf, (Hdisj x E). done.
  - by rewrite IH.
Qed.

Lemma get_updated_article (article_id : string) (content status : option string)
  (score : option Q) (now : nat) (d : Database) :
  get_article article_id (update_article article_id content status score now d)
  = update_row content status score now <$> get_article article_id d.
Proof.
  unfold get_article, update_article. simpl.
  by apply StatusFacts.find_update_first.
Qed.

(** [update_article] writes the given fields into the row with that id and
    keeps the fields given as None; the rows of other ids are untouched; for
    an id that has no row nothing changes and nothing is raised. *)
Theorem update_article_changes_one_row (article_id : string)
  (content status : option string) (score : option Q) (now : nat)
  (d : Database) :
  let d' := update_article article_id content status score now d in
  get_article article_id d'
  = update_row content status score now <$> get_article article_id d
  /\ (forall a, get_article article_id d = Some a ->
        exists a', get_article article_id d' = Some a'
          /\ a_content a' = default (a_content a) content
          /\ a_status a' = default (a_status a) status
          /\ a_overall_score a' = default (a_overall_score a) score
          /\ a_title a' = a_title a /\ a_author a' = a_author a
          /\ a_session_id a' = a_session_id a)
  /\ (forall other, other <> article_id ->
        get_article other d' = get_article other d)
  /\ (get_article article_id d = None -> d' = d).
Proof.
  cbv zeta.
  pose proof (get_updated_article article_id content status score now d) as Hget.
  unfold get_article, update_article in *. simpl in *.
  split; [exact Hget|]. split; [|split].
  - intros a Ha. rewrite Hget, Ha. simpl. eexists. split; [reflexivity|].
    by repeat split.
  - intros other Hother. apply find_update_other; [done|].
    intros x Hx. apply String.eqb_eq in Hx. apply String.eqb_neq. congruence.
  - intros Hnone. rewrite update_first_absent by done. by destruct d.
Qed.

(** A state without [datetime] values, saved under an id that is not taken
    yet, is what [get_checkpoint] then returns for that id, and the
    checkpoints under the other ids are returned as before. Saving a state
    that holds a [datetime], as every state built by the generation endpoint
    does, raises, and so does saving under an id that is taken; nothing is
    stored then. *)
Theorem checkpoint_saved_then_loaded (checkpoint_id article_id node_name : string)
  (data : ArticleState) (d : Database) :
  (json_serializable data = true -> get_checkpoint checkpoint_id d = None ->
   exists d',
     save_checkpoint checkpoint_id article_id node_name data d = Returns d'
     /\ get_checkpoint checkpoint_id d'
        = Some {| c_id := checkpoint_id; c_article_id := article_id;
                  c_node_name := node_name; state_data := data |}
     /\ (forall other, other <> checkpoint_id ->
           get_checkpoint other d' = get_checkpoint other d)
     /\ articles d' = articles d /\ article_versions d' = article_versions d)
  /\ (json_serializable data = false ->
      exists msg,
        save_checkpoint checkpoint_id article_id node_name data d = Raises msg)
  /\ (forall c, get_checkpoint checkpoint_id d = Some c ->
        exists msg,
          save_checkpoint checkpoint_id article_id node_name data d = Raises msg)
  /\ (forall session article requirements utcnow,
        json_serializable
          (routes.initial_state session article requirements utcnow) = false).
Proof.
  unfold get_checkpoint, save_checkpoint. split; [|split; [|split]].
  - intros -> Hnone. cbn [negb].
    rewrite (proj1 (find_none_existsb _ _) Hnone).
    eexists. split; [reflexivity|]. simpl. split; [|split; [|done]].
    + rewrite find_app_fresh, Hnone. simpl. by rewrite String.eqb_refl.
    + intros other Hother. rewrite find_app_fresh. simpl.
      rewrite (proj2 (String.eqb_neq checkpoint_id other)) by congruence.
      by case_match.
  - intros ->. by eexists.
  - intros c Hc. destruct (negb _); [by eexists|].
    destruct (existsb _ _) eqn:E; [by eexists|].
    apply find_none_existsb in E. congruence.
  - done.
Qed.

Lemma checkpoint_saved_then_loaded_witness :
  match save_checkpoint "article_3f9c1d2e4b7a_generate_0000abcd"
          "article_3f9c1d2e4b7a" "generate" Scenarios.reloaded0 empty_db with
  | Returns d' =>
      get_checkpoint "article_3f9c1d2e4b7a_generate_0000abcd" d'
      = Some {| c_id := "article_3f9c1d2e4b7a_generate_0000abcd";
                c_article_id := "article_3f9c1d2e4b7a";
                c_node_name := "generate";
                state_data := Scenarios.reloaded0 |}
  | Raises _ => False
  end.
Proof.
  destruct (proj1 (checkpoint_saved_then_loaded
                     "article_3f9c1d2e4b7a_generate_0000abcd"
                     "article_3f9c1d2e4b7a" "generate" Scenarios.reloaded0
                     empty_db) eq_refl eq_refl) as (d' & Hsave & Hget & _).
  rewrite Hsave. exact Hget.
Defined.

Lemma insert_by_perm {A} (key : A -> nat) (x : A) (l : list A) :
  insert_by key x l ≡ₚ x :: l.
Proof.
  induction l as [|y l IH]; simpl; [done|].
  destruct (key x <=? key y); [done|]. rewrite IH. apply Permutation_swap.
Qed.

Lemma order_by_perm {A} (key : A -> nat) (l : list A) : order_by key l ≡ₚ l.
Proof.
  induction l as [|x l IH]; simpl; [done|]. by rewrite insert_by_perm, IH.
Qed.

(** The first row of an ordered list has the least key. *)
Definition least_first {A} (key : A -> nat) (l : list A) : Prop :=
  forall h, head l = Some h -> forall y, y ∈ l -> key h <= key y.

Lemma insert_by_least_first {A} (key : A -> nat) (x : A) (l : list A) :
  least_first key l -> least_first key (insert_by key x l).
Proof.
  intros Hl. destruct l as [|h l]; simpl.
  - intros h [= <-] y Hy. apply list_elem_of_singleton in Hy as ->. lia.
  - destruct (Nat.leb_spec (key x) (key h)) as [Hle|Hlt].
    + intros h' [= <-] y Hy. apply elem_of_cons in Hy as [->|Hy]; [lia|].
      specialize (Hl h eq_refl y Hy). lia.
    + intros h' [= <-] y Hy. apply elem_of_cons in Hy as [->|Hy]; [lia|].
      rewrite insert_by_perm in Hy. apply elem_of_cons in Hy as [->|Hy]; [lia|].
      apply (Hl h eq_refl). by right.
Qed.

Lemma order_by_least_first {A} (key : A -> nat) (l : list A) :
  least_first key (order_by key l).
Proof.
  induction l as [|x l IH]; simpl.
  - intros h [=].
  - by apply insert_by_least_first.
Qed.

(** [get_next_in_queue] returns nothing exactly when no row is queued;
    otherwise it returns the session of a queued row whose position is the
    least among the queued rows. *)
Theorem next_in_queue_has_least_position (d : Database) :
  (get_next_in_queue d = None
   <-> forall q, q ∈ article_queue d -> queued q = false)
  /\ (forall session_id, get_next_in_queue d = Some session_id ->
        exists q, q ∈ article_queue d /\ queued q = true
          /\ q_session_id q = session_id
          /\ forall q', q' ∈ article_queue d -> queued q' = true ->
               position q <= position q').
Proof.
  unfold get_next_in_queue.
  pose proof (order_by_perm position (List.filter queued (article_queue d))) as Hperm.
  pose proof (order_by_least_first position (List.filter queued (article_queue d)))
    as Hleast.
  assert (forall q, q ∈ List.filter queued (article_queue d)
                    <-> q ∈ article_queue d /\ queued q = true) as Hin.
  { intros q. rewrite !list_elem_of_In. apply filter_In. }
  destruct (order_by position (List.filter queued (article_queue d)))
    as [|h rest] eqn:E; simpl.
  - split; [|intros ? [=]]. split; [|done].
    intros _ q Hq. destruct (queued q) eqn:Eq; [|done].
    assert (q ∈ @nil ArticleQueue) as Hnil by (rewrite Hperm; by apply Hin).
    by apply elem_of_nil in Hnil.
  - split.
    + split; [done|]. intros Hnone.
      assert (h ∈ List.filter queued (article_queue d)) as Hh
        by (rewrite <- Hperm; by left).
      apply Hin in Hh as [Hh1 Hh2]. rewrite (Hnone h Hh1) in Hh2. done.
    + intros session_id [= <-]. exists h.
      assert (h ∈ List.filter queued (article_queue d)) as Hh
        by (rewrite <- Hperm; by left).
      apply Hin in Hh as [Hh1 Hh2]. repeat split; [done..|].
      intros q' Hq' Hqueued. apply (Hleast h eq_refl).
      rewrite Hperm. by apply Hin.
Qed.

Lemma insert_by_last {A} (key : A -> nat) (y x : A) (l : list A) :
  key y <= key x -> insert_by key y (l ++ [x]) = insert_by key y l ++ [x].
Proof.
  intros Hle. induction l as [|z l IH]; simpl.
  - by rewrite (proj2 (Nat.leb_le _ _) Hle).
  - destruct (key y <=? key z); [done|]. by rewrite IH.
Qed.

Lemma order_by_last {A} (key : A -> nat) (x : A) (l : list A) :
  (forall y, y ∈ l -> key y <= key x) ->
  order_by key (l ++ [x]) = order_by key l ++ [x].
Proof.
  induction l as [|z l IH]; simpl; [done|]. intros Hle.
  rewrite IH by (intros y Hy; apply Hle; by right).
  apply insert_by_last. apply Hle. by left.
Qed.

Lemma versions_after_create (article_id content : string) (scores : Dict.t Q)
  (node_name : string) (d : Database) :
  versions_of article_id (create_version article_id content scores node_name d)
  = versions_of article_id d
    ++ [{| v_article_id := article_id;
           version_number := length (versions_of article_id d) + 1;
           v_content := content; v_scores := scores;
           v_node_name := node_name |}].
Proof.
  unfold create_version, versions_of. simpl.
  rewrite List.filter_app. simpl. by rewrite String.eqb_refl.
Qed.

(** When no stored version of the article has a number above the count of
    its versions, as is the case when all were made by [create_version],
    the version created next is listed last by [get_versions], after the
    earlier ones in their earlier order, and carries the next number. *)
Theorem new_version_listed_last (article_id content : string)
  (scores : Dict.t Q) (node_name : string) (d : Database) :
  (forall v, v ∈ versions_of article_id d ->
     version_number v <= length (versions_of article_id d)) ->
  get_versions article_id (create_version article_id content scores node_name d)
  = get_versions article_id d
    ++ [{| v_article_id := article_id;
           version_number := length (get_versions article_id d) + 1;
           v_content := content; v_scores := scores;
           v_node_name := node_name |}].
Proof.
  intros Hbound. unfold get_versions.
  rewrite versions_after_create, order_by_last.
  - by rewrite (Permutation_length (order_by_perm _ _)).
  - intros y Hy. specialize (Hbound y Hy). simpl. lia.
Qed.

Lemma new_version_listed_last_witness :
  get_versions "a"
    (create_version "a" "second" [] "regenerate"
       (create_version "a" "first" [] "generate" empty_db))
  = [{| v_article_id := "a"; version_number := 1; v_content := "first";
        v_scores := []; v_node_name := "generate" |};
     {| v_article_id := "a"; version_number := 2; v_content := "second";
        v_scores := []; v_node_name := "regenerate" |}].
Proof.
  apply (new_version_listed_last "a" "second" [] "regenerate"
           (create_version "a" "first" [] "generate" empty_db)).
  intros v Hv. vm_compute in Hv. apply list_elem_of_singleton in Hv as ->.
  vm_compute. lia.
Defined.

End DbFacts.

(** * The connection manager (api/websocket.py) *)

Module websocket.

(** A JSON object sent over a socket. *)
Definition Message : Type := Dict.t Value.

(** A socket is named by a handle; [outbox] lists, oldest first, the frames
    that [send_json] delivered. *)
Definition WebSocket : Type := nat.

Record ConnectionManager : Type := {
  active_connections : gmap string WebSocket;
  outbox : list (WebSocket * Message)
}.

Section Sockets.

(** Whether [websocket.accept()] returns, and whether
    [websocket.send_json(message)] does; either raises otherwise. *)
Variable accept : WebSocket -> bool.
Variable send_json : WebSocket -> Message -> bool.

Definition connect (websocket : WebSocket) (session_id : string)
  (m : ConnectionManager) : Outcome ConnectionManager :=
  if accept websocket
  then Returns {| active_connections := <[session_id := websocket]> (active_connections m);
                  outbox := outbox m |}
  else Raises "accept failed".

Definition disconnect (session_id : string) (m : ConnectionManager)
  : ConnectionManager :=
  {| active_connections := delete session_id (active_connections m);
     outbox := outbox m |}.

(** An error raised by [send_json] is logged and swallowed. *)
Definition send_message (session_id : string) (message : Message)
  (m : ConnectionManager) : ConnectionManager :=
  match active_connections m !! session_id with
  | Some websocket =>
      if send_json websocket message
      then {| active_connections := active_connections m;
              outbox := outbox m ++ [(websocket, message)] |}
      else m
  | None => m
  end.

Definition send_token (session_id token message_type : string)
  : ConnectionManager -> ConnectionManager :=
  send_message session_id
    [("type", VStr "token"); ("message_type", VStr message_type);
     ("content", VStr token)].

(** [data or {}] *)
Definition send_status (session_id status : string) (data : option (Dict.t Value))
  : ConnectionManager -> ConnectionManager :=
  send_message session_id
    [("type", VStr "status"); ("status", VStr status);
     ("data", VDict (default [] data))].

Definition send_node_update (session_id node_name status : string)
  (score : option Q) : ConnectionManager -> ConnectionManager :=
  send_message session_id
    [("type", VStr "node_update"); ("node", VStr node_name);
     ("status", VStr status);
     ("score", match score with Some q => VNum q | None => VNone end)].

Definition send_error (session_id : string) (error : option string)
  : ConnectionManager -> ConnectionManager :=
  send_message session_id
    [("type", VStr "error");
     ("message", match error with Some e => VStr e | None => VNone end)].

Definition send_completion (session_id article_id : string) (overall_score : Q)
  : ConnectionManager -> ConnectionManager :=
  send_message session_id
    [("type", VStr "completion"); ("article_id", VStr article_id);
     ("overall_score", VNum overall_score)].

End Sockets.

End websocket.

(** * The article endpoints (api/routes.py) *)

Module endpoints.
Import db_ops db_queries websocket.

Record ArticleRequest : Type := {
  r_session_id : string;
  r_requirements : gmap string Value
}.

Inductive GenerateResponse : Type :=
| Queued (position : nat)
    (* {"success": True, "status": "queued", "position": position} *)
| Processing (article_id : string) (initial_state : ArticleState)
    (* {"success": True, "article_id": ..., "status": "processing", ...};
       [initial_state] is the state of the workflow task that was created *)
| ServerError (detail : string).
    (* HTTPException(500, str(e)) *)

Section Generate.

Variable send_json : WebSocket -> Message -> bool.
(** What the database driver stores in a text column for a value, or the
    error it raises. *)
Variable column_text : Value -> Outcome string.
(** The hex digits of the uuid drawn by the request, and the clock. *)
Variable uuid4_hex : string.
Variable utcnow : nat.

Definition generate_article_endpoint (request : ArticleRequest)
  (d : Database) (m : ConnectionManager)
  : GenerateResponse * Database * ConnectionManager :=
  let processing_count := get_processing_count d in
  if settings.MAX_CONCURRENT_ARTICLES <=? processing_count then
    match add_to_queue (r_session_id request) d with
    | Raises e => (ServerError e, d, m)
    | Returns (position, d1) =>
        (Queued position, d1,
         send_status send_json (r_session_id request) "queued"
           (Some [("position", VNum (inject_Z (Z.of_nat position)));
                  ("message",
                   VStr ("Added to queue at position " +:+ Py.str_of_nat position))])
           m)
    end
  else
    let d1 := update_queue_status (r_session_id request) "processing" utcnow d in
    let article_id := "article_" +:+ ArticleWorkflow.take 12 uuid4_hex in
    match column_text (routes.get_or (r_requirements request) "topic" "Untitled"),
          column_text (routes.get_or (r_requirements request) "author" "Anonymous")
    with
    | Raises e, _ => (ServerError e, d1, m)
    | _, Raises e => (ServerError e, d1, m)
    | Returns title, Returns author =>
        match create_article article_id (r_session_id request) title author
                (r_requirements request) d1 with
        | Raises e => (ServerError e, d1, m)
        | Returns d2 =>
            (Processing article_id
               (routes.initial_state (r_session_id request) article_id
                  (r_requirements request) utcnow),
             d2, m)
        end
    end.

End Generate.

(** ** GET /validation-report/{article_id} *)

Record Summary : Type := {
  total_validations : nat;
  total_versions : nat;
  latest_scores : Dict.t Q;
  average_score : Q
}.

(** Timestamps are left out, as in the tables. *)
Record ValidationEntry : Type := {
  e_node : string;
  e_score : Q;
  e_feedback : Judgment;
  e_retry_count : nat;
  e_status : string
}.

Record VersionEntry : Type := {
  e_version : nat;
  e_version_node : string;
  e_scores : Dict.t Q
}.

Record Report : Type := {
  report_article_id : string;
  validations : list ValidationEntry;
  versions : list VersionEntry;
  summary : option Summary      (* [None] is the empty summary [{}] *)
}.

(** [for log in reversed(logs): if log.node_name not in latest_scores: ...] *)
Definition latest_scores_of (logs : list ValidationLog) : Dict.t Q :=
  fold_left
    (fun latest log =>
       match Dict.get (l_node_name log) latest with
       | Some _ => latest
       | None => Dict.set (l_node_name log) (l_score log) latest
       end)
    (rev logs) [].

Definition get_validation_report (article_id : string) (d : Database) : Report :=
  let logs := get_validation_logs article_id d in
  let versions := get_versions article_id d in
  {| report_article_id := article_id;
     validations :=
       map (fun log => {| e_node := l_node_name log; e_score := l_score log;
                          e_feedback := l_feedback log;
                          e_retry_count := l_retry_count log;
                          e_status := l_status log |}) logs;
     versions :=
       map (fun v => {| e_version := version_number v;
                        e_version_node := v_node_name v;
                        e_scores := v_scores v |}) versions;
     summary :=
       match logs with
       | [] => None
       | _ =>
           let latest := latest_scores_of logs in
           Some {| total_validations := length logs;
                   total_versions := length versions;
                   latest_scores := latest;
                   average_score :=
                     match latest with
                     | [] => 0%Q
                     | _ =>
                         Float64.div
                           (fold_left Float64.add (Dict.values latest) 0%Q)
                           (Float64.of_int (Z.of_nat (length latest)))
                     end |}
       end |}.

End endpoints.

(** ** Admission, reports and notifications *)

Module ServerFacts.
Import db_ops db_queries websocket endpoints ArticleWorkflow StageFacts.

(** No node of the workflow writes to the queue table. *)
Lemma step_keeps_queue (generator : Generator) (uuid4_hex : nat -> string)
  (latex_to_image : string -> string -> bool -> bool)
  (n : Node) (s : ArticleState) (w : World) :
  article_queue (db (step generator uuid4_hex latex_to_image n s w).2)
  = article_queue (db w).
Proof.
  destruct (stage_name n) as [name|] eqn:En.
  - destruct (stage_step generator uuid4_hex latex_to_image n name s w En)
      as (_ & _ & _ & [Hg|[Hr|Hj]]).
    + destruct Hg as (_ & _ & _ & _ & _ & ->). done.
    + destruct Hr as (msg & _ & _ & _ & _ & _ & _ & _ & _ & _ & ->). done.
    + destruct Hj as (result & Hj). cbv zeta in Hj.
      by destruct Hj as (_ & _ & _ & _ & _ & _ & -> & _).
  - destruct n; try discriminate En; cbn [step ArticleWorkflow.step fst snd].
    + unfold generate_node. destruct (generate_article _ _ _); [|done].
      cbv zeta. checkpoint_effect H.
      destruct H as (_ & _ & _ & _ & _ & Hq & _). rewrite Hq.
      by destruct (Re.search _ _).
    + by destruct (should_regenerate s) as [[|] s'].
    + unfold regenerate_node. destruct (regenerate_content _ _ _ _ _); [|done].
      cbv zeta. checkpoint_effect H.
      destruct H as (_ & _ & _ & _ & _ & Hq & _). by rewrite Hq.
    + unfold finalize_node. cbv zeta.
      change (has_math (set_current_node "finalize" s)) with (has_math s).
      by destruct (has_math s).
    + done.
Qed.

Lemma update_first_nil {A} (p : A -> bool) (f : A -> A) (l : list A) :
  l = [] -> update_first p f l = [].
Proof. by intros ->. Qed.

(** While the queue table holds no row, a generation request is never
    queued: it is started, or answered with an error, and notifies nobody.
    The table then still holds no row, and neither a workflow node nor the
    status update at the end of a run adds one. *)
Theorem empty_queue_never_fills (d : Database) :
  article_queue d = [] ->
  (forall send_json column_text uuid4_hex utcnow request m,
     let r := generate_article_endpoint send_json column_text uuid4_hex utcnow
                request d m in
     ((exists article_id,
         r.1.1 = Processing article_id
                   (routes.initial_state (r_session_id request) article_id
                      (r_requirements request) utcnow)
         /\ exists a, get_article article_id r.1.2 = Some a
               /\ a_status a = "processing"
               /\ a_session_id a = r_session_id request)
      \/ (exists detail, r.1.1 = ServerError detail /\ articles r.1.2 = articles d))
     /\ article_queue r.1.2 = [] /\ r.2 = m)
  /\ (forall session_id status utcnow,
        article_queue (update_queue_status session_id status utcnow d) = [])
  /\ (forall generator uuid4_hex latex_to_image n s w,
        db w = d ->
        article_queue (db (step generator uuid4_hex latex_to_image n s w).2) = []).
Proof.
  intros Hempty. split; [|split].
  - intros send_json column_text uuid4_hex utcnow request m. cbv zeta.
    unfold generate_article_endpoint, get_processing_count.
    rewrite Hempty. cbn [List.filter length Nat.leb settings.MAX_CONCURRENT_ARTICLES].
    set (article_id := "article_" +:+ take 12 uuid4_hex).
    set (d1 := update_queue_status (r_session_id request) "processing" utcnow d).
    assert (article_queue d1 = []) as Hq1
      by (unfold d1, update_queue_status; simpl; by rewrite Hempty).
    assert (articles d1 = articles d) as Ha1 by done.
    destruct (column_text (routes.get_or (r_requirements request) "topic" "Untitled"))
      as [title|e]; [|split; [right; by exists e|done]].
    destruct (column_text (routes.get_or (r_requirements request) "author" "Anonymous"))
      as [author|e]; [|split; [right; by exists e|done]].
    destruct (get_article article_id d1) as [a|] eqn:Eget.
    + rewrite (DbFacts.create_article_taken article_id (r_session_id request)
                 title author (r_requirements request) d1 a Eget).
      split; [right; by exists "IntegrityError"|done].
    + rewrite (DbFacts.create_article_fresh article_id (r_session_id request)
                 title author (r_requirements request) d1 Eget).
      cbn [fst snd]. split; [|split; [exact Hq1|done]]. left. exists article_id.
      split; [done|]. eexists. split.
      * rewrite DbFacts.get_article_appended, Eget. simpl.
        by rewrite String.eqb_refl.
      * done.
  - intros session_id status utcnow. unfold update_queue_status. simpl.
    by rewrite Hempty.
  - intros generator uuid4_hex latex_to_image n s w <-.
    by rewrite step_keeps_queue.
Qed.

Lemma empty_queue_never_fills_witness :
  article_queue
    (generate_article_endpoint (fun _ _ => true)
       (fun v => match v with VStr t => Returns t | _ => Raises "type" end)
       "3f9c1d2e4b7a49d08e5f6a1b2c3d4e5f" 0
       {| r_session_id := "session"; r_requirements := ∅ |} empty_db
       {| active_connections := ∅; outbox := [] |}).1.2 = [].
Proof.
  exact (proj1 (proj2 (proj1 (empty_queue_never_fills empty_db eq_refl)
                         (fun _ _ => true)
                         (fun v => match v with VStr t => Returns t | _ => Raises "type" end)
                         "3f9c1d2e4b7a49d08e5f6a1b2c3d4e5f" 0
                         {| r_session_id := "session"; r_requirements := ∅ |}
                         {| active_connections := ∅; outbox := [] |}))).
Defined.

(** ** The validation report *)

Definition note (latest : Dict.t Q) (log : ValidationLog) : Dict.t Q :=
  match Dict.get (l_node_name log) latest with
  | Some _ => latest
  | None => Dict.set (l_node_name log) (l_score log) latest
  end.

Definition about_node (node : string) (log : ValidationLog) : bool :=
  String.eqb (l_node_name log) node.

Lemma noted_lookup (node : string) (logs : list ValidationLog) (latest : Dict.t Q) :
  Dict.get node (fold_left note logs latest)
  = match Dict.get node latest with
    | Some q => Some q
    | None => l_score <$> head (List.filter (about_node node) logs)
    end.
Proof.
  revert latest. induction logs as [|x logs IH]; intros latest; simpl.
  - by destruct (Dict.get node latest).
  - rewrite IH. unfold note, about_node at 2.
    destruct (Dict.get (l_node_name x) latest) as [q0|] eqn:Ex.
    + destruct (String.eqb_spec (l_node_name x) node) as [<-|Hne]; [by rewrite Ex|].
      done.
    + rewrite RunInvariants.dict_set_lookup.
      destruct (String.eqb_spec (l_node_name x) node) as [<-|Hne].
      * by rewrite Ex.
      * done.
Qed.

Lemma dict_get_unlisted {V} (k : string) (d : Dict.t V) :
  Dict.get k d = None -> k ∉ Dict.keys d.
Proof.
  unfold Dict.keys. induction d as [|[k' v] d IH]; simpl.
  - intros _. apply not_elem_of_nil.
  - destruct (String.eqb_spec k k') as [->|Hne]; [done|].
    intros H. apply not_elem_of_cons. split; [done|by apply IH].
Qed.

Lemma dict_keys_set_absent {V} (k : string) (v : V) (d : Dict.t V) :
  Dict.get k d = None -> Dict.keys (Dict.set k v d) = Dict.keys d ++ [k].
Proof.
  unfold Dict.keys. induction d as [|[k' v'] d IH]; simpl; [done|].
  destruct (String.eqb k k'); [done|]. intros H. simpl. by rewrite IH.
Qed.

Lemma noted_keys_nodup (logs : list ValidationLog) (latest : Dict.t Q) :
  NoDup (Dict.keys latest) -> NoDup (Dict.keys (fold_left note logs latest)).
Proof.
  revert latest. induction logs as [|x logs IH]; intros latest Hnd; simpl; [done|].
  apply IH. unfold note.
  destruct (Dict.get (l_node_name x) latest) eqn:Ex; [done|].
  rewrite dict_keys_set_absent by done.
  apply NoDup_app. split; [done|]. split.
  - intros k Hk Hk'. apply list_elem_of_singleton in Hk' as ->.
    by apply dict_get_unlisted in Ex.
  - apply NoDup_singleton.
Qed.

Lemma head_rev {A} (l : list A) : head (rev l) = last l.
Proof. rewrite rev_alt. apply head_reverse. Qed.

(** The report counts every logged validation of the article and none when
    there is no log, in which case the summary is empty also for an id that
    does not exist. Otherwise the summary lists each validated stage once,
    with the score of the stage's most recent log row, and averages these. *)
Theorem report_shows_latest_scores (article_id : string) (d : Database) :
  length (validations (get_validation_report article_id d))
  = length (get_validation_logs article_id d)
  /\ (get_validation_logs article_id d = [] ->
        summary (get_validation_report article_id d) = None)
  /\ (get_validation_logs article_id d <> [] ->
        exists sm,
          summary (get_validation_report article_id d) = Some sm
          /\ total_validations sm = length (get_validation_logs article_id d)
          /\ total_versions sm = length (versions_of article_id d)
          /\ NoDup (Dict.keys (latest_scores sm))
          /\ (forall node,
                Dict.get node (latest_scores sm)
                = l_score <$> last (List.filter (about_node node)
                                      (get_validation_logs article_id d)))
          /\ average_score sm = mean_score (latest_scores sm)).
Proof.
  unfold get_validation_report. cbv zeta. cbn [validations summary].
  split; [by rewrite length_map|]. split.
  - by intros ->.
  - intros Hlogs.
    destruct (get_validation_logs article_id d) as [|l0 logs] eqn:E; [done|].
    eexists. split; [reflexivity|].
    cbn [total_validations total_versions latest_scores average_score].
    split; [done|]. split.
    { unfold get_versions. by rewrite (Permutation_length (DbFacts.order_by_perm _ _)). }
    split.
    { apply noted_keys_nodup. apply NoDup_nil_2. }
    split; [|done].
    intros node. unfold latest_scores_of.
    change (fun latest log => match Dict.get (l_node_name log) latest with
                              | Some _ => latest
                              | None => Dict.set (l_node_name log) (l_score log) latest
                              end) with note.
    rewrite noted_lookup. cbn [Dict.get].
    by rewrite List.filter_rev, head_rev.
Qed.

(** ** Notifications *)

(** When two sockets connect under one session id, one after the other, a
    message for the session goes to the second socket only, and only if the
    socket takes it; the registrations of other sessions are as before. Once
    the session id is disconnected, which the handler of either socket does
    when its socket closes, a message for the session reaches nobody and
    raises nothing. *)
Theorem messages_follow_latest_connection (accept : WebSocket -> bool)
  (send_json : WebSocket -> Message -> bool) (session_id : string)
  (first second : WebSocket) (message : Message) (m m1 m2 : ConnectionManager) :
  connect accept first session_id m = Returns m1 ->
  connect accept second session_id m1 = Returns m2 ->
  outbox (send_message send_json session_id message m2)
  = outbox m ++ (if send_json second message then [(second, message)] else [])
  /\ active_connections (send_message send_json session_id message m2)
     = active_connections m2
  /\ (forall other, other <> session_id ->
        active_connections m2 !! other = active_connections m !! other)
  /\ active_connections (disconnect session_id m2) !! session_id = None
  /\ send_message send_json session_id message (disconnect session_id m2)
     = disconnect session_id m2.
Proof.
  unfold connect. destruct (accept first); [|done]. intros [= <-].
  cbn [active_connections outbox]. destruct (accept second); [|done]. intros [= <-].
  unfold send_message, disconnect. cbn [active_connections outbox].
  rewrite lookup_insert_eq, lookup_delete_eq.
  split; [|split; [|split; [|done]]].
  - destruct (send_json second message); simpl; [done|by rewrite app_nil_r].
  - by destruct (send_json second message).
  - intros other Hother. by rewrite !lookup_insert_ne.
Qed.

Lemma messages_follow_latest_connection_witness :
  outbox
    (send_message (fun _ _ => true) "session" [("type", VStr "error")]
       {| active_connections := <["session" := 2]> (<["session" := 1]> ∅);
          outbox := [] |})
  = [] ++ [(2, [("type", VStr "error")])].
Proof.
  exact (proj1 (messages_follow_latest_connection (fun _ => true) (fun _ _ => true)
                  "session" 1 2 [("type", VStr "error")]
                  {| active_connections := ∅; outbox := [] |} _ _
                  eq_refl eq_refl)).
Defined.

End ServerFacts.

(** * Regular expressions on texts of a known shape *)

Module ReFacts.

(** Every character of a text is of a class. *)
Fixpoint all_chars (cls : ascii -> bool) (s : string) : bool :=
  match s with
  | EmptyString => true
  | String c r => cls c && all_chars cls r
  end.

(** The loop that [Re.match_here] runs for a repetition. *)
Definition rep_loop (greedy : bool) (least : nat) (cls : ascii -> bool)
  (capture : bool) (pat' : Re.pattern)
  : nat -> string -> option ascii -> string -> option Re.found :=
  fix loop (n : nat) (taken : string) (prev : option ascii) (s : string)
    {struct s} : option Re.found :=
    let stop :=
      if least <=? n then
        match Re.match_here pat' prev s with
        | Some f =>
            Some (Re.Found (taken +:+ Re.group0 f)
                    (if capture then taken else Re.group1 f) (Re.rest f))
        | None => None
        end
      else None in
    match s with
    | String c r =>
        if cls c then
          let more := loop (S n) (taken +:+ String c EmptyString) (Some c) r in
          if greedy
          then match more with Some f => Some f | None => stop end
          else match stop with Some f => Some f | None => more end
        else stop
    | EmptyString => stop
    end.

Lemma match_here_rep greedy least cls capture pat' prev s :
  Re.match_here (Re.Rep greedy least cls capture :: pat') prev s
  = rep_loop greedy least cls capture pat' 0 EmptyString prev s.
Proof. reflexivity. Qed.

Lemma rep_loop_nil greedy least cls capture pat' n taken prev :
  rep_loop greedy least cls capture pat' n taken prev EmptyString
  = if least <=? n then
      match Re.match_here pat' prev EmptyString with
      | Some f =>
          Some (Re.Found (taken +:+ Re.group0 f)
                  (if capture then taken else Re.group1 f) (Re.rest f))
      | None => None
      end
    else None.
Proof. reflexivity. Qed.

Lemma rep_loop_cons greedy least cls capture pat' n taken prev c r :
  rep_loop greedy least cls capture pat' n taken prev (String c r)
  = let stop :=
      if least <=? n then
        match Re.match_here pat' prev (String c r) with
        | Some f =>
            Some (Re.Found (taken +:+ Re.group0 f)
                    (if capture then taken else Re.group1 f) (Re.rest f))
        | None => None
        end
      else None in
    if cls c then
      let more := rep_loop greedy least cls capture pat' (S n)
                    (taken +:+ String c EmptyString) (Some c) r in
      if greedy
      then match more with Some f => Some f | None => stop end
      else match stop with Some f => Some f | None => more end
    else stop.
Proof. reflexivity. Qed.

Lemma append_nil_l (s : string) : EmptyString +:+ s = s.
Proof. reflexivity. Qed.

Lemma append_snoc (a : string) (c : ascii) (b : string) :
  (a +:+ String c EmptyString) +:+ b = a +:+ String c b.
Proof.
  by rewrite EquationFacts.append_assoc, EquationFacts.append_cons, append_nil_l.
Qed.

Lemma prefix_refl (s : string) : String.prefix s s = true.
Proof.
  induction s as [|c s IH]; [reflexivity|]. simpl.
  by destruct (ascii_dec c c).
Qed.

Lemma drop_all (s : string) : Py.drop (String.length s) s = EmptyString.
Proof. induction s as [|c s IH]; [reflexivity|]. exact IH. Qed.

Lemma length_append (a b : string) :
  String.length (a +:+ b) = String.length a + String.length b.
Proof.
  induction a as [|c a IH]; [reflexivity|].
  rewrite EquationFacts.append_cons. simpl. by rewrite IH.
Qed.

End ReFacts.

(** * Equations (utils/latex_handler.py) *)

Module LatexFacts.
Import LaTeXHandler ReFacts.

(** [enumerate(equations)], counting from [idx]. *)
Fixpoint enumerate_from {A} (idx : nat) (l : list A) : list (nat * A) :=
  match l with
  | [] => []
  | x :: l' => (idx, x) :: enumerate_from (S idx) l'
  end.

Lemma length_enumerate_from {A} (idx : nat) (l : list A) :
  length (enumerate_from idx l) = length l.
Proof. revert idx. induction l as [|x l IH]; intros idx; simpl; [done|by rewrite IH]. Qed.

(** The equations come out trimmed. *)
Definition starts_clean (s : string) : Prop :=
  match s with
  | EmptyString => True
  | String c _ => Py.isspace c = false
  end.

Lemma lstrip_clean (s : string) : starts_clean (Py.lstrip s).
Proof.
  induction s as [|c s IH]; simpl; [done|].
  destruct (Py.isspace c) eqn:E; [exact IH|exact E].
Qed.

Lemma lstrip_of_clean (s : string) : starts_clean s -> Py.lstrip s = s.
Proof. destruct s as [|c s]; simpl; [done|]. by intros ->. Qed.

Lemma rstrip_clean (s : string) : starts_clean s -> starts_clean (Py.rstrip s).
Proof.
  destruct s as [|c s]; simpl; [done|]. intros Hc.
  destruct (Py.rstrip s); [by rewrite Hc|done].
Qed.

Lemma rstrip_idem (s : string) : Py.rstrip (Py.rstrip s) = Py.rstrip s.
Proof.
  induction s as [|c s IH]; simpl; [done|].
  destruct (Py.rstrip s) as [|d r'] eqn:E.
  - destruct (Py.isspace c) eqn:Ec; simpl; [done|by rewrite Ec].
  - change (Py.rstrip (String c (String d r')))
      with (match Py.rstrip (String d r') with
            | EmptyString =>
                if Py.isspace c then EmptyString else String c EmptyString
            | r'' => String c r''
            end).
    by rewrite IH.
Qed.

Lemma strip_idem (s : string) : Py.strip (Py.strip s) = Py.strip s.
Proof.
  unfold Py.strip.
  rewrite (lstrip_of_clean (Py.rstrip (Py.lstrip s)))
    by apply rstrip_clean, lstrip_clean.
  apply rstrip_idem.
Qed.

Fixpoint last_char (s : string) : option ascii :=
  match s with
  | EmptyString => None
  | String c EmptyString => Some c
  | String _ r => last_char r
  end.

Definition ends_clean (s : string) : Prop :=
  match last_char s with
  | None => True
  | Some c => Py.isspace c = false
  end.

(** What [lstrip] takes off is white space. *)
Lemma lstrip_split (s : string) :
  exists before, s = before +:+ Py.lstrip s /\ all_chars Py.isspace before = true.
Proof.
  induction s as [|c s (before & Hs & Hb)].
  - by exists EmptyString.
  - cbn [Py.lstrip]. destruct (Py.isspace c) eqn:E.
    + exists (String c before). split.
      * rewrite EquationFacts.append_cons. by f_equal.
      * cbn [all_chars]. by rewrite E, Hb.
    + by exists EmptyString.
Qed.

(** What [rstrip] takes off is white space, and what it leaves does not end
    in white space. *)
Lemma rstrip_split (s : string) :
  exists after,
    s = Py.rstrip s +:+ after /\ all_chars Py.isspace after = true
    /\ ends_clean (Py.rstrip s).
Proof.
  induction s as [|c s (after & Hs & Ha & Hc)].
  - by exists EmptyString.
  - cbn [Py.rstrip]. destruct (Py.rstrip s) as [|d r'] eqn:E.
    + rewrite append_nil_l in Hs. subst after.
      destruct (Py.isspace c) eqn:Ec.
      * exists (String c s). split; [done|]. split; [|done].
        cbn [all_chars]. by rewrite Ec, Ha.
      * exists s. split; [done|]. split; [done|]. exact Ec.
    + exists after. split; [|split; [done|exact Hc]].
      rewrite EquationFacts.append_cons. by f_equal.
Qed.

(** [strip] takes white space, and nothing else, off both ends, as much as
    there is. *)
Definition trimmed_from (body t : string) : Prop :=
  exists before after,
    body = before +:+ t +:+ after
    /\ all_chars Py.isspace before = true
    /\ all_chars Py.isspace after = true
    /\ starts_clean t /\ ends_clean t.

Lemma strip_spec (s : string) : trimmed_from s (Py.strip s).
Proof.
  destruct (lstrip_split s) as (before & Hs & Hb).
  destruct (rstrip_split (Py.lstrip s)) as (after & Hl & Ha & Hc).
  exists before, after. unfold Py.strip.
  split; [by rewrite <- Hl|]. split; [done|]. split; [done|].
  split; [apply rstrip_clean, lstrip_clean|exact Hc].
Qed.

(** What [display_loop] has collected and what it has left of the text. *)
Lemma display_loop_result (ms : list (Re.found * nat)) (equations : list equation)
  (text : string) :
  display_loop ms equations text
  = (equations
       ++ map (fun m : Re.found * nat => (Py.strip (Re.group1 m.1), display, m.2))
            ms,
     fold_left
       (fun text (m : Re.found * nat) =>
          Py.replace (Re.group0 m.1) EmptyString text) ms text).
Proof.
  revert equations text. induction ms as [|[m start] ms IH];
    intros equations text; simpl.
  - by rewrite app_nil_r.
  - by rewrite IH, <- app_assoc.
Qed.

(** Every match that [finditer] reports is a match of the pattern at the
    reported offset. *)
Lemma finditer_sound (pat : Re.pattern) (s : string) :
  forall skip pos prev,
    Forall (fun m : Re.found * nat =>
              pos <= m.2
              /\ exists prev',
                   Re.match_here pat prev' (Py.drop (m.2 - pos) s) = Some m.1)
      (Re.finditer_from pat skip pos prev s).
Proof.
  induction s as [|c r IH]; intros skip pos prev.
  - cbn [Re.finditer_from]. destruct skip; [|done].
    destruct (Re.match_here pat prev EmptyString) as [f|] eqn:E; [|done].
    apply Forall_singleton. cbn [fst snd]. split; [lia|].
    exists prev. by rewrite Nat.sub_diag.
  - assert (forall k,
              Forall
                (fun m : Re.found * nat =>
                   pos <= m.2
                   /\ exists prev',
                        Re.match_here pat prev'
                          (Py.drop (m.2 - pos) (String c r)) = Some m.1)
                (Re.finditer_from pat k (S pos) (Some c) r)) as Hrest.
    { intros k. eapply Forall_impl; [apply (IH k (S pos) (Some c))|].
      intros m [Hle (prev' & Hm)]. split; [lia|]. exists prev'.
      replace (m.2 - pos) with (S (m.2 - S pos)) by lia. exact Hm. }
    cbn [Re.finditer_from]. destruct skip as [|k]; [|apply Hrest].
    destruct (Re.match_here pat prev (String c r)) as [f|] eqn:E; [|apply Hrest].
    apply Forall_cons. split; [|apply Hrest]. cbn [fst snd].
    split; [lia|]. exists prev. by rewrite Nat.sub_diag.
Qed.

(** The offset of the first [$$] in a text. *)
Fixpoint first_close (s : string) : option nat :=
  match s with
  | EmptyString => None
  | String c r =>
      if String.prefix "$$" s then Some 0 else S <$> first_close r
  end.

Lemma prefix_nil (s : string) : String.prefix EmptyString s = true.
Proof. by destruct s. Qed.

Lemma prefix_cons (c d : ascii) (a s : string) :
  String.prefix (String c a) (String d s) = Ascii.eqb c d && String.prefix a s.
Proof.
  cbn [String.prefix]. destruct (ascii_dec c d) as [<-|Hne].
  - by rewrite Ascii.eqb_refl.
  - by rewrite (proj2 (Ascii.eqb_neq c d)).
Qed.

Lemma prefix_close (s : string) :
  String.prefix "$$" s
  = match s with
    | String c (String d _) => Ascii.eqb Py.dollar c && Ascii.eqb Py.dollar d
    | _ => false
    end.
Proof.
  destruct s as [|c [|d r]]; [done| |].
  - change "$$" with (String Py.dollar (String Py.dollar EmptyString)).
    rewrite prefix_cons. cbn [String.prefix]. apply andb_false_r.
  - change "$$" with (String Py.dollar (String Py.dollar EmptyString)).
    by rewrite !prefix_cons, prefix_nil, andb_true_r.
Qed.

Lemma close_here (prev : option ascii) (s : string) :
  Re.match_here [Re.Lit Py.dollar; Re.Lit Py.dollar] prev s
  = if String.prefix "$$" s
    then Some (Re.Found "$$" EmptyString (Py.drop 2 s)) else None.
Proof.
  rewrite prefix_close.
  destruct s as [|c [|d r]]; cbn [Re.match_here Py.drop]; [done| |].
  - by destruct (Ascii.eqb Py.dollar c).
  - destruct (Ascii.eqb_spec Py.dollar c) as [<-|Hne]; [|done].
    by destruct (Ascii.eqb_spec Py.dollar d) as [<-|Hne].
Qed.

Lemma lazy_body_sound (s : string) :
  forall n taken prev f,
    rep_loop false 0 Re.any_char true [Re.Lit Py.dollar; Re.Lit Py.dollar]
      n taken prev s = Some f ->
    exists body,
      s = body +:+ "$$" +:+ Re.rest f
      /\ Re.group1 f = taken +:+ body
      /\ Re.group0 f = taken +:+ body +:+ "$$"
      /\ first_close s = Some (String.length body).
Proof.
  induction s as [|c r IH]; intros n taken prev f.
  - rewrite rep_loop_nil. cbn [Nat.leb Re.match_here]. done.
  - rewrite rep_loop_cons. cbv zeta. cbn [Nat.leb Re.any_char].
    rewrite close_here. cbn [first_close].
    destruct (String.prefix "$$" (String c r)) eqn:Hp.
    + intros [= <-]. cbn [Re.group0 Re.group1 Re.rest]. exists EmptyString.
      rewrite EquationFacts.append_empty, append_nil_l. split; [|done].
      rewrite prefix_close in Hp. destruct r as [|d r]; [done|].
      apply andb_true_iff in Hp as [Hc Hd].
      apply Ascii.eqb_eq in Hc as <-. by apply Ascii.eqb_eq in Hd as <-.
    + intros Hmore. destruct (IH _ _ _ _ Hmore) as (body & Hs & H1 & H0 & Hc).
      exists (String c body). rewrite !append_snoc in *.
      rewrite EquationFacts.append_cons, <- Hs, Hc. done.
Qed.

Lemma display_match_sound (prev : option ascii) (s : string) (f : Re.found) :
  Re.match_here display_pattern prev s = Some f ->
  s = "$$" +:+ Re.group1 f +:+ "$$" +:+ Re.rest f
  /\ Re.group0 f = "$$" +:+ Re.group1 f +:+ "$$"
  /\ first_close (Re.group1 f +:+ "$$" +:+ Re.rest f)
     = Some (String.length (Re.group1 f)).
Proof.
  unfold display_pattern.
  destruct s as [|c [|d r]]; cbn [Re.match_here]; [done| |].
  - by destruct (Ascii.eqb Py.dollar c).
  - destruct (Ascii.eqb_spec Py.dollar c) as [<-|]; [|done].
    destruct (Ascii.eqb_spec Py.dollar d) as [<-|]; [|done].
    change ((fix loop (n : nat) (taken : string) (prev0 : option ascii)
               (s : string) {struct s} : option Re.found := _) 0 EmptyString
              (Some Py.dollar) r)
      with (rep_loop false 0 Re.any_char true [Re.Lit Py.dollar; Re.Lit Py.dollar]
              0 EmptyString (Some Py.dollar) r).
    destruct (rep_loop _ _ _ _ _ _ _ _ r) as [g|] eqn:E; [|done].
    intros [= <-]. cbn [Re.group0 Re.group1 Re.rest].
    destruct (lazy_body_sound _ _ _ _ _ E) as (body & Hs & H1 & H0 & Hc).
    rewrite append_nil_l in *. rewrite H1, H0, <- Hs. done.
Qed.

Lemma inline_body_sound (s : string) :
  forall n taken prev f,
    rep_loop false 1 Re.not_dollar true [Re.Lit Py.dollar] n taken prev s = Some f ->
    exists body,
      s = body +:+ "$" +:+ Re.rest f
      /\ Re.group1 f = taken +:+ body
      /\ Py.contains_char Py.dollar body = false
      /\ 1 <= n + String.length body.
Proof.
  induction s as [|c r IH]; intros n taken prev f.
  - rewrite rep_loop_nil. cbn [Re.match_here]. by destruct (1 <=? n).
  - rewrite rep_loop_cons. cbv zeta. cbn [Re.match_here]. unfold Re.not_dollar.
    destruct (Ascii.eqb_spec c Py.dollar) as [->|Hne]; cbn [negb].
    + rewrite Ascii.eqb_refl. destruct (Nat.leb_spec 1 n); [|done].
      intros [= <-]. cbn [Re.group0 Re.group1 Re.rest]. exists EmptyString.
      rewrite EquationFacts.append_empty, append_nil_l.
      split; [done|]. split; [done|]. split; [done|simpl; lia].
    + rewrite (proj2 (Ascii.eqb_neq Py.dollar c)) by congruence.
      assert ((if 1 <=? n then @None Re.found else None) = None) as ->
        by (by destruct (1 <=? n)).
      intros Hmore. destruct (IH _ _ _ _ Hmore) as (body & Hs & H1 & Hd & Hn).
      exists (String c body). rewrite !append_snoc in *.
      rewrite EquationFacts.append_cons, <- Hs.
      split; [done|]. split; [done|]. split; [|simpl; lia].
      unfold Py.contains_char in *. cbn [list_ascii_of_string existsb].
      rewrite (proj2 (Ascii.eqb_neq Py.dollar c)) by congruence. exact Hd.
Qed.

Lemma inline_match_sound (prev : option ascii) (s : string) (f : Re.found) :
  Re.match_here inline_pattern prev s = Some f ->
  s = "$" +:+ Re.group1 f +:+ "$" +:+ Re.rest f
  /\ Py.contains_char Py.dollar (Re.group1 f) = false
  /\ Re.group1 f <> EmptyString.
Proof.
  unfold inline_pattern. destruct s as [|c r]; cbn [Re.match_here]; [done|].
  destruct (Ascii.eqb_spec Py.dollar c) as [<-|]; [|done].
  change ((fix loop (n : nat) (taken : string) (prev0 : option ascii)
             (s : string) {struct s} : option Re.found := _) 0 EmptyString
            (Some Py.dollar) r)
    with (rep_loop false 1 Re.not_dollar true [Re.Lit Py.dollar]
            0 EmptyString (Some Py.dollar) r).
  destruct (rep_loop _ _ _ _ _ _ _ _ r) as [g|] eqn:E; [|done].
  intros [= <-]. cbn [Re.group0 Re.group1 Re.rest].
  destruct (inline_body_sound _ _ _ _ _ E) as (body & Hs & H1 & Hd & Hn).
  rewrite append_nil_l in H1. rewrite H1, <- Hs.
  split; [done|]. split; [done|]. intros ->. simpl in Hn. lia.
Qed.

(** The equations are listed with the display equations first, one for each
    match of the display pattern in the text, and the inline equations after
    them, one for each match of the inline pattern in what is left of the
    text when the matched display texts are taken out. An entry is the
    trimmed body of its match with the offset of the match: the body with
    the white space at its two ends, all of it and nothing else, taken off.
    A display match
    at an offset is a span [$$body$$] that starts there and whose body ends
    at the first [$$]; an inline match is a span [$body$] that starts at its
    offset, with a body that is not empty and holds no dollar sign. *)
Theorem equations_display_first_and_trimmed (content : string) :
  let spans := Re.finditer display_pattern content in
  let remaining :=
    fold_left
      (fun text (m : Re.found * nat) =>
         Py.replace (Re.group0 m.1) EmptyString text) spans content in
  let inline_spans := Re.finditer inline_pattern remaining in
  extract_equations content
  = map (fun m : Re.found * nat => (Py.strip (Re.group1 m.1), display, m.2)) spans
    ++ map (fun m : Re.found * nat => (Py.strip (Re.group1 m.1), inline, m.2))
         inline_spans
  /\ Forall
       (fun m : Re.found * nat =>
          Py.drop m.2 content
          = "$$" +:+ Re.group1 m.1 +:+ "$$" +:+ Re.rest m.1
          /\ Re.group0 m.1 = "$$" +:+ Re.group1 m.1 +:+ "$$"
          /\ first_close (Re.group1 m.1 +:+ "$$" +:+ Re.rest m.1)
             = Some (String.length (Re.group1 m.1))) spans
  /\ Forall
       (fun m : Re.found * nat =>
          Py.drop m.2 remaining
          = "$" +:+ Re.group1 m.1 +:+ "$" +:+ Re.rest m.1
          /\ Py.contains_char Py.dollar (Re.group1 m.1) = false
          /\ Re.group1 m.1 <> EmptyString) inline_spans
  /\ Forall
       (fun m : Re.found * nat =>
          trimmed_from (Re.group1 m.1) (Py.strip (Re.group1 m.1)))
       (spans ++ inline_spans).
Proof.
  cbv zeta.
  assert (extract_equations content
          = map (fun m : Re.found * nat =>
                   (Py.strip (Re.group1 m.1), display, m.2))
              (Re.finditer display_pattern content)
            ++ map (fun m : Re.found * nat =>
                      (Py.strip (Re.group1 m.1), inline, m.2))
                 (Re.finditer inline_pattern
                    (fold_left
                       (fun text (m : Re.found * nat) =>
                          Py.replace (Re.group0 m.1) EmptyString text)
                       (Re.finditer display_pattern content) content))) as Hex.
  { unfold extract_equations. rewrite display_loop_result. cbn [app].
    f_equal. apply map_ext. by intros [m start]. }
  split; [exact Hex|]. split; [|split].
  - unfold Re.finditer.
    eapply Forall_impl; [apply (finditer_sound display_pattern content 0 0 None)|].
    intros m [_ (prev' & Hm)]. rewrite Nat.sub_0_r in Hm.
    by apply display_match_sound in Hm.
  - unfold Re.finditer.
    eapply Forall_impl; [apply finditer_sound|].
    intros m [_ (prev' & Hm)]. rewrite Nat.sub_0_r in Hm.
    by apply inline_match_sound in Hm.
  - apply Forall_forall. intros m _. apply strip_spec.
Qed.

Section Rendering.

Variable latex_to_image : string -> string -> bool -> bool.

Abbreviation process_loop := (process_loop latex_to_image).
Abbreviation process_article_equations :=
  (process_article_equations latex_to_image).

(** Whether the image of an equation of the enumeration is written. *)
Definition written (article_id : string) (ie : nat * equation) : bool :=
  latex_to_image ie.2.1.1 (filename_of article_id ie.1)
    (mode_eqb ie.2.1.2 display).

Lemma process_loop_images (article_id : string) (eqs : list equation) :
  forall idx text images,
    (process_loop article_id idx eqs text images).2
    = images
      ++ map (fun ie : nat * equation => filename_of article_id ie.1)
           (List.filter (written article_id) (enumerate_from idx eqs)).
Proof.
  induction eqs as [|[[eq m] position] eqs IH]; intros idx text images.
  - simpl. by rewrite app_nil_r.
  - cbn [process_loop LaTeXHandler.process_loop enumerate_from List.filter].
    unfold written at 1. cbn [fst snd].
    destruct (latex_to_image eq (filename_of article_id idx) (mode_eqb m display)).
    + rewrite IH. cbn [map fst snd]. by rewrite <- app_assoc.
    + by rewrite IH.
Qed.

Lemma process_loop_nothing_written (article_id : string) (eqs : list equation) :
  (forall latex filename display_mode,
     latex_to_image latex filename display_mode = false) ->
  forall idx text images,
    process_loop article_id idx eqs text images = (text, images).
Proof.
  intros Hfail. induction eqs as [|[[eq m] position] eqs IH];
    intros idx text images; [done|].
  cbn [process_loop LaTeXHandler.process_loop]. by rewrite Hfail, IH.
Qed.

(** For an article id without a backslash, the count returned is the number
    of equations whose image was written, so at most the number of equations
    found. When no image can be written, or the text holds no dollar sign,
    the text comes back unchanged with count 0. *)
Theorem equation_count_is_images_written (content article_id : string) :
  Py.contains_char Py.backslash article_id = false ->
  (process_article_equations content article_id).2
  = length (List.filter (written article_id)
              (enumerate_from 0 (extract_equations content)))
  /\ (process_article_equations content article_id).2
     <= length (extract_equations content)
  /\ ((forall latex filename display_mode,
         latex_to_image latex filename display_mode = false) ->
      process_article_equations content article_id = (content, 0))
  /\ (Py.contains_char Py.dollar content = false ->
      process_article_equations content article_id = (content, 0)).
Proof.
  intros _.
  assert ((process_article_equations content article_id).2
          = length (List.filter (written article_id)
                      (enumerate_from 0 (extract_equations content)))) as Hcount.
  { unfold process_article_equations, LaTeXHandler.process_article_equations.
    destruct (extract_equations content) as [|e eqs] eqn:E; [done|].
    pose proof (process_loop_images article_id (e :: eqs) 0 content []) as H.
    destruct (LaTeXHandler.process_loop _ _ _ _ _ _) as [text images].
    simpl in H. subst images. simpl. by rewrite length_map. }
  split; [exact Hcount|]. split; [|split].
  - rewrite Hcount.
    etransitivity; [apply List.filter_length_le|].
    by rewrite length_enumerate_from.
  - intros Hfail.
    unfold process_article_equations, LaTeXHandler.process_article_equations.
    destruct (extract_equations content) as [|e eqs] eqn:E; [done|].
    by rewrite process_loop_nothing_written.
  - intros Hplain.
    unfold process_article_equations, LaTeXHandler.process_article_equations.
    by rewrite EquationFacts.extract_no_dollar.
Qed.

(** *** One display equation *)

Lemma lazy_body_until_close (body : string) :
  forall n taken prev rest,
    Py.contains_char Py.dollar body = false ->
    rep_loop false 0 Re.any_char true [Re.Lit Py.dollar; Re.Lit Py.dollar]
      n taken prev (body +:+ "$$" +:+ rest)
    = Some (Re.Found (taken +:+ body +:+ "$$") (taken +:+ body) rest).
Proof.
  induction body as [|c body IH]; intros n taken prev rest Hbody.
  - rewrite append_nil_l.
    change ("$$" +:+ rest) with (String Py.dollar (String Py.dollar rest)).
    rewrite rep_loop_cons. cbv zeta.
    change (Re.match_here [Re.Lit Py.dollar; Re.Lit Py.dollar] prev
              (String Py.dollar (String Py.dollar rest)))
      with (Some (Re.Found "$$" EmptyString rest)).
    cbn [Nat.leb Re.any_char Re.group0 Re.group1 Re.rest].
    by rewrite EquationFacts.append_empty.
  - unfold Py.contains_char in Hbody. simpl in Hbody.
    apply orb_false_iff in Hbody as [Hc Hbody].
    rewrite EquationFacts.append_cons, rep_loop_cons. cbv zeta.
    assert (Re.match_here [Re.Lit Py.dollar; Re.Lit Py.dollar] prev
              (String c (body +:+ "$$" +:+ rest)) = None) as ->
      by (simpl; by rewrite Hc).
    cbn [Nat.leb Re.any_char].
    rewrite IH by exact Hbody. by rewrite !append_snoc.
Qed.

Lemma display_match (body : string) (prev : option ascii) :
  Py.contains_char Py.dollar body = false ->
  Re.match_here display_pattern prev (delimited display body)
  = Some (Re.Found (delimited display body) body EmptyString).
Proof.
  intros Hbody. unfold display_pattern, delimited.
  change ("$$" +:+ body +:+ "$$")
    with (String Py.dollar (String Py.dollar (body +:+ "$$" +:+ EmptyString))).
  cbn [Re.match_here]. rewrite !Ascii.eqb_refl.
  change ((fix loop (n : nat) (taken : string) (prev0 : option ascii)
             (s : string) {struct s} : option Re.found := _) 0 EmptyString
            (Some Py.dollar) (body +:+ "$$" +:+ EmptyString))
    with (rep_loop false 0 Re.any_char true [Re.Lit Py.dollar; Re.Lit Py.dollar]
            0 EmptyString (Some Py.dollar) (body +:+ "$$" +:+ EmptyString)).
  rewrite lazy_body_until_close by exact Hbody.
  cbn [Re.group0 Re.group1 Re.rest]. by rewrite !append_nil_l.
Qed.

Lemma finditer_skips_all (s : string) :
  forall pos prev,
    Re.finditer_from display_pattern (String.length s) pos prev s = [].
Proof.
  induction s as [|c s IH]; intros pos prev; [done|]. simpl. apply IH.
Qed.

Lemma replace_skips_all (old new s : string) :
  Py.replace_from old new (String.length s) s = EmptyString.
Proof. induction s as [|c s IH]; [done|]. simpl. apply IH. Qed.

Lemma finditer_found (pat : Re.pattern) (pos : nat) (prev : option ascii)
  (c : ascii) (r : string) (f : Re.found) :
  Re.match_here pat prev (String c r) = Some f ->
  Re.finditer_from pat 0 pos prev (String c r)
  = (f, pos) :: Re.finditer_from pat (String.length (Re.group0 f) - 1) (S pos)
                  (Some c) r.
Proof. intros H. cbn [Re.finditer_from]. by rewrite H. Qed.

Lemma replace_found (old new : string) (c : ascii) (r : string) :
  String.prefix old (String c r) = true ->
  Py.replace_from old new 0 (String c r)
  = new +:+ Py.replace_from old new (String.length old - 1) r.
Proof. intros H. cbn [Py.replace_from]. by rewrite H. Qed.

Lemma extract_one_display (body : string) :
  Py.contains_char Py.dollar body = false ->
  extract_equations (delimited display body) = [(Py.strip body, display, 0)].
Proof.
  intros Hbody. unfold extract_equations.
  assert (Re.finditer display_pattern (delimited display body)
          = [(Re.Found (delimited display body) body EmptyString, 0)]) as ->.
  { unfold Re.finditer.
    pose proof (display_match body None Hbody) as Hm. revert Hm.
    unfold delimited.
    change ("$$" +:+ body +:+ "$$")
      with (String Py.dollar (String Py.dollar (body +:+ "$$"))).
    intros Hm. rewrite (finditer_found _ _ _ _ _ _ Hm). cbn [Re.group0].
    change (String.length
              (String Py.dollar (String Py.dollar (body +:+ "$$"))) - 1)
      with (String.length (String Py.dollar (body +:+ "$$"))).
    by rewrite finditer_skips_all. }
  cbn [display_loop Re.group0 Re.group1 app].
  assert (Py.replace (delimited display body) EmptyString (delimited display body)
          = EmptyString) as ->.
  { unfold delimited.
    change ("$$" +:+ body +:+ "$$")
      with (String Py.dollar (String Py.dollar (body +:+ "$$"))).
    cbn [Py.replace]. rewrite replace_found by apply prefix_refl.
    rewrite append_nil_l.
    change (String.length
              (String Py.dollar (String Py.dollar (body +:+ "$$"))) - 1)
      with (String.length (String Py.dollar (body +:+ "$$"))).
    apply replace_skips_all. }
  done.
Qed.

(** A text that is one display equation, [$$body$$] with no dollar sign in
    the body, yields one equation, the trimmed body. When its image, the
    file eq_<article id>_0.png, is written (and the article id holds no
    backslash) the count is 1; the text becomes the markdown image reference
    of equation 1 to that file, between blank lines, if the body has no
    white space at either end. *)
Theorem display_equation_replaced (body article_id : string) :
  Py.contains_char Py.dollar body = false ->
  Py.contains_char Py.backslash article_id = false ->
  latex_to_image (Py.strip body) ("eq_" +:+ article_id +:+ "_0.png") true = true ->
  extract_equations ("$$" +:+ body +:+ "$$") = [(Py.strip body, display, 0)]
  /\ (process_article_equations ("$$" +:+ body +:+ "$$") article_id).2 = 1
  /\ (Py.strip body = body ->
      process_article_equations ("$$" +:+ body +:+ "$$") article_id
      = (EquationFacts.blank_line +:+ "![Equation 1](/static/images/eq_"
           +:+ article_id +:+ "_0.png)" +:+ EquationFacts.blank_line, 1)).
Proof.
  intros Hbody _ Hrender.
  change ("eq_" +:+ article_id +:+ "_0.png") with (filename_of article_id 0)
    in Hrender.
  change ("$$" +:+ body +:+ "$$") with (delimited display body).
  rewrite <- EquationFacts.first_reference.
  pose proof (extract_one_display body Hbody) as Hex.
  split; [exact Hex|].
  unfold process_article_equations, LaTeXHandler.process_article_equations.
  rewrite Hex. cbn [process_loop LaTeXHandler.process_loop mode_eqb].
  rewrite Hrender. split; [done|].
  intros ->. cbn [app length]. f_equal.
  unfold delimited.
  change ("$$" +:+ body +:+ "$$")
    with (String Py.dollar (String Py.dollar (body +:+ "$$"))).
  cbn [Re.sub_escaped_once]. rewrite prefix_refl.
  change (Py.drop (String.length (String Py.dollar (String Py.dollar (body +:+ "$$"))))
            (String Py.dollar (String Py.dollar (body +:+ "$$"))))
    with (Py.drop (String.length (body +:+ "$$")) (body +:+ "$$")).
  by rewrite drop_all, EquationFacts.append_empty.
Qed.

End Rendering.

Lemma equation_count_is_images_written_witness :
  (LaTeXHandler.process_article_equations (fun _ _ _ => true)
     EquationFacts.sample "article_3f9c1d2e4b7a").2
  <= length (extract_equations EquationFacts.sample).
Proof.
  exact (proj1 (proj2 (equation_count_is_images_written (fun _ _ _ => true)
                         EquationFacts.sample "article_3f9c1d2e4b7a" eq_refl))).
Defined.

Lemma display_equation_replaced_witness :
  LaTeXHandler.process_article_equations (fun _ _ _ => true)
    "$$x^2$$" "article_3f9c1d2e4b7a"
  = (EquationFacts.blank_line
       +:+ "![Equation 1](/static/images/eq_article_3f9c1d2e4b7a_0.png)"
       +:+ EquationFacts.blank_line, 1).
Proof.
  exact (proj2 (proj2 (display_equation_replaced (fun _ _ _ => true)
                         "x^2" "article_3f9c1d2e4b7a" eq_refl eq_refl eq_refl))
           eq_refl).
Defined.

End LatexFacts.

(** * The title of a generated article (agents/graph.py) *)

Module TitleFacts.
Import ArticleWorkflow ReFacts.

(** [.+] runs to the end of the line. *)
Lemma dot_run (t : string) :
  forall n taken prev rest,
    all_chars Re.dot t = true ->
    1 <= n + String.length t ->
    Re.at_eol rest = true ->
    rep_loop true 1 Re.dot true [Re.Eol] n taken prev (t +:+ rest)
    = Some (Re.Found (taken +:+ t) (taken +:+ t) rest).
Proof.
  induction t as [|c t IH]; intros n taken prev rest Ht Hn Hrest.
  - rewrite append_nil_l, EquationFacts.append_empty. simpl in Hn.
    assert ((1 <=? n) = true) as Hle by (apply Nat.leb_le; lia).
    destruct rest as [|c r].
    + rewrite rep_loop_nil, Hle. simpl.
      by rewrite EquationFacts.append_empty.
    + rewrite rep_loop_cons. cbv zeta. rewrite Hle.
      assert (Re.dot c = false) as ->
        by (unfold Re.dot; simpl in Hrest; by rewrite Hrest).
      cbn [Re.match_here]. rewrite Hrest. cbn [Re.group0 Re.group1 Re.rest].
      by rewrite EquationFacts.append_empty.
  - simpl in Ht. apply andb_true_iff in Ht as [Hc Ht].
    rewrite EquationFacts.append_cons, rep_loop_cons. cbv zeta. rewrite Hc.
    rewrite IH by (first [done | simpl in Hn; lia]).
    by rewrite !append_snoc.
Qed.

(** [\s+] takes all the white space in front of a text that starts with
    another character. *)
Lemma space_run (pat' : Re.pattern) (f : Re.found) (ws : string) :
  forall n taken prev c tail,
    all_chars Py.isspace ws = true ->
    1 <= n + String.length ws ->
    Py.isspace c = false ->
    (forall prev', Re.match_here pat' prev' (String c tail) = Some f) ->
    rep_loop true 1 Re.space false pat' n taken prev (ws +:+ String c tail)
    = Some (Re.Found ((taken +:+ ws) +:+ Re.group0 f) (Re.group1 f) (Re.rest f)).
Proof.
  induction ws as [|x ws IH]; intros n taken prev c tail Hws Hn Hc Hf.
  - rewrite append_nil_l, EquationFacts.append_empty. simpl in Hn.
    rewrite rep_loop_cons. cbv zeta.
    assert ((1 <=? n) = true) as -> by (apply Nat.leb_le; lia).
    unfold Re.space. by rewrite Hc, Hf.
  - simpl in Hws. apply andb_true_iff in Hws as [Hx Hws].
    rewrite EquationFacts.append_cons, rep_loop_cons. cbv zeta.
    unfold Re.space at 1. rewrite Hx.
    rewrite (IH (S n) _ _ c tail) by (first [done | simpl in Hn; lia]).
    by rewrite !append_snoc.
Qed.

Lemma heading_found (ws t rest : string) :
  ws <> EmptyString -> all_chars Py.isspace ws = true ->
  t <> EmptyString -> LatexFacts.starts_clean t -> all_chars Re.dot t = true ->
  Re.at_eol rest = true ->
  Re.search title_pattern (String hash (ws +:+ t +:+ rest))
  = Some (Re.Found (String hash (ws +:+ t)) t rest).
Proof.
  intros Hws Hspace Ht Hclean Hdot Hrest.
  destruct t as [|c t]; [done|]. simpl in Hclean. clear Ht.
  assert (forall prev', Re.match_here [Re.Rep true 1 Re.dot true; Re.Eol] prev'
                          (String c (t +:+ rest))
                        = Some (Re.Found (String c t) (String c t) rest)) as Hline.
  { intros prev'. rewrite match_here_rep.
    rewrite <- EquationFacts.append_cons.
    rewrite dot_run by (first [done | simpl; lia]).
    by rewrite append_nil_l. }
  unfold Re.search, title_pattern.
  assert (Re.match_here
            [Re.Bol; Re.Lit hash; Re.Rep true 1 Re.space false;
             Re.Rep true 1 Re.dot true; Re.Eol] None
            (String hash (ws +:+ String c t +:+ rest))
          = Some (Re.Found (String hash (ws +:+ String c t)) (String c t) rest))
    as Hm.
  { cbn [Re.match_here Re.at_bol]. rewrite Ascii.eqb_refl.
    change ((fix loop (n : nat) (taken : string) (prev0 : option ascii)
               (s : string) {struct s} : option Re.found := _) 0 EmptyString
              (Some hash) (ws +:+ String c t +:+ rest))
      with (rep_loop true 1 Re.space false [Re.Rep true 1 Re.dot true; Re.Eol]
              0 EmptyString (Some hash) (ws +:+ String c t +:+ rest)).
    rewrite EquationFacts.append_cons.
    rewrite (space_run _ (Re.Found (String c t) (String c t) rest) ws 0
               EmptyString (Some hash) c (t +:+ rest) Hspace);
      [|destruct ws; [done|simpl; lia]|done|exact Hline].
    cbn [Re.group0 Re.group1 Re.rest]. by rewrite append_nil_l. }
  destruct ws as [|x ws]; [done|].
  rewrite EquationFacts.append_cons in *.
  cbn [Re.search_from]. by rewrite Hm.
Qed.

Lemma no_newline_dot (t : string) :
  Py.contains_char Py.newline t = false -> all_chars Re.dot t = true.
Proof.
  unfold Py.contains_char. induction t as [|c t IH]; [done|].
  cbn [list_ascii_of_string existsb all_chars]. intros H.
  apply orb_false_iff in H as [Hc Ht]. rewrite (IH Ht), andb_true_r.
  unfold Re.dot. by rewrite Ascii.eqb_sym, Hc.
Qed.

Lemma search_no_hash (s : string) :
  Py.contains_char hash s = false ->
  forall prev, Re.search_from title_pattern prev s = None.
Proof.
  induction s as [|c s IH]; intros Hs prev.
  - simpl. by destruct (Re.at_bol prev).
  - unfold Py.contains_char in Hs. cbn [existsb list_ascii_of_string] in Hs.
    apply orb_false_iff in Hs as [Hc Hs].
    cbn [Re.search_from title_pattern Re.match_here]. rewrite Hc.
    destruct (Re.at_bol prev); by apply IH.
Qed.

Section Nodes.

Variable generator : Generator.
Variable uuid4_hex : nat -> string.
Variable latex_to_image : string -> string -> bool -> bool.

Abbreviation generate_node := (generate_node generator uuid4_hex).

(** When the model returns the tokens of an article, the content is their
    concatenation. If it opens with a heading line, a hash sign, white space
    and a text without a line feed that runs to the end of the line (the end
    of the content or a line feed), the title is that text; if it holds no
    hash sign at all, the title is left as it was. *)
Theorem title_is_heading_text (s : ArticleState) (w : World)
  (content_parts : list string) :
  generate_article generator (calls w) (requirements s) = Returns content_parts ->
  content (generate_node s w).1 = String.concat EmptyString content_parts
  /\ (forall ws t rest,
        String.concat EmptyString content_parts = "#" +:+ ws +:+ t +:+ rest ->
        ws <> EmptyString -> all_chars Py.isspace ws = true ->
        t <> EmptyString -> LatexFacts.starts_clean t ->
        Py.contains_char Py.newline t = false ->
        (rest = EmptyString \/ exists r, rest = String Py.newline r) ->
        title (generate_node s w).1 = t)
  /\ (Py.contains_char "#" (String.concat EmptyString content_parts) = false ->
      title (generate_node s w).1 = title s).
Proof.
  intros Hgen. unfold generate_node, ArticleWorkflow.generate_node. cbv zeta.
  change (requirements (set_current_node "generate" s)) with (requirements s).
  rewrite Hgen.
  change (content (set_content (String.concat EmptyString content_parts)
                     (set_current_node "generate" s)))
    with (String.concat EmptyString content_parts).
  checkpoint_effect H. destruct H as (Hst & _).
  assert (exists s2,
            content handed = content s2 /\ title handed = title s2
            /\ s2 = match Re.search title_pattern
                             (String.concat EmptyString content_parts) with
                    | Some title_match =>
                        set_title (Re.group1 title_match)
                          (set_content (String.concat EmptyString content_parts)
                             (set_current_node "generate" s))
                    | None =>
                        set_content (String.concat EmptyString content_parts)
                          (set_current_node "generate" s)
                    end) as (s2 & -> & -> & ->).
  { eexists. split; [|split; [|reflexivity]];
      by destruct Hst as [(-> & _)|(m & -> & _)]. }
  split; [|split].
  - by destruct (Re.search title_pattern _).
  - intros ws t rest Hshape Hws Hspace Ht Hclean Hline Hrest.
    rewrite Hshape.
    change ("#" +:+ ws +:+ t +:+ rest) with (String hash (ws +:+ t +:+ rest)).
    rewrite heading_found; first [done | by apply no_newline_dot | idtac].
    by destruct Hrest as [->|[r ->]].
  - intros Hplain. unfold Re.search. by rewrite search_no_hash.
Qed.

End Nodes.

Lemma title_is_heading_text_witness :
  title (ArticleWorkflow.generate_node Scenarios.steady Scenarios.uuid4_hex
           Scenarios.state0 Scenarios.world0).1
  = "Demo Article".
Proof.
  apply (proj1 (proj2 (title_is_heading_text Scenarios.steady Scenarios.uuid4_hex
                         Scenarios.state0 Scenarios.world0 Scenarios.draft
                         eq_refl))
           " " "Demo Article" (String Py.newline "Content body"));
    first [reflexivity | discriminate
          | right; exists "Content body"; reflexivity].
Defined.

End TitleFacts.

(** * What a run stores and what it leaves alone *)

Module StoreFacts.
Import db_ops ArticleWorkflow StageFacts.

(** The metadata keys that the length and readability stages write. *)
Definition enriched_keys : list string :=
  ["word_count"; "read_time"; "flesch_reading_ease"; "gunning_fog_index"].

Section Runs.

Variable generator : Generator.
Variable uuid4_hex : nat -> string.
Variable latex_to_image : string -> string -> bool -> bool.

Abbreviation step := (step generator uuid4_hex latex_to_image).
Abbreviation steps := (steps generator uuid4_hex latex_to_image).
Abbreviation finalize_node := (finalize_node latex_to_image).

Lemma judged_stage_metadata (key name label : string)
  (enrich : Judgment -> ArticleState -> ArticleState)
  (s : ArticleState) (w : World) :
  (forall j s0, metadata (enrich j s0) !! key = metadata s0 !! key) ->
  metadata (validators.judged_stage generator name label enrich s w).1 !! key
  = metadata s !! key.
Proof.
  intros Henrich. unfold validators.judged_stage.
  destruct (validate_content _ _ _ _ _) as [result|msg]; [|done]. cbv zeta.
  destruct (Qlt_bool _ _); [|cbn [fst]; by rewrite Henrich].
  destruct (_ <=? _); cbn [fst];
    cbn [metadata set_error set_status set_retry_counts set_failed_nodes];
    by rewrite Henrich.
Qed.

Lemma length_enrichment_other (key : string) :
  key ∉ enriched_keys ->
  forall j s0, metadata (validators.length_enrichment j s0) !! key
               = metadata s0 !! key.
Proof.
  intros Hkey j s0. unfold validators.length_enrichment. simpl.
  rewrite !lookup_insert_ne; [done|..];
    intros <-; apply Hkey; unfold enriched_keys; set_solver.
Qed.

Lemma readability_enrichment_other (key : string) :
  key ∉ enriched_keys ->
  forall j s0, metadata (validators.readability_enrichment j s0) !! key
               = metadata s0 !! key.
Proof.
  intros Hkey j s0. unfold validators.readability_enrichment. simpl.
  rewrite !lookup_insert_ne; [done|..];
    intros <-; apply Hkey; unfold enriched_keys; set_solver.
Qed.

Lemma step_metadata (key : string) (n : Node) (s : ArticleState) (w : World) :
  key ∉ enriched_keys ->
  metadata (step n s w).1.2 !! key = metadata s !! key.
Proof.
  intros Hkey.
  destruct n; cbn [step ArticleWorkflow.step fst snd];
    try (apply judged_stage_metadata; done).
  - unfold generate_node. destruct (generate_article _ _ _); [|done].
    cbv zeta. checkpoint_effect H. destruct H as (Hst & _).
    destruct Hst as [(-> & _)|(m & -> & _)]; by destruct (Re.search _ _).
  - apply judged_stage_metadata. by apply length_enrichment_other.
  - unfold validators.validate_math.
    destruct (validators.check_has_math (content s)); cbn [negb]; [|done].
    by rewrite judged_stage_metadata.
  - apply judged_stage_metadata. by apply readability_enrichment_other.
  - unfold validators.validate_code.
    destruct (validators.check_has_code (content s)); cbn [negb]; [|done].
    by rewrite judged_stage_metadata.
  - destruct (RerunFacts.policy_outcomes s) as [H|[(H & _ & _)|(v0 & H & Hf)]];
      by rewrite H.
  - unfold regenerate_node. destruct (regenerate_content _ _ _ _ _); [|done].
    cbv zeta. checkpoint_effect H. destruct H as (Hst & _).
    by destruct Hst as [(-> & _)|(m & -> & _)].
  - unfold ArticleWorkflow.finalize_node. cbv zeta.
    change (has_math (set_current_node "finalize" s)) with (has_math s).
    by destruct (has_math s).
  - done.
Qed.

(** Whatever happens in a run, a metadata entry under a key other than
    word_count, read_time, flesch_reading_ease and gunning_fog_index stays
    as it was: present with the same value, or absent. *)
Theorem run_keeps_other_metadata (k : nat) (n : Node) (s : ArticleState)
  (w : World) (key : string) :
  key ∉ enriched_keys ->
  metadata (steps k n s w).1.2 !! key = metadata s !! key.
Proof.
  intros Hkey.
  apply (steps_invariant generator uuid4_hex latex_to_image
           (fun _ s' _ => metadata s' !! key = metadata s !! key)); [|done].
  intros n0 s0 w0 H. by rewrite step_metadata.
Qed.

(** When the article has a row, finalizing stores in it the content of the
    final state, the mean of the state's scores and the status 'completed',
    which are also what the returned state holds. The row's title and
    author are not touched: the title found in the generated text stays in
    the state only. Without math the content is the content before. *)
Theorem finalized_article_matches_state (s : ArticleState) (w : World)
  (a : Article) :
  get_article (article_id s) (db w) = Some a ->
  exists a',
    get_article (article_id s) (db (finalize_node s w).2) = Some a'
    /\ a_content a' = content (finalize_node s w).1
    /\ a_overall_score a' = overall_score (finalize_node s w).1
    /\ overall_score (finalize_node s w).1 = mean_score (scores s)
    /\ a_status a' = "completed" /\ status (finalize_node s w).1 = "completed"
    /\ a_title a' = a_title a /\ a_author a' = a_author a
    /\ a_updated_at a' = Some (now w)
    /\ (has_math s = false -> content (finalize_node s w).1 = content s).
Proof.
  intros Ha. unfold ArticleWorkflow.finalize_node. cbv zeta.
  change (has_math (set_current_node "finalize" s)) with (has_math s).
  destruct (has_math s); unfold on_db, with_db; cbn [fst snd db];
    match goal with
    | |- context [update_article ?i ?c ?st ?sc ?t ?d] =>
        let H := fresh in
        assert (get_article (article_id s) (update_article i c st sc t d)
                = update_row c st sc t <$> get_article (article_id s) d) as H
          by apply (DbFacts.get_updated_article (article_id s));
        rewrite H, Ha
    end; eexists; (split; [reflexivity|]); by repeat split.
Qed.

End Runs.

Lemma run_keeps_other_metadata_witness :
  metadata
    (ArticleWorkflow.steps Scenarios.steady Scenarios.uuid4_hex
       Scenarios.latex_to_image 11 n_generate Scenarios.state0 Scenarios.world0).1.2
    !! "topic"
  = metadata Scenarios.state0 !! "topic".
Proof.
  apply (run_keeps_other_metadata Scenarios.steady Scenarios.uuid4_hex
           Scenarios.latex_to_image 11 n_generate Scenarios.state0
           Scenarios.world0 "topic").
  unfold enriched_keys. rewrite !not_elem_of_cons.
  repeat split; try discriminate. apply not_elem_of_nil.
Defined.

Lemma finalized_article_matches_state_witness :
  exists a',
    get_article "article_3f9c1d2e4b7a"
      (db (ArticleWorkflow.finalize_node Scenarios.latex_to_image
             Scenarios.state0 Scenarios.world0).2) = Some a'
    /\ a_status a' = "completed" /\ a_title a' = "Untitled".
Proof.
  destruct (finalized_article_matches_state Scenarios.latex_to_image
              Scenarios.state0 Scenarios.world0 _ eq_refl)
    as (a' & H1 & _ & _ & _ & H2 & _ & H3 & _).
  exists a'. split; [exact H1|]. split; [exact H2|exact H3].
Defined.

End StoreFacts.

(** * The workflow task (api/routes.py) *)

Module tasks.
Import db_ops db_queries websocket.

Section Task.

Variable generator : Generator.
Variable uuid4_hex : nat -> string.
Variable latex_to_image : string -> string -> bool -> bool.
Variable send_json : WebSocket -> Message -> bool.

(** [run_workflow(state)] when [workflow_manager.run] returns within [k]
    steps; [None] when it does not. The session that [get_next_in_queue]
    finds is not used. *)
Definition run_workflow (k : nat) (state : ArticleState) (w : World)
  (m : ConnectionManager) : option (ArticleState * World * ConnectionManager) :=
  let m1 :=
    send_status send_json (session_id state) "started"
      (Some [("article_id", VStr (article_id state))]) m in
  match ArticleWorkflow.run generator uuid4_hex latex_to_image k state w with
  | None => None
  | Some (final_state, w1) =>
      let m2 :=
        if String.eqb (status final_state) "completed" then
          send_completion send_json (session_id state) (article_id final_state)
            (overall_score final_state) m1
        else if String.eqb (status final_state) "error" then
          send_error send_json (session_id state) (error final_state) m1
        else m1 in
      let w2 :=
        on_db (update_queue_status (session_id state) "completed" (now w1)) w1 in
      let next_session := get_next_in_queue (db w2) in
      Some (final_state, w2, m2)
  end.

End Task.

End tasks.

Module TaskFacts.
Import db_ops websocket tasks ArticleWorkflow StageFacts.

Section Task.

Variable generator : Generator.
Variable uuid4_hex : nat -> string.
Variable latex_to_image : string -> string -> bool -> bool.
Variable send_json : WebSocket -> Message -> bool.

Abbreviation step := (step generator uuid4_hex latex_to_image).
Abbreviation steps := (steps generator uuid4_hex latex_to_image).
Abbreviation run := (run generator uuid4_hex latex_to_image).
Abbreviation run_workflow :=
  (run_workflow generator uuid4_hex latex_to_image send_json).

(** The end is reached through [finalize] only. *)
Definition finalized (n : Node) (s : ArticleState) : Prop :=
  n = END ->
  status s = "completed" /\ overall_score s = mean_score (scores s).

Lemma step_finalized (n : Node) (s : ArticleState) (w : World) :
  finalized n s -> finalized (step n s w).1.1 (step n s w).1.2.
Proof.
  intros Hn. destruct n; cbn [step ArticleWorkflow.step fst snd];
    unfold finalized; try (intros H; discriminate H).
  - destruct (should_regenerate s) as [[|] s']; intros H; discriminate H.
  - intros _. unfold finalize_node. cbv zeta.
    change (has_math (set_current_node "finalize" s)) with (has_math s).
    by destruct (has_math s).
  - exact Hn.
Qed.

Lemma run_finalized (k : nat) (s s' : ArticleState) (w w' : World) :
  run k s w = Some (s', w') ->
  status s' = "completed" /\ overall_score s' = mean_score (scores s')
  /\ session_id s' = session_id s /\ article_id s' = article_id s.
Proof.
  unfold run, ArticleWorkflow.run.
  pose proof (steps_invariant generator uuid4_hex latex_to_image
                (fun n s0 _ => finalized n s0) step_finalized k n_generate s w)
    as Hfin.
  pose proof (steps_invariant generator uuid4_hex latex_to_image
                (fun _ s0 _ => session_id s0 = session_id s
                               /\ article_id s0 = article_id s)) as Hid.
  specialize (Hid) with (k := k) (n := n_generate) (s := s) (w := w).
  destruct (steps k n_generate s w) as [[n s1] w1] eqn:E. simpl in *.
  destruct n; try discriminate. intros [= <- <-].
  destruct Hfin as [H1 H2]; [by intros [=]|done|].
  split; [exact H1|]. split; [exact H2|].
  apply Hid; [|done]. clear. intros n s0 w0 [Hs Ha].
  destruct (stage_name n) as [name|] eqn:En.
  - destruct (stage_step generator uuid4_hex latex_to_image n name s0 w0 En)
      as ((Hid1 & Hid2 & _) & _). by rewrite Hid1, Hid2.
  - destruct n; try discriminate En; cbn [step ArticleWorkflow.step fst snd].
    + unfold generate_node. destruct (generate_article _ _ _); [|done].
      cbv zeta. checkpoint_effect H. destruct H as (Hst & _).
      destruct Hst as [(-> & _)|(m & -> & _)]; by destruct (Re.search _ _).
    + destruct (RerunFacts.policy_outcomes s0) as [H|[(H & _ & _)|(v0 & H & Hf)]];
        by rewrite H.
    + unfold regenerate_node. destruct (regenerate_content _ _ _ _ _); [|done].
      cbv zeta. checkpoint_effect H. destruct H as (Hst & _).
      by destruct Hst as [(-> & _)|(m & -> & _)].
    + unfold finalize_node. cbv zeta.
      change (has_math (set_current_node "finalize" s0)) with (has_math s0).
      by destruct (has_math s0).
    + done.
Qed.

(** A workflow task that comes back from the workflow has status
    'completed' and announces that and nothing else after 'started': the
    completion message carries the article id and the mean of the final
    scores, and no error message is sent, also when stages failed on the
    way. The task then changes the queue table only. *)
Theorem task_announces_completion (k : nat) (state final_state : ArticleState)
  (w w' : World) (m m' : ConnectionManager) :
  run_workflow k state w m = Some (final_state, w', m') ->
  status final_state = "completed"
  /\ m' = send_completion send_json (session_id state) (article_id state)
            (mean_score (scores final_state))
            (send_status send_json (session_id state) "started"
               (Some [("article_id", VStr (article_id state))]) m)
  /\ exists w1,
       run k state w = Some (final_state, w1)
       /\ articles (db w') = articles (db w1)
       /\ article_versions (db w') = article_versions (db w1)
       /\ validation_logs (db w') = validation_logs (db w1)
       /\ checkpoints (db w') = checkpoints (db w1)
       /\ article_queue (db w')
          = article_queue
              (update_queue_status (session_id state) "completed" (now w1) (db w1)).
Proof.
  unfold run_workflow, tasks.run_workflow. cbv zeta.
  destruct (ArticleWorkflow.run _ _ _ k state w) as [[s1 w1]|] eqn:E; [|done].
  destruct (run_finalized k state s1 w w1 E) as (Hst & Hsc & _ & Hid).
  rewrite Hst, Hsc, Hid. cbn [String.eqb]. intros [= <- <- <-].
  split; [exact Hst|]. split; [|by exists w1].
  by vm_compute (String.eqb "completed" "completed").
Qed.

End Task.

Lemma task_announces_completion_witness :
  match tasks.run_workflow Scenarios.steady Scenarios.uuid4_hex
          Scenarios.latex_to_image (fun _ _ => true) 11 Scenarios.state0
          Scenarios.world0 {| active_connections := ∅; outbox := [] |} with
  | Some (final_state, _, _) => status final_state = "completed"
  | None => False
  end.
Proof.
  destruct (tasks.run_workflow Scenarios.steady Scenarios.uuid4_hex
              Scenarios.latex_to_image (fun _ _ => true) 11 Scenarios.state0
              Scenarios.world0 {| active_connections := ∅; outbox := [] |})
    as [[[final_state w'] m']|] eqn:E.
  - exact (proj1 (task_announces_completion Scenarios.steady Scenarios.uuid4_hex
                    Scenarios.latex_to_image (fun _ _ => true) 11 Scenarios.state0
                    final_state Scenarios.world0 w' _ m' E)).
  - vm_compute in E. discriminate E.
Defined.

End TaskFacts.

(** * Checkpoints taken by a run (agents/graph.py) *)

Module CheckpointFacts.
Import db_ops ArticleWorkflow StageFacts.

(** The name under which a node saves its checkpoint. *)
Definition saving_node (n : Node) : string :=
  match n with
  | n_regenerate => "regenerate"
  | _ => "generate"
  end.

Section Runs.

Variable generator : Generator.
Variable uuid4_hex : nat -> string.
Variable latex_to_image : string -> string -> bool -> bool.

Abbreviation step := (step generator uuid4_hex latex_to_image).
Abbreviation steps := (steps generator uuid4_hex latex_to_image).
Abbreviation drafts := (VersionFacts.drafts generator).

(** The id under which the step would save its checkpoint. *)
Definition checkpoint_id_of (n : Node) (s : ArticleState) (w : World) : string :=
  article_id s +:+ "_" +:+ saving_node n +:+ "_" +:+ take 8 (uuid4_hex (uuids w)).

Lemma judged_stage_timestamps (name label : string)
  (enrich : Judgment -> ArticleState -> ArticleState)
  (s : ArticleState) (w : World) :
  (forall j s0, json_serializable (enrich j s0) = json_serializable s0) ->
  json_serializable (validators.judged_stage generator name label enrich s w).1
  = json_serializable s.
Proof.
  intros Henrich. unfold validators.judged_stage.
  destruct (validate_content _ _ _ _ _) as [result|msg]; [|done]. cbv zeta.
  destruct (Qlt_bool _ _); [|cbn [fst]; by rewrite Henrich].
  destruct (_ <=? _); cbn [fst];
    change (json_serializable (set_error ?e (set_status ?st (set_retry_counts ?r
              (set_failed_nodes ?f ?x))))) with (json_serializable x);
    change (json_serializable (set_retry_counts ?r (set_failed_nodes ?f ?x)))
      with (json_serializable x);
    by rewrite Henrich.
Qed.

(** No node touches the timestamps. *)
Lemma step_serializable (n : Node) (s : ArticleState) (w : World) :
  json_serializable (step n s w).1.2 = json_serializable s.
Proof.
  destruct n; cbn [step ArticleWorkflow.step fst snd];
    try (by apply judged_stage_timestamps).
  - unfold generate_node. destruct (generate_article _ _ _); [|done].
    cbv zeta. checkpoint_effect H. destruct H as (Hst & _).
    destruct Hst as [(-> & _)|(m & -> & _)]; by destruct (Re.search _ _).
  - unfold validators.validate_math.
    destruct (validators.check_has_math (content s)); cbn [negb]; [|done].
    by rewrite judged_stage_timestamps.
  - unfold validators.validate_code.
    destruct (validators.check_has_code (content s)); cbn [negb]; [|done].
    by rewrite judged_stage_timestamps.
  - destruct (RerunFacts.policy_outcomes s) as [H|[(H & _ & _)|(v0 & H & Hf)]];
      by rewrite H.
  - unfold regenerate_node. destruct (regenerate_content _ _ _ _ _); [|done].
    cbv zeta. checkpoint_effect H. destruct H as (Hst & _).
    by destruct Hst as [(-> & _)|(m & -> & _)].
  - unfold ArticleWorkflow.finalize_node. cbv zeta.
    change (has_math (set_current_node "finalize" s)) with (has_math s).
    by destruct (has_math s).
  - done.
Qed.

(** What one step does to the checkpoint table. *)
Lemma step_checkpoints (n : Node) (s : ArticleState) (w : World) :
  (drafts n s w = false ->
   checkpoints (db (step n s w).2) = checkpoints (db w)
   /\ uuids (step n s w).2 = uuids w)
  /\ (drafts n s w = true ->
      uuids (step n s w).2 = S (uuids w)
      /\ (json_serializable s = true ->
          get_checkpoint (checkpoint_id_of n s w) (db w) = None ->
          checkpoints (db (step n s w).2)
          = checkpoints (db w)
            ++ [{| c_id := checkpoint_id_of n s w;
                   c_article_id := article_id s;
                   c_node_name := saving_node n;
                   state_data := (step n s w).1.2 |}]
          /\ status (step n s w).1.2 = status s
          /\ error (step n s w).1.2 = error s)
      /\ (json_serializable s = false
          \/ is_Some (get_checkpoint (checkpoint_id_of n s w) (db w)) ->
          checkpoints (db (step n s w).2) = checkpoints (db w)
          /\ status (step n s w).1.2 = "error"
          /\ is_Some (error (step n s w).1.2))).
Proof.
  destruct (stage_name n) as [name|] eqn:En.
  - assert (drafts n s w = false) as -> by (by destruct n).
    split; [|done]. intros _.
    destruct (stage_step generator uuid4_hex latex_to_image n name s w En)
      as (_ & Hu & _ & [Hg|[Hr|Hj]]).
    + by destruct Hg as (_ & _ & _ & _ & _ & ->).
    + destruct Hr as (msg & _ & _ & _ & _ & _ & _ & _ & _ & _ & ->). done.
    + destruct Hj as (result & Hj). cbv zeta in Hj.
      by destruct Hj as (_ & _ & _ & _ & _ & _ & _ & -> & _).
  - destruct n; try discriminate En;
      cbn [step ArticleWorkflow.step fst snd VersionFacts.drafts saving_node].
    + unfold checkpoint_id_of, generate_node. cbn [saving_node].
      change (requirements (set_current_node "generate" s)) with (requirements s).
      destruct (generate_article _ _ _) as [parts|msg]; cbn [VersionFacts.returns];
        [|done].
      split; [done|]. intros _. cbv zeta.
      rewrite CheckpointSave.save_checkpoint_of_cases.
      destruct (Re.search _ _);
        (match goal with
         | |- context [json_serializable ?x] =>
             change (json_serializable x) with (json_serializable s)
         end);
        (match goal with
         | |- context [get_checkpoint ?i (db ?x)] =>
             change (get_checkpoint i (db x))
               with (get_checkpoint
                       (article_id s +:+ "_" +:+ "generate" +:+ "_"
                          +:+ take 8 (uuid4_hex (uuids w))) (db w))
         end);
        destruct (json_serializable s);
        destruct (get_checkpoint _ (db w));
        cbn [fst snd]; (split; [done|]);
        (split; [intros; try done|intros [|[? ?]]; try done]).
    + by destruct (should_regenerate s) as [[|] s'].
    + unfold checkpoint_id_of, regenerate_node. cbn [saving_node].
      change (node_names_of (set_iteration _ _)) with (node_names_of s).
      change (feedback_text_of (set_iteration _ _)) with (feedback_text_of s).
      change (content (set_iteration _ (set_current_node _ s))) with (content s).
      destruct (regenerate_content _ _ _ _ _) as [parts|msg];
        cbn [VersionFacts.returns]; [|done].
      split; [done|]. intros _. cbv zeta.
      rewrite CheckpointSave.save_checkpoint_of_cases.
      (match goal with
       | |- context [json_serializable ?x] =>
           change (json_serializable x) with (json_serializable s)
       end);
        (match goal with
         | |- context [get_checkpoint ?i (db ?x)] =>
             change (get_checkpoint i (db x))
               with (get_checkpoint
                       (article_id s +:+ "_" +:+ "regenerate" +:+ "_"
                          +:+ take 8 (uuid4_hex (uuids w))) (db w))
         end);
        destruct (json_serializable s);
        destruct (get_checkpoint _ (db w));
        cbn [fst snd]; (split; [done|]);
        (split; [intros; try done|intros [|[? ?]]; try done]).
    + unfold ArticleWorkflow.finalize_node. cbv zeta.
      change (has_math (set_current_node "finalize" s)) with (has_math s).
      by destruct (has_math s).
    + done.
Qed.

(** A generate or regenerate step whose request to the language model
    returned draws one uuid and tries to save a checkpoint; no other step
    does. When the state holds no [datetime] and the checkpoint id is not
    taken, the checkpoint is stored and holds exactly the state that the
    step hands on, whose status and error the step has not touched.
    Otherwise nothing is stored and the step hands on a state with status
    'error'. In a run that starts from a state holding a [datetime], as the
    generation endpoint builds it, no checkpoint is ever stored. *)
Theorem checkpoint_holds_state_handed_on (n : Node) (s : ArticleState)
  (w : World) :
  (drafts n s w = false ->
   checkpoints (db (step n s w).2) = checkpoints (db w)
   /\ uuids (step n s w).2 = uuids w)
  /\ (drafts n s w = true ->
      uuids (step n s w).2 = S (uuids w)
      /\ (json_serializable s = true ->
          get_checkpoint (checkpoint_id_of n s w) (db w) = None ->
          checkpoints (db (step n s w).2)
          = checkpoints (db w)
            ++ [{| c_id := article_id s +:+ "_" +:+ saving_node n +:+ "_"
                             +:+ take 8 (uuid4_hex (uuids w));
                   c_article_id := article_id s;
                   c_node_name := saving_node n;
                   state_data := (step n s w).1.2 |}]
          /\ status (step n s w).1.2 = status s
          /\ error (step n s w).1.2 = error s)
      /\ (json_serializable s = false
          \/ is_Some (get_checkpoint (checkpoint_id_of n s w) (db w)) ->
          checkpoints (db (step n s w).2) = checkpoints (db w)
          /\ status (step n s w).1.2 = "error"
          /\ is_Some (error (step n s w).1.2)))
  /\ (forall k session article requirements utcnow,
        s = routes.initial_state session article requirements utcnow ->
        checkpoints (db (steps k n s w).2) = checkpoints (db w)).
Proof.
  split; [apply step_checkpoints|]. split; [apply step_checkpoints|].
  intros k session article requirements utcnow Hs.
  assert (json_serializable s = false) as Hser by (by rewrite Hs).
  clear Hs.
  apply (steps_invariant generator uuid4_hex latex_to_image
           (fun _ s' w' => json_serializable s' = false
                           /\ checkpoints (db w') = checkpoints (db w)));
    [|done].
  intros n0 s0 w0 [Hser0 Hck0]. rewrite step_serializable.
  split; [done|]. rewrite <- Hck0.
  destruct (step_checkpoints n0 s0 w0) as [Hno Hyes].
  destruct (drafts n0 s0 w0).
  - destruct (Hyes eq_refl) as (_ & _ & Hfail). apply Hfail. by left.
  - by apply Hno.
Qed.

End Runs.

Lemma checkpoint_holds_state_handed_on_witness :
  let r := step Scenarios.steady Scenarios.uuid4_hex Scenarios.latex_to_image
             n_generate Scenarios.reloaded0 Scenarios.world0 in
  checkpoints (db r.2)
  = [{| c_id := "article_3f9c1d2e4b7a_generate_"
                  +:+ take 8 (Scenarios.uuid4_hex 0);
        c_article_id := "article_3f9c1d2e4b7a";
        c_node_name := "generate";
        state_data := r.1.2 |}].
Proof.
  exact (proj1 (proj1 (proj2 (proj1 (proj2
           (checkpoint_holds_state_handed_on Scenarios.steady
              Scenarios.uuid4_hex Scenarios.latex_to_image n_generate
              Scenarios.reloaded0 Scenarios.world0)) eq_refl))
           eq_refl eq_refl)).
Defined.

End CheckpointFacts.

(** * The chat endpoint (api/routes.py, database/operations.py) *)

Module chat.
Import websocket.

(** A row of the chat_history table, without row id and timestamp. *)
Record ChatHistory : Type := {
  h_session_id : string;
  user_message : option string;
  bot_response : option string;
  message_type : string
}.

Definition add_chat_message (session_id : string)
  (user_message bot_response : option string) (message_type : string)
  (rows : list ChatHistory) : list ChatHistory :=
  rows ++ [{| h_session_id := session_id; user_message := user_message;
              bot_response := bot_response; message_type := message_type |}].

(** The rows of the session in the order they were added. *)
Definition get_chat_history (session_id : string) (rows : list ChatHistory)
  : list ChatHistory :=
  List.filter (fun c => String.eqb (h_session_id c) session_id) rows.

(** One message for the language model: role and content. *)
Definition ChatTurn : Type := (string * string)%type.

(** [if text: messages.append({"role": role, "content": text})] *)
Definition spoken (role : string) (text : option string) : list ChatTurn :=
  match text with
  | Some (String c r) => [(role, String c r)]
  | _ => []
  end.

Inductive ChatResponse : Type :=
| ChatReply (response : string)   (* {"success": True, "response": ..., ...} *)
| ChatError (detail : string).    (* HTTPException(500, str(e)) *)

Section Chat.

(** [prompt_templates.CHAT_INITIAL_SYSTEM] *)
Variable CHAT_INITIAL_SYSTEM : string.
(** [generator.chat_with_user(messages)]: the tokens it yields, and the error
    it raises after them, if any. *)
Variable chat_with_user : list ChatTurn -> list string * option string.
Variable send_json : WebSocket -> Message -> bool.

Definition build_messages (history : list ChatHistory) : list ChatTurn :=
  ("system", CHAT_INITIAL_SYSTEM)
    :: flat_map (fun c => spoken "user" (user_message c)
                          ++ spoken "assistant" (bot_response c)) history.

Definition chat_endpoint (session_id message : string)
  (rows : list ChatHistory) (m : ConnectionManager)
  : ChatResponse * list ChatHistory * ConnectionManager :=
  let rows1 := add_chat_message session_id (Some message) None "chat" rows in
  let history := get_chat_history session_id rows1 in
  let messages := build_messages history in
  let '(tokens, failure) := chat_with_user messages in
  let m1 :=
    fold_left (fun m0 token => send_token send_json session_id token "chat" m0)
      tokens m in
  match failure with
  | Some e => (ChatError e, rows1, m1)
  | None =>
      let bot_response := String.concat EmptyString tokens in
      (ChatReply bot_response,
       add_chat_message session_id None (Some bot_response) "chat" rows1, m1)
  end.

End Chat.

End chat.

Module ChatFacts.
Import websocket chat.

Lemma history_app (session_id : string) (rows more : list ChatHistory) :
  get_chat_history session_id (rows ++ more)
  = get_chat_history session_id rows ++ get_chat_history session_id more.
Proof. apply List.filter_app. Qed.

Lemma history_own (session_id : string) (user bot : option string) (type : string) :
  get_chat_history session_id
    [{| h_session_id := session_id; user_message := user; bot_response := bot;
        message_type := type |}]
  = [{| h_session_id := session_id; user_message := user; bot_response := bot;
        message_type := type |}].
Proof. unfold get_chat_history. simpl. by rewrite String.eqb_refl. Qed.

Lemma build_messages_app (system : string) (a b : list ChatHistory) :
  build_messages system (a ++ b)
  = build_messages system a
    ++ flat_map (fun c => spoken "user" (user_message c)
                          ++ spoken "assistant" (bot_response c)) b.
Proof. unfold build_messages. by rewrite flat_map_app. Qed.

Section Chat.

Variable CHAT_INITIAL_SYSTEM : string.
Variable chat_with_user : list ChatTurn -> list string * option string.
Variable send_json : WebSocket -> Message -> bool.

Abbreviation chat_endpoint :=
  (chat_endpoint CHAT_INITIAL_SYSTEM chat_with_user send_json).
Abbreviation build_messages := (build_messages CHAT_INITIAL_SYSTEM).

(** The language model is asked with the system prompt followed by the
    session's stored turns and the new message; an empty message is stored
    but adds no turn. When the model answers, the reply is the concatenation
    of its tokens and is stored after the message, so that the next request
    of the session is asked with the same turns, then the reply, then the
    next message. When the model fails, the message stays stored without a
    reply. Every token received is sent on to the session, and the rows of
    other sessions are not read or changed. *)
Theorem chat_remembers_exchange (session_id message : string)
  (rows : list ChatHistory) (m : ConnectionManager) :
  let asked :=
    build_messages (get_chat_history session_id rows)
    ++ spoken "user" (Some message) in
  let r := chat_endpoint session_id message rows m in
  r.2 = fold_left (fun m0 token => send_token send_json session_id token "chat" m0)
          (chat_with_user asked).1 m
  /\ (forall other, other <> session_id ->
        get_chat_history other r.1.2 = get_chat_history other rows)
  /\ match (chat_with_user asked).2 with
     | Some e =>
         r.1.1 = ChatError e
         /\ r.1.2 = rows ++ [{| h_session_id := session_id;
                                user_message := Some message;
                                bot_response := None; message_type := "chat" |}]
     | None =>
         let reply := String.concat EmptyString (chat_with_user asked).1 in
         r.1.1 = ChatReply reply
         /\ r.1.2 = rows ++ [{| h_session_id := session_id;
                                user_message := Some message;
                                bot_response := None; message_type := "chat" |};
                             {| h_session_id := session_id;
                                user_message := None;
                                bot_response := Some reply;
                                message_type := "chat" |}]
         /\ forall next,
              build_messages
                (get_chat_history session_id
                   (add_chat_message session_id (Some next) None "chat" r.1.2))
              = asked ++ spoken "assistant" (Some reply)
                  ++ spoken "user" (Some next)
     end.
Proof.
  cbv zeta. unfold chat_endpoint, chat.chat_endpoint. cbv zeta.
  assert (build_messages
            (get_chat_history session_id
               (add_chat_message session_id (Some message) None "chat" rows))
          = build_messages (get_chat_history session_id rows)
            ++ spoken "user" (Some message)) as Hasked.
  { unfold add_chat_message.
    rewrite history_app, history_own, build_messages_app. simpl.
    by rewrite !app_nil_r. }
  rewrite Hasked.
  destruct (chat_with_user _) as [tokens [e|]] eqn:E; cbn [fst snd].
  - split; [done|]. split; [|done].
    intros other Hother. unfold add_chat_message. rewrite history_app.
    unfold get_chat_history at 2. simpl.
    rewrite (proj2 (String.eqb_neq session_id other)) by congruence.
    by rewrite app_nil_r.
  - split; [done|]. split; [|split; [done|split]].
    + intros other Hother. unfold add_chat_message. rewrite !history_app.
      unfold get_chat_history at 2 3. simpl.
      rewrite (proj2 (String.eqb_neq session_id other)) by congruence.
      by rewrite !app_nil_r.
    + unfold add_chat_message. by rewrite <- app_assoc.
    + intros next. unfold add_chat_message.
      rewrite !history_app, !history_own, !build_messages_app. simpl.
      by rewrite !app_nil_r, <- !app_assoc.
Qed.

End Chat.

End ChatFacts.
